(** * US-stock-agent: the technical indicator engine, the trend scorer and
      the signal and risk engine, embedded from [technical_analysis.py],
      [signal_generator.py] and [config.py].

    Numbers.  The Python code computes on [numpy.float64] scalars and pandas
    columns.  They are modelled by [num]: the IEEE special values NaN, +inf
    and -inf are kept, with the IEEE rules for them (x/0, inf-inf, comparisons
    with NaN are false, ...), and every finite value is an exact rational.
    Rounding error of binary64 and the sign of zero are outside the model:
    an equation between two values is an equation between the rationals they
    denote.  The trend score itself is a Python [int] and is modelled by [Z].

    Exceptions.  A function that can raise returns a [result]; the frame, the
    columns added to it and the two dictionaries of the analyzer are passed
    along explicitly. *)

From Stdlib Require Import QArith Qreduction Qabs Qround ZArith Lia Lqa Ascii String List DecimalString.
From stdpp Require Import gmap strings.

Open Scope Z_scope.

(** ** Floating-point values: NaN, the infinities, exact finite values *)

Inductive num : Type :=
| NaN
| PInf
| NInf
| Fin (q : Q).

Module Num.

(** Finite results are kept in lowest terms, so that two computations of the
    same rational give the same term. *)
Definition fin (q : Q) : num := Fin (Qred q).

Definition of_Z (z : Z) : num := Fin (z # 1).
Definition of_nat (n : nat) : num := of_Z (Z.of_nat n).

Definition is_nan (x : num) : bool :=
  match x with NaN => true | _ => false end.

Definition is_finite (x : num) : bool :=
  match x with Fin _ => true | _ => false end.

(** The sign of a finite value: zero counts as positive zero. *)
Definition Qnegative (q : Q) : bool := negb (Qle_bool 0 q).
Definition Qzero (q : Q) : bool := Qeq_bool q 0.

Definition neg (x : num) : num :=
  match x with
  | NaN => NaN
  | PInf => NInf
  | NInf => PInf
  | Fin q => fin (- q)
  end.

Definition add (x y : num) : num :=
  match x, y with
  | NaN, _ | _, NaN => NaN
  | PInf, NInf | NInf, PInf => NaN
  | PInf, _ | _, PInf => PInf
  | NInf, _ | _, NInf => NInf
  | Fin a, Fin b => fin (a + b)
  end.

Definition sub (x y : num) : num :=
  match x, y with
  | NaN, _ | _, NaN => NaN
  | PInf, PInf | NInf, NInf => NaN
  | PInf, _ | _, NInf => PInf
  | NInf, _ | _, PInf => NInf
  | Fin a, Fin b => fin (a - b)
  end.

(** An infinity of the sign [s] ([true] is negative). *)
Definition inf (s : bool) : num := if s then NInf else PInf.

Definition mul (x y : num) : num :=
  match x, y with
  | NaN, _ | _, NaN => NaN
  | Fin a, Fin b => fin (a * b)
  | Fin a, PInf | PInf, Fin a => if Qzero a then NaN else inf (Qnegative a)
  | Fin a, NInf | NInf, Fin a => if Qzero a then NaN else inf (negb (Qnegative a))
  | PInf, PInf | NInf, NInf => PInf
  | PInf, NInf | NInf, PInf => NInf
  end.

(** numpy division: a finite nonzero value over zero is an infinity, 0/0 and
    inf/inf are NaN, and nothing raises. *)
Definition div (x y : num) : num :=
  match x, y with
  | NaN, _ | _, NaN => NaN
  | Fin a, Fin b =>
      if Qzero b
      then (if Qzero a then NaN else inf (Qnegative a))
      else fin (a / b)
  | Fin _, (PInf | NInf) => Fin 0
  | (PInf | NInf), (PInf | NInf) => NaN
  | PInf, Fin b => inf (Qnegative b)
  | NInf, Fin b => inf (negb (Qnegative b))
  end.

Definition abs (x : num) : num :=
  match x with
  | NaN => NaN
  | PInf | NInf => PInf
  | Fin q => fin (Qabs q)
  end.

(** Comparisons: every comparison with NaN is false. *)
Definition ltb (x y : num) : bool :=
  match x, y with
  | NaN, _ | _, NaN => false
  | _, NInf => false
  | PInf, _ => false
  | NInf, _ => true
  | Fin _, PInf => true
  | Fin a, Fin b => negb (Qle_bool b a)
  end.

Definition leb (x y : num) : bool :=
  match x, y with
  | NaN, _ | _, NaN => false
  | NInf, _ => true
  | _, PInf => true
  | _, NInf => false
  | PInf, _ => false
  | Fin a, Fin b => Qle_bool a b
  end.

Definition gtb (x y : num) : bool := ltb y x.
Definition geb (x y : num) : bool := leb y x.

(** Equality of the values denoted (the terms may differ in an unreduced
    fraction); NaN equals nothing. *)
Definition eqb (x y : num) : bool :=
  match x, y with
  | PInf, PInf | NInf, NInf => true
  | Fin a, Fin b => Qeq_bool a b
  | _, _ => false
  end.

End Num.

Declare Scope num_scope.
Delimit Scope num_scope with num.
Bind Scope num_scope with num.
Infix "+" := Num.add : num_scope.
Infix "-" := Num.sub : num_scope.
Infix "*" := Num.mul : num_scope.
Infix "/" := Num.div : num_scope.
Notation "- x" := (Num.neg x) : num_scope.
Infix "<?" := Num.ltb : num_scope.
Infix "<=?" := Num.leb : num_scope.
Infix ">?" := Num.gtb : num_scope.
Infix ">=?" := Num.geb : num_scope.

(** ** Python exceptions *)

Inductive exn : Type := IndexError | KeyError | TypeError.

Inductive result (A : Type) : Type :=
| Ok (a : A)
| Raise (e : exn).
Arguments Ok {A} a.
Arguments Raise {A} e.

#[global] Instance result_ret : MRet result := fun _ a => Ok a.
#[global] Instance result_bind : MBind result := fun _ _ f m =>
  match m with
  | Ok a => f a
  | Raise e => Raise e
  end.

(** ** pandas: the column operations the analyzer uses

    A column ([pd.Series]) is the list of its values, oldest bar first. *)

Module pd.

Abbreviation Series := (list num).

(** [s.iloc[i]]: a negative position counts from the end; a position outside
    the column raises IndexError. *)
Definition iloc (s : Series) (i : Z) : result num :=
  let n := Z.of_nat (length s) in
  let j := if (i <? 0)%Z then n + i else i in
  if (0 <=? j) && (j <? n)
  then match s !! Z.to_nat j with
       | Some x => Ok x
       | None => Raise IndexError
       end
  else Raise IndexError.

Definition sum (s : Series) : num := foldr Num.add (Fin 0) s.

(** The last [w] values of a column. *)
Definition tail (w : nat) (s : Series) : Series := drop (length s - w) s.

Definition mean (s : Series) : num := (sum s / Num.of_nat (length s))%num.

(** One cell of [s.rolling(window=w).mean()], from the column up to and
    including that bar: NaN until [w] bars are there ([min_periods] defaults
    to the window), and NaN when the window holds a NaN. *)
Definition window_mean (w : nat) (upto : Series) : num :=
  if (length upto <? w)%nat then NaN else mean (tail w upto).

(** A rolling column: each cell is computed from the bars up to it. *)
Definition rolling (cell : Series -> num) (s : Series) : Series :=
  (fun i => cell (take (S i) s)) <$> seq 0 (length s).

Definition rolling_mean (w : nat) (s : Series) : Series :=
  rolling (window_mean w) s.

(** [s.diff()]: the first cell has no predecessor and is NaN. *)
Fixpoint diff_from (prev : num) (s : Series) : Series :=
  match s with
  | [] => []
  | x :: s' => (x - prev)%num :: diff_from x s'
  end.

Definition diff (s : Series) : Series :=
  match s with
  | [] => []
  | x :: s' => NaN :: diff_from x s'
  end.

(** [s.shift(1)]: every value moves one bar later, the first cell is NaN. *)
Definition shift1 (s : Series) : Series :=
  match s with
  | [] => []
  | _ :: _ => NaN :: removelast s
  end.

(** [s.where(cond, other)]: keeps the cells where [cond] holds. *)
Definition where_ (cond : num -> bool) (other : num) (s : Series) : Series :=
  (fun x => if cond x then x else other) <$> s.

(** [s.ewm(span=span, adjust=False).mean()]: seeded with the first value,
    then y_t = (1 - alpha) y_(t-1) + alpha x_t with alpha = 2 / (span + 1).
    (On a NaN cell pandas carries the last mean over and re-weights; closes
    are never NaN and that rule is not modelled.) *)
Definition alpha (span : nat) : num := (Num.of_Z 2 / Num.of_nat (span + 1))%num.

Fixpoint ewm_from (a : num) (prev : num) (s : Series) : Series :=
  match s with
  | [] => []
  | x :: s' =>
      let y := ((Num.of_Z 1 - a) * prev + a * x)%num in
      y :: ewm_from a y s'
  end.

Definition ewm_mean (span : nat) (s : Series) : Series :=
  match s with
  | [] => []
  | x :: s' => x :: ewm_from (alpha span) x s'
  end.

(** [pd.concat([..], axis=1).max(axis=1)] on one row: the largest value,
    NaN cells skipped; NaN only when every cell is NaN. *)
Definition max2 (x y : num) : num :=
  match x, y with
  | NaN, _ => y
  | _, NaN => x
  | _, _ => if (x <? y)%num then y else x
  end.

Definition row_max (row : list num) : num := foldr max2 NaN row.

Section Std.
(** The square root of a non-negative rational, which the rationals are not
    closed under, is a parameter of the model. *)
Variable Qsqrt : Q -> Q.

Definition sqrt (x : num) : num :=
  match x with
  | NaN | NInf => NaN
  | PInf => PInf
  | Fin q => if Num.Qnegative q then NaN else Num.fin (Qsqrt q)
  end.

(** One cell of [s.rolling(window=w).std()]: the sample standard deviation
    (pandas' default, one degree of freedom removed). *)
Definition window_std (w : nat) (upto : Series) : num :=
  if (length upto <? w)%nat then NaN
  else
    let win := tail w upto in
    let m := mean win in
    let sq := (fun x => ((x - m) * (x - m))%num) <$> win in
    sqrt (sum sq / Num.of_nat (w - 1))%num.

Definition rolling_std (w : nat) (s : Series) : Series :=
  rolling (window_std w) s.

End Std.

End pd.

(** ** config.py *)

Module config.

Record TechnicalConfig : Type := {
  lookback_days : nat;
  rsi_period : nat;
  macd_fast : nat;
  macd_slow : nat;
  macd_signal : nat;
  bb_period : nat;
  bb_std : num;
  volume_ma_period : nat;
  ma_periods : list nat
}.

Definition TECHNICAL_CONFIG : TechnicalConfig := {|
  lookback_days := 90;
  rsi_period := 14;
  macd_fast := 12;
  macd_slow := 26;
  macd_signal := 9;
  bb_period := 20;
  bb_std := Num.of_Z 2;
  volume_ma_period := 20;
  ma_periods := [5; 10; 20; 50]%nat
|}.

Record ScoringConfig : Type := {
  technical_weight : num;
  sentiment_weight : num
}.

Definition SCORING_CONFIG : ScoringConfig := {|
  technical_weight := Fin (6 # 10);
  sentiment_weight := Fin (4 # 10)
|}.

Record SignalThresholds : Type := {
  strong_buy : num;
  buy : num;
  sell : num;
  strong_sell : num
}.

Definition SIGNAL_THRESHOLDS : SignalThresholds := {|
  strong_buy := Num.of_Z 60;
  buy := Num.of_Z 30;
  sell := Num.of_Z (-30);
  strong_sell := Num.of_Z (-60)
|}.

Record RiskConfig : Type := {
  stop_loss_pct : num;
  atr_period : nat;
  atr_multiplier : num
}.

Definition RISK_CONFIG : RiskConfig := {|
  stop_loss_pct := Fin (3 # 100);
  atr_period := 14;
  atr_multiplier := Num.of_Z 2
|}.

End config.

Import config (TechnicalConfig, TECHNICAL_CONFIG, SCORING_CONFIG, SIGNAL_THRESHOLDS, RISK_CONFIG).

(** ** technical_analysis.py: class TechnicalAnalyzer *)

(** One row of the OHLCV frame. *)
Record PriceBar : Type := {
  Open : num;
  High : num;
  Low : num;
  Close : num;
  Volume : num
}.

(** A value of the [indicators] dictionary: a number or a label. *)
Inductive value : Type :=
| VNum (x : num)
| VStr (s : string).

(** The analyzer: the frame it was given ([df]), the columns it has added to
    it, and its two dictionaries. *)
Record TechnicalAnalyzer : Type := {
  df : list PriceBar;
  columns : gmap string pd.Series;
  indicators : gmap string value;
  signals : gmap string string
}.

(** [TechnicalAnalyzer(df)] *)
Definition init (bars : list PriceBar) : TechnicalAnalyzer :=
  {| df := bars; columns := ∅; indicators := ∅; signals := ∅ |}.

(** [self.df[name] = s] *)
Definition set_column (name : string) (s : pd.Series) (self : TechnicalAnalyzer)
  : TechnicalAnalyzer :=
  {| df := df self; columns := <[name := s]> (columns self);
     indicators := indicators self; signals := signals self |}.

(** [self.indicators[key] = v] *)
Definition set_indicator (key : string) (v : value) (self : TechnicalAnalyzer)
  : TechnicalAnalyzer :=
  {| df := df self; columns := columns self;
     indicators := <[key := v]> (indicators self); signals := signals self |}.

(** [self.signals[key] = label] *)
Definition set_signal (key : string) (label : string) (self : TechnicalAnalyzer)
  : TechnicalAnalyzer :=
  {| df := df self; columns := columns self;
     indicators := indicators self; signals := <[key := label]> (signals self) |}.

(** [self.df[name]] for a column the analyzer added: KeyError when absent. *)
Definition get_column (name : string) (self : TechnicalAnalyzer) : result pd.Series :=
  match columns self !! name with
  | Some s => Ok s
  | None => Raise KeyError
  end.

(** [f'MA{period}'] *)
Definition MA_name (period : nat) : string :=
  "MA" +:+ NilEmpty.string_of_uint (Nat.to_uint period).

(** [all(v[i] > v[i+1] for i in range(len(v)-1))], for a comparison [cmp]. *)
Fixpoint all_adjacent (cmp : num -> num -> bool) (v : list num) : bool :=
  match v with
  | x :: (y :: _) as v' => cmp x y && all_adjacent cmp v'
  | _ => true
  end.

(** The crossover rule shared by the moving averages and the MACD. *)
Definition cross_label (fast_prev slow_prev fast_curr slow_curr : num) : string :=
  if (fast_prev <=? slow_prev)%num && (fast_curr >? slow_curr)%num then "golden_cross"
  else if (fast_prev >=? slow_prev)%num && (fast_curr <? slow_curr)%num then "death_cross"
  else "none".

Definition calculate_ma (self : TechnicalAnalyzer) : result TechnicalAnalyzer :=
  let self :=
    foldl (fun self period =>
             set_column (MA_name period)
               (pd.rolling_mean period (Close <$> df self)) self)
          self (config.ma_periods TECHNICAL_CONFIG) in
  ma_values ← mapM (fun p => s ← get_column (MA_name p) self; pd.iloc s (-1))
                   (config.ma_periods TECHNICAL_CONFIG);
  let is_bullish := all_adjacent Num.gtb ma_values in
  let is_bearish := all_adjacent Num.ltb ma_values in
  let self :=
    set_indicator "ma_alignment"
      (VStr (if is_bullish then "bullish"
             else if is_bearish then "bearish" else "mixed")) self in
  if (2 <=? length (df self))%nat then
    ma5_curr ← (s ← get_column "MA5" self; pd.iloc s (-1));
    ma5_prev ← (s ← get_column "MA5" self; pd.iloc s (-2));
    ma20_curr ← (s ← get_column "MA20" self; pd.iloc s (-1));
    ma20_prev ← (s ← get_column "MA20" self; pd.iloc s (-2));
    mret (set_signal "ma_cross" (cross_label ma5_prev ma20_prev ma5_curr ma20_curr) self)
  else mret self.

(** The RSI of one bar from its average gain and loss:
    [rs = gain / loss; 100 - (100 / (1 + rs))]. *)
Definition rsi_of (gain loss : num) : num :=
  let rs := (gain / loss)%num in
  (Num.of_Z 100 - Num.of_Z 100 / (Num.of_Z 1 + rs))%num.

(** The two rolling averages of [calculate_rsi]: the rises and the falls of
    the close, the other cells replaced by 0. *)
Definition gains (close : pd.Series) : pd.Series :=
  pd.where_ (fun d => (d >? Num.of_Z 0)%num) (Num.of_Z 0) (pd.diff close).

Definition losses (close : pd.Series) : pd.Series :=
  Num.neg <$> pd.where_ (fun d => (d <? Num.of_Z 0)%num) (Num.of_Z 0) (pd.diff close).

Definition rsi_gain (period : nat) (close : pd.Series) : pd.Series :=
  pd.rolling_mean period (gains close).

Definition rsi_loss (period : nat) (close : pd.Series) : pd.Series :=
  pd.rolling_mean period (losses close).

Definition rsi_label (current_rsi : num) : string :=
  if (current_rsi >? Num.of_Z 70)%num then "overbought"
  else if (current_rsi <? Num.of_Z 30)%num then "oversold"
  else "neutral".

Definition calculate_rsi (self : TechnicalAnalyzer) : result TechnicalAnalyzer :=
  let period := config.rsi_period TECHNICAL_CONFIG in
  let gain := rsi_gain period (Close <$> df self) in
  let loss := rsi_loss period (Close <$> df self) in
  let RSI := zip_with rsi_of gain loss in
  let self := set_column "RSI" RSI self in
  current_rsi ← pd.iloc RSI (-1);
  let self := set_indicator "rsi" (VNum current_rsi) self in
  mret (set_signal "rsi" (rsi_label current_rsi) self).

Definition calculate_macd (self : TechnicalAnalyzer) : result TechnicalAnalyzer :=
  let fast := config.macd_fast TECHNICAL_CONFIG in
  let slow := config.macd_slow TECHNICAL_CONFIG in
  let signal := config.macd_signal TECHNICAL_CONFIG in
  let ema_fast := pd.ewm_mean fast (Close <$> df self) in
  let ema_slow := pd.ewm_mean slow (Close <$> df self) in
  let MACD := zip_with Num.sub ema_fast ema_slow in
  let MACD_Signal := pd.ewm_mean signal MACD in
  let MACD_Hist := zip_with Num.sub MACD MACD_Signal in
  let self := set_column "MACD" MACD self in
  let self := set_column "MACD_Signal" MACD_Signal self in
  let self := set_column "MACD_Hist" MACD_Hist self in
  if (2 <=? length (df self))%nat then
    macd_curr ← pd.iloc MACD (-1);
    macd_prev ← pd.iloc MACD (-2);
    signal_curr ← pd.iloc MACD_Signal (-1);
    signal_prev ← pd.iloc MACD_Signal (-2);
    let self := set_signal "macd" (cross_label macd_prev signal_prev macd_curr signal_curr) self in
    let self := set_indicator "macd_value" (VNum macd_curr) self in
    let self := set_indicator "macd_signal" (VNum signal_curr) self in
    hist ← pd.iloc MACD_Hist (-1);
    mret (set_indicator "macd_hist" (VNum hist) self)
  else mret self.

(** Line 133: [(current_price - bb_lower) / (bb_upper - bb_lower) * 100]. *)
Definition bb_position_of (current_price bb_upper bb_lower : num) : num :=
  ((current_price - bb_lower) / (bb_upper - bb_lower) * Num.of_Z 100)%num.

Definition bollinger_label (current_price bb_upper bb_lower : num) : string :=
  if (current_price >? bb_upper)%num then "above_upper"
  else if (current_price <? bb_lower)%num then "below_lower"
  else "within_bands".

Definition volume_label (volume_ratio : num) : string :=
  if (volume_ratio >? Fin (3 # 2))%num then "high"
  else if (volume_ratio <? Fin (1 # 2))%num then "low"
  else "normal".

Definition calculate_volume_indicators (self : TechnicalAnalyzer)
  : result TechnicalAnalyzer :=
  let period := config.volume_ma_period TECHNICAL_CONFIG in
  let Volume_MA := pd.rolling_mean period (Volume <$> df self) in
  let self := set_column "Volume_MA" Volume_MA self in
  current_volume ← pd.iloc (Volume <$> df self) (-1);
  avg_volume ← pd.iloc Volume_MA (-1);
  let volume_ratio :=
    if (avg_volume >? Num.of_Z 0)%num then (current_volume / avg_volume)%num
    else Num.of_Z 1 in
  let self := set_indicator "volume_ratio" (VNum volume_ratio) self in
  mret (set_signal "volume" (volume_label volume_ratio) self).

(** The true range column: [high - low], [abs(high - close.shift(1))] and
    [abs(low - close.shift(1))], and the largest of the three on each row. *)
Definition true_range (bars : list PriceBar) : pd.Series :=
  let high := High <$> bars in
  let low := Low <$> bars in
  let close := pd.shift1 (Close <$> bars) in
  let tr1 := zip_with Num.sub high low in
  let tr2 := Num.abs <$> zip_with Num.sub high close in
  let tr3 := Num.abs <$> zip_with Num.sub low close in
  zip_with (fun a bc => pd.row_max [a; bc.1; bc.2]) tr1 (zip tr2 tr3).

(** The ATR period is read from [TECHNICAL_CONFIG["rsi_period"]], as in the
    source. *)
Definition calculate_atr (self : TechnicalAnalyzer) : result TechnicalAnalyzer :=
  let period := config.rsi_period TECHNICAL_CONFIG in
  let tr := true_range (df self) in
  let ATR := pd.rolling_mean period tr in
  let self := set_column "ATR" ATR self in
  atr ← pd.iloc ATR (-1);
  mret (set_indicator "atr" (VNum atr) self).

Section Engine.
Variable Qsqrt : Q -> Q.

Definition calculate_bollinger_bands (self : TechnicalAnalyzer)
  : result TechnicalAnalyzer :=
  let period := config.bb_period TECHNICAL_CONFIG in
  let std_dev := config.bb_std TECHNICAL_CONFIG in
  let BB_Middle := pd.rolling_mean period (Close <$> df self) in
  let bb_std := pd.rolling_std Qsqrt period (Close <$> df self) in
  let BB_Upper := zip_with (fun m s => (m + s * std_dev)%num) BB_Middle bb_std in
  let BB_Lower := zip_with (fun m s => (m - s * std_dev)%num) BB_Middle bb_std in
  let self := set_column "BB_Middle" BB_Middle self in
  let self := set_column "BB_Upper" BB_Upper self in
  let self := set_column "BB_Lower" BB_Lower self in
  current_price ← pd.iloc (Close <$> df self) (-1);
  bb_upper ← pd.iloc BB_Upper (-1);
  bb_middle ← pd.iloc BB_Middle (-1);
  bb_lower ← pd.iloc BB_Lower (-1);
  let self := set_indicator "bb_upper" (VNum bb_upper) self in
  let self := set_indicator "bb_middle" (VNum bb_middle) self in
  let self := set_indicator "bb_lower" (VNum bb_lower) self in
  let bb_position := bb_position_of current_price bb_upper bb_lower in
  let self := set_indicator "bb_position" (VNum bb_position) self in
  mret (set_signal "bollinger" (bollinger_label current_price bb_upper bb_lower) self).

Definition calculate_all (self : TechnicalAnalyzer) : result TechnicalAnalyzer :=
  self ← calculate_ma self;
  self ← calculate_rsi self;
  self ← calculate_macd self;
  self ← calculate_bollinger_bands self;
  self ← calculate_volume_indicators self;
  calculate_atr self.

End Engine.

(** *** get_trend_score *)

(** [d.get(key) == label] on the [indicators] dictionary: a missing entry
    (None) or a number is not equal to a label. *)
Definition indicator_is (self : TechnicalAnalyzer) (key label : string) : bool :=
  match indicators self !! key with
  | Some (VStr s) => bool_decide (s = label)
  | _ => false
  end.

(** [self.signals.get(key) == label] *)
Definition signal_is (self : TechnicalAnalyzer) (key label : string) : bool :=
  match signals self !! key with
  | Some s => bool_decide (s = label)
  | None => false
  end.

(** [self.indicators.get(key, default)] read as a number: ordering a label
    against a number raises TypeError. *)
Definition indicator_num (self : TechnicalAnalyzer) (key : string) (default : num)
  : result num :=
  match indicators self !! key with
  | None => Ok default
  | Some (VNum x) => Ok x
  | Some (VStr _) => Raise TypeError
  end.

Definition get_trend_score (self : TechnicalAnalyzer) : result Z :=
  let score := 0 in
  let score :=
    if indicator_is self "ma_alignment" "bullish" then score + 30
    else if indicator_is self "ma_alignment" "bearish" then score - 30
    else score in
  let score :=
    if signal_is self "ma_cross" "golden_cross" then score + 20
    else if signal_is self "ma_cross" "death_cross" then score - 20
    else score in
  score ←
    (if signal_is self "macd" "golden_cross" then mret (score + 20)
     else if signal_is self "macd" "death_cross" then mret (score - 20)
     else
       hist ← indicator_num self "macd_hist" (Num.of_Z 0);
       if (hist >? Num.of_Z 0)%num then mret (score + 10)
       else
         hist ← indicator_num self "macd_hist" (Num.of_Z 0);
         if (hist <? Num.of_Z 0)%num then mret (score - 10)
         else mret score);
  rsi ← indicator_num self "rsi" (Num.of_Z 50);
  let score :=
    if (rsi >? Num.of_Z 70)%num then score - 15
    else if (rsi <? Num.of_Z 30)%num then score + 15
    else if (Num.of_Z 40 <=? rsi)%num && (rsi <=? Num.of_Z 60)%num then score + 5
    else score in
  let score :=
    if signal_is self "bollinger" "below_lower" then score + 10
    else if signal_is self "bollinger" "above_upper" then score - 10
    else score in
  let score :=
    if signal_is self "volume" "high" then
      (if score >? 0 then score + 5 else score - 5)
    else score in
  mret (Z.max (-100) (Z.min 100 score)).

(** ** signal_generator.py: class SignalGenerator

    The price and the ATR reach the generator as [numpy.float64] scalars
    (see [analyze] below), so a division by zero gives an infinity or NaN
    and raises nothing. *)

Record SignalGenerator : Type := {
  technical_score : num;
  sentiment_score : num;
  current_price : num;
  atr : num;
  composite_score : num
}.

(** [SignalGenerator(technical_score, sentiment_score, current_price, atr)] *)
Definition SignalGenerator_init (technical_score sentiment_score current_price atr : num)
  : SignalGenerator :=
  {| technical_score := technical_score;
     sentiment_score := sentiment_score;
     current_price := current_price;
     atr := atr;
     composite_score :=
       (technical_score * config.technical_weight SCORING_CONFIG
        + sentiment_score * config.sentiment_weight SCORING_CONFIG)%num |}.

(** [round(x, 2)]: to the nearest hundredth, a tie to the even one. *)
Definition round_half_even (q : Q) : Z :=
  let f := Qfloor q in
  match (q - inject_Z f ?= 1 # 2)%Q with
  | Lt => f
  | Gt => f + 1
  | Eq => if Z.even f then f else f + 1
  end.

Definition round2 (x : num) : num :=
  match x with
  | Fin q => Num.fin (inject_Z (round_half_even (q * 100)) / 100)
  | _ => x
  end.

(** The five signal categories.  The source names them by their labels:
    强烈买入 (strong buy), 买入 (buy), 持有 (hold), 卖出 (sell) and
    强烈卖出 (strong sell). *)
Inductive Signal : Type := StrongSell | Sell | Hold | Buy | StrongBuy.

(** The threshold bands of [generate_signal], evaluated from the top down. *)
Definition signal_band (th : config.SignalThresholds) (score : num) : Signal :=
  if (score >? config.strong_buy th)%num then StrongBuy
  else if (score >? config.buy th)%num then Buy
  else if (score >? config.sell th)%num then Hold
  else if (score >? config.strong_sell th)%num then Sell
  else StrongSell.

Definition signal_text (s : Signal) : string :=
  match s with
  | StrongBuy => "强烈买入"
  | Buy => "买入"
  | Hold => "持有"
  | Sell => "卖出"
  | StrongSell => "强烈卖出"
  end.

Definition signal_emoji_text (s : Signal) : string :=
  match s with
  | StrongBuy => "🟢🟢"
  | Buy => "🟢"
  | Hold => "🟡"
  | Sell => "🔴"
  | StrongSell => "🔴🔴"
  end.

Definition action_text (s : Signal) : string :=
  match s with
  | StrongBuy => "建议积极建仓或加仓"
  | Buy => "可考虑建仓或小幅加仓"
  | Hold => "维持现有仓位，观望为主"
  | Sell => "建议减仓或离场观望"
  | StrongSell => "建议清仓离场"
  end.

Definition color_text (s : Signal) : string :=
  match s with
  | StrongBuy | Buy => "green"
  | Hold => "yellow"
  | Sell | StrongSell => "red"
  end.

(** The dictionary [generate_signal] returns. *)
Record SignalInfo : Type := {
  signal : string;
  signal_emoji : string;
  action : string;
  color : string;
  info_composite_score : num;
  info_technical_score : num;
  info_sentiment_score : num
}.

Definition generate_signal (self : SignalGenerator) : SignalInfo :=
  let score := composite_score self in
  let band := signal_band SIGNAL_THRESHOLDS score in
  {| signal := signal_text band;
     signal_emoji := signal_emoji_text band;
     action := action_text band;
     color := color_text band;
     info_composite_score := round2 score;
     info_technical_score := round2 (technical_score self);
     info_sentiment_score := round2 (sentiment_score self) |}.

(** The two stop-loss methods; the source labels them "ATR" and
    固定百分比 (fixed percentage). *)
Inductive StopLossMethod : Type := ATR | fixed_pct.

Definition stop_loss_method_text (m : StopLossMethod) : string :=
  match m with
  | ATR => "ATR"
  | fixed_pct => "固定百分比"
  end.

(** The local variables of [calculate_risk_metrics], before the final
    [round(_, 2)] of the returned dictionary. *)
Record RiskLocals : Type := {
  atr_stop_loss : num;
  atr_stop_loss_pct : num;
  pct_stop_loss : num;
  pct_stop_loss_pct : num;
  stop_loss : num;
  stop_loss_pct : num;
  stop_loss_method : StopLossMethod;
  risk_amount : num;
  target_price : num;
  target_pct : num;
  volatility_pct : num;
  volatility_level : string;
  risk_level : string;
  position_suggestion : string
}.

Definition risk_locals (self : SignalGenerator) : RiskLocals :=
  let atr_stop_loss :=
    (current_price self - atr self * config.atr_multiplier RISK_CONFIG)%num in
  let atr_stop_loss_pct :=
    ((current_price self - atr_stop_loss) / current_price self * Num.of_Z 100)%num in
  let pct_stop_loss :=
    (current_price self * (Num.of_Z 1 - config.stop_loss_pct RISK_CONFIG))%num in
  let pct_stop_loss_pct := (config.stop_loss_pct RISK_CONFIG * Num.of_Z 100)%num in
  let '(stop_loss, stop_loss_pct, stop_loss_method) :=
    if (atr_stop_loss >? pct_stop_loss)%num
    then (atr_stop_loss, atr_stop_loss_pct, ATR)
    else (pct_stop_loss, pct_stop_loss_pct, fixed_pct) in
  let risk_amount := (current_price self - stop_loss)%num in
  let target_price := (current_price self + risk_amount * Num.of_Z 2)%num in
  let target_pct :=
    ((target_price - current_price self) / current_price self * Num.of_Z 100)%num in
  let volatility_pct := (atr self / current_price self * Num.of_Z 100)%num in
  let level :=
    if (volatility_pct <? Num.of_Z 1)%num then "低"
    else if (volatility_pct <? Num.of_Z 2)%num then "中"
    else "高" in
  let position_suggestion :=
    if (composite_score self >? Num.of_Z 60)%num then "40-50%"
    else if (composite_score self >? Num.of_Z 30)%num then "30-40%"
    else if (composite_score self >? Num.of_Z 0)%num then "20-30%"
    else if (composite_score self >? Num.of_Z (-30))%num then "10-20%"
    else "0-10%" in
  {| atr_stop_loss := atr_stop_loss;
     atr_stop_loss_pct := atr_stop_loss_pct;
     pct_stop_loss := pct_stop_loss;
     pct_stop_loss_pct := pct_stop_loss_pct;
     stop_loss := stop_loss;
     stop_loss_pct := stop_loss_pct;
     stop_loss_method := stop_loss_method;
     risk_amount := risk_amount;
     target_price := target_price;
     target_pct := target_pct;
     volatility_pct := volatility_pct;
     volatility_level := level;
     risk_level := level;
     position_suggestion := position_suggestion |}.

(** The dictionary [calculate_risk_metrics] returns. *)
Record RiskMetrics : Type := {
  rm_stop_loss : num;
  rm_stop_loss_pct : num;
  rm_stop_loss_method : string;
  rm_target_price : num;
  rm_target_pct : num;
  rm_volatility_pct : num;
  rm_volatility_level : string;
  rm_risk_level : string;
  rm_position_suggestion : string;
  rm_risk_reward_ratio : string
}.

Definition calculate_risk_metrics (self : SignalGenerator) : RiskMetrics :=
  let l := risk_locals self in
  {| rm_stop_loss := round2 (stop_loss l);
     rm_stop_loss_pct := round2 (stop_loss_pct l);
     rm_stop_loss_method := stop_loss_method_text (stop_loss_method l);
     rm_target_price := round2 (target_price l);
     rm_target_pct := round2 (target_pct l);
     rm_volatility_pct := round2 (volatility_pct l);
     rm_volatility_level := volatility_level l;
     rm_risk_level := risk_level l;
     rm_position_suggestion := position_suggestion l;
     rm_risk_reward_ratio := "1:2" |}.

(** ** The claims' own notions *)

(** The rubric of the trend scorer, one contribution per clause. *)
Definition ma_alignment_points (self : TechnicalAnalyzer) : Z :=
  if indicator_is self "ma_alignment" "bullish" then 30
  else if indicator_is self "ma_alignment" "bearish" then -30
  else 0.

Definition ma_cross_points (self : TechnicalAnalyzer) : Z :=
  if signal_is self "ma_cross" "golden_cross" then 20
  else if signal_is self "ma_cross" "death_cross" then -20
  else 0.

Definition macd_points (self : TechnicalAnalyzer) : result Z :=
  if signal_is self "macd" "golden_cross" then Ok 20
  else if signal_is self "macd" "death_cross" then Ok (-20)
  else
    hist ← indicator_num self "macd_hist" (Num.of_Z 0);
    mret (if (hist >? Num.of_Z 0)%num then 10
          else if (hist <? Num.of_Z 0)%num then -10
          else 0).

Definition rsi_points (self : TechnicalAnalyzer) : result Z :=
  rsi ← indicator_num self "rsi" (Num.of_Z 50);
  mret (if (rsi >? Num.of_Z 70)%num then -15
        else if (rsi <? Num.of_Z 30)%num then 15
        else if (Num.of_Z 40 <=? rsi)%num && (rsi <=? Num.of_Z 60)%num then 5
        else 0).

Definition bollinger_points (self : TechnicalAnalyzer) : Z :=
  if signal_is self "bollinger" "below_lower" then 10
  else if signal_is self "bollinger" "above_upper" then -10
  else 0.

(** The running total before the volume clause. *)
Definition pre_volume_total (self : TechnicalAnalyzer) : result Z :=
  m ← macd_points self;
  r ← rsi_points self;
  mret (ma_alignment_points self + ma_cross_points self + m + r
        + bollinger_points self).

(** The volume clause, from the running total it reads. *)
Definition volume_points (self : TechnicalAnalyzer) (running : Z) : Z :=
  if signal_is self "volume" "high" then (if running >? 0 then 5 else -5)
  else 0.

Definition clip (score : Z) : Z := Z.max (-100) (Z.min 100 score).

(** The numeric entries the scorer orders against a number hold numbers
    (or are missing), as in every dictionary the analyzer builds. *)
Definition is_label (o : option value) : bool :=
  match o with Some (VStr _) => true | _ => false end.

Definition numeric_entries (self : TechnicalAnalyzer) : Prop :=
  is_label (indicators self !! "rsi") = false
  /\ is_label (indicators self !! "macd_hist") = false.

(** The strength of a signal category: strong-sell < sell < hold < buy <
    strong-buy. *)
Definition strength (s : Signal) : Z :=
  match s with
  | StrongSell => 0
  | Sell => 1
  | Hold => 2
  | Buy => 3
  | StrongBuy => 4
  end.

Definition strictly_ordered (th : config.SignalThresholds) : Prop :=
  (config.strong_sell th <? config.sell th)%num = true
  /\ (config.sell th <? config.buy th)%num = true
  /\ (config.buy th <? config.strong_buy th)%num = true.

(** The moving-average crossover rule of the specification, for a shorter
    and a longer window: the two averages one bar ago and now. *)
Definition sma (w : nat) (close : pd.Series) (bars_ago : nat) : num :=
  pd.window_mean w (take (length close - bars_ago) close).

Definition ma_crossover (short long : nat) (close : pd.Series) : string :=
  if (sma short close 1 <=? sma long close 1)%num
     && (sma short close 0 >? sma long close 0)%num then "golden_cross"
  else if (sma short close 1 >=? sma long close 1)%num
          && (sma short close 0 <? sma long close 0)%num then "death_cross"
  else "none".

(** A flat series: every bar has high = low = close = [p]. *)
Definition flat_at (p : Q) (bars : list PriceBar) : Prop :=
  Forall (fun b => High b = Fin p /\ Low b = Fin p /\ Close b = Fin p) bars.

(** A strictly rising column of finite values. *)
Fixpoint strictly_rising (s : pd.Series) : Prop :=
  match s with
  | x :: ((y :: _) as s') =>
      Num.is_finite x = true /\ (x <? y)%num = true /\ strictly_rising s'
  | [x] => Num.is_finite x = true
  | [] => True
  end.

(** A square root for concrete runs: exact on the squares of rationals
    (in particular on 0), truncated otherwise. *)
Definition Qsqrt_trunc (q : Q) : Q := Z.sqrt (Qnum q) # Pos.sqrt (Qden q).

(** ** Definitions and tactics of the proofs *)


(** An indicator set on which every clause fires upwards. *)
Definition all_bullish : TechnicalAnalyzer := {|
  df := [];
  columns := ∅;
  indicators := <["ma_alignment" := VStr "bullish"]>
                  (<["rsi" := VNum (Num.of_Z 25)]> ∅);
  signals := <["ma_cross" := "golden_cross"]>
               (<["macd" := "golden_cross"]>
                  (<["bollinger" := "below_lower"]>
                     (<["volume" := "high"]> ∅)))
|}.

(** ** The values the analyzer reports at the last bar *)

(** The moving averages at the last bar, shortest window first. *)
Definition ma_values (close : pd.Series) : list num :=
  (fun p => pd.window_mean p close) <$> config.ma_periods TECHNICAL_CONFIG.

Definition ma_alignment_label (close : pd.Series) : string :=
  if all_adjacent Num.gtb (ma_values close) then "bullish"
  else if all_adjacent Num.ltb (ma_values close) then "bearish"
  else "mixed".

Definition current_rsi (close : pd.Series) : num :=
  rsi_of (pd.window_mean (config.rsi_period TECHNICAL_CONFIG) (gains close))
         (pd.window_mean (config.rsi_period TECHNICAL_CONFIG) (losses close)).

Definition current_atr (bars : list PriceBar) : num :=
  pd.window_mean (config.rsi_period TECHNICAL_CONFIG) (true_range bars).

Definition current_volume_ratio (volume : pd.Series) (current_volume : num) : num :=
  let avg_volume := pd.window_mean (config.volume_ma_period TECHNICAL_CONFIG) volume in
  if (avg_volume >? Num.of_Z 0)%num then (current_volume / avg_volume)%num
  else Num.of_Z 1.

(** Looking a literal key up in a dictionary built by literal insertions. *)
Ltac map_lookup :=
  repeat first [rewrite lookup_insert_eq | rewrite lookup_insert_ne by done].

(** What a computation of the analyzer leaves: the frame untouched, and the
    two dictionaries updated. *)
Definition leaves (r : result TechnicalAnalyzer) (self : TechnicalAnalyzer)
  (ind : gmap string value) (sig : gmap string string) : Prop :=
  exists self', r = Ok self' /\ df self' = df self
                /\ indicators self' = ind /\ signals self' = sig.

(** The rule as the specification words it: the two shortest configured
    windows. *)
Definition two_shortest_crossover (close : pd.Series) : string :=
  match config.ma_periods TECHNICAL_CONFIG with
  | short :: long :: _ => ma_crossover short long close
  | _ => "none"
  end.

Definition bar_at (c : Z) : PriceBar :=
  {| Open := Num.of_Z c; High := Num.of_Z c; Low := Num.of_Z c;
     Close := Num.of_Z c; Volume := Num.of_Z 1000 |}.

(** Ten bars at 30, ten at 10 and a last one at 20: the 5-bar average
    crosses above the 10-bar one at the last bar and stays below the 20-bar
    one. *)
Definition crossing_bars : list PriceBar :=
  replicate 10 (bar_at 30) ++ replicate 10 (bar_at 10) ++ [bar_at 20].

Definition nonneg (x : num) : Prop := exists q, x = Fin q /\ (0 <= q)%Q.
Definition positive_ (x : num) : Prop := exists q, x = Fin q /\ (0 < q)%Q.

(** Fourteen bars rising by 1 from 100. *)
Definition rising_bars : list PriceBar :=
  (fun i => bar_at (100 + Z.of_nat i)) <$> seq 0 14.

(** What C5 promises of [calculate_rsi]: it returns, the RSI is 100 and its
    signal is overbought. *)
Definition rsi_is_100 (self : TechnicalAnalyzer) : Prop :=
  exists self',
    calculate_rsi self = Ok self'
    /\ indicators self' !! "rsi" = Some (VNum (Num.of_Z 100))
    /\ signals self' !! "rsi" = Some "overbought".

(** The true range of one bar, from the previous close (NaN at the first
    bar), and the column bar by bar. *)
Definition tr_row (prev_close : num) (b : PriceBar) : num :=
  pd.row_max [(High b - Low b)%num;
              Num.abs (High b - prev_close)%num;
              Num.abs (Low b - prev_close)%num].

Fixpoint tr_from (prev_close : num) (bars : list PriceBar) : pd.Series :=
  match bars with
  | [] => []
  | b :: bars' => tr_row prev_close b :: tr_from (Close b) bars'
  end.

(** Fourteen flat bars at 100. *)
Definition flat_bars : list PriceBar := replicate 14 (bar_at 100).

(** main.py, [analyze], steps 2 and 4: the analyzer is run on the frame and
    the signal generator is built from the trend score, the sentiment score
    (computed elsewhere), the last close and [indicators.get('atr', 0)]. *)
Definition get_current_price (self : TechnicalAnalyzer) : result num :=
  pd.iloc (Close <$> df self) (-1).

Definition analyze (Qsqrt : Q -> Q) (stock_data : list PriceBar) (sentiment_score : num)
  : result SignalGenerator :=
  technical_analyzer ← calculate_all Qsqrt (init stock_data);
  technical_score ← get_trend_score technical_analyzer;
  price ← get_current_price technical_analyzer;
  atr ← indicator_num technical_analyzer "atr" (Num.of_Z 0);
  mret (SignalGenerator_init (Num.of_Z technical_score) sentiment_score price atr).

(** The cell [k] bars from the end of a column ([k = 1] is the last one). *)
Definition from_end (k : nat) (s : pd.Series) : num :=
  default NaN (s !! (length s - k)%nat).

(** The MACD columns. *)
Definition MACD_line (close : pd.Series) : pd.Series :=
  zip_with Num.sub (pd.ewm_mean (config.macd_fast TECHNICAL_CONFIG) close)
                   (pd.ewm_mean (config.macd_slow TECHNICAL_CONFIG) close).

Definition MACD_signal_line (close : pd.Series) : pd.Series :=
  pd.ewm_mean (config.macd_signal TECHNICAL_CONFIG) (MACD_line close).

Definition MACD_hist_line (close : pd.Series) : pd.Series :=
  zip_with Num.sub (MACD_line close) (MACD_signal_line close).

(** What [calculate_macd] writes: nothing on a single bar. *)
Definition macd_indicators (close : pd.Series) (ind : gmap string value)
  : gmap string value :=
  if (2 <=? length close)%nat
  then <["macd_hist" := VNum (from_end 1 (MACD_hist_line close))]>
         (<["macd_signal" := VNum (from_end 1 (MACD_signal_line close))]>
            (<["macd_value" := VNum (from_end 1 (MACD_line close))]> ind))
  else ind.

Definition macd_signals (close : pd.Series) (sig : gmap string string)
  : gmap string string :=
  if (2 <=? length close)%nat
  then <["macd" := cross_label (from_end 2 (MACD_line close))
                               (from_end 2 (MACD_signal_line close))
                               (from_end 1 (MACD_line close))
                               (from_end 1 (MACD_signal_line close))]> sig
  else sig.

(** The Bollinger bands at the last bar. *)
Definition bb_middle_at (close : pd.Series) : num :=
  pd.window_mean (config.bb_period TECHNICAL_CONFIG) close.

Definition bb_std_at (Qsqrt : Q -> Q) (close : pd.Series) : num :=
  pd.window_std Qsqrt (config.bb_period TECHNICAL_CONFIG) close.

Definition bb_upper_at (Qsqrt : Q -> Q) (close : pd.Series) : num :=
  (bb_middle_at close + bb_std_at Qsqrt close * config.bb_std TECHNICAL_CONFIG)%num.

Definition bb_lower_at (Qsqrt : Q -> Q) (close : pd.Series) : num :=
  (bb_middle_at close - bb_std_at Qsqrt close * config.bb_std TECHNICAL_CONFIG)%num.

Definition bollinger_indicators (Qsqrt : Q -> Q) (close : pd.Series)
    (ind : gmap string value) : gmap string value :=
  <["bb_position" := VNum (bb_position_of (from_end 1 close)
                             (bb_upper_at Qsqrt close) (bb_lower_at Qsqrt close))]>
    (<["bb_lower" := VNum (bb_lower_at Qsqrt close)]>
       (<["bb_middle" := VNum (bb_middle_at close)]>
          (<["bb_upper" := VNum (bb_upper_at Qsqrt close)]> ind))).

(** Twenty flat bars at 100. *)
Definition flat_bars_20 : list PriceBar := replicate 20 (bar_at 100).

(** The two dictionaries after [calculate_all], from those before it. *)
Definition all_indicators (Qsqrt : Q -> Q) (bars : list PriceBar)
    (ind : gmap string value) : gmap string value :=
  <["atr" := VNum (current_atr bars)]>
    (<["volume_ratio" := VNum (current_volume_ratio (Volume <$> bars)
                                 (from_end 1 (Volume <$> bars)))]>
       (bollinger_indicators Qsqrt (Close <$> bars)
          (macd_indicators (Close <$> bars)
             (<["rsi" := VNum (current_rsi (Close <$> bars))]>
                (<["ma_alignment" := VStr (ma_alignment_label (Close <$> bars))]>
                   ind))))).

Definition all_signals (Qsqrt : Q -> Q) (bars : list PriceBar)
    (sig : gmap string string) : gmap string string :=
  <["volume" := volume_label (current_volume_ratio (Volume <$> bars)
                                (from_end 1 (Volume <$> bars)))]>
    (<["bollinger" := bollinger_label (from_end 1 (Close <$> bars))
                        (bb_upper_at Qsqrt (Close <$> bars))
                        (bb_lower_at Qsqrt (Close <$> bars))]>
       (macd_signals (Close <$> bars)
          (<["rsi" := rsi_label (current_rsi (Close <$> bars))]>
             (if (2 <=? length bars)%nat
              then <["ma_cross" := ma_crossover 5 20 (Close <$> bars)]> sig
              else sig)))).

(** Looking a key up in the dictionaries [calculate_all] leaves. *)
Ltac all_lookup :=
  unfold all_indicators, all_signals, bollinger_indicators, macd_indicators,
    macd_signals;
  repeat match goal with
         | |- context [if ?b then _ else _] =>
             match b with (2 <=? _)%nat => destruct b end
         end;
  map_lookup.

(** ** Further notions: the rest of the engines *)

(** A score on the scale of the trend and sentiment scores. *)
Definition in_score_range (x : num) : Prop :=
  exists q, x = Fin q /\ (-100 <= q <= 100)%Q.

(** A finite value between two rationals. *)
Definition between (lo hi : Q) (x : num) : Prop :=
  exists q, x = Fin q /\ (lo <= q <= hi)%Q.

(** A column of finite values. *)
Definition finite_series (s : pd.Series) : Prop :=
  Forall (fun x => Num.is_finite x = true) s.

(** A bar of finite prices whose high is not below its low. *)
Definition well_formed_bar (b : PriceBar) : Prop :=
  exists h l c, High b = Fin h /\ Low b = Fin l /\ Close b = Fin c /\ (l <= h)%Q.

(** Missing or not negative. *)
Definition nan_or_nonneg (x : num) : Prop := x = NaN \/ nonneg x.

(** *** technical_analysis.py: get_price_change *)

Record PriceChange : Type := {
  pc_current : num;
  pc_previous : num;
  pc_change : num;
  pc_change_pct : num
}.

Definition get_price_change (self : TechnicalAnalyzer) : result PriceChange :=
  current ← pd.iloc (Close <$> df self) (-1);
  prev ← (if (2 <=? length (df self))%nat
          then pd.iloc (Close <$> df self) (-2)
          else mret current);
  let change := (current - prev)%num in
  let change_pct :=
    if (prev >? Num.of_Z 0)%num then (change / prev * Num.of_Z 100)%num
    else Num.of_Z 0 in
  mret {| pc_current := current; pc_previous := prev;
          pc_change := change; pc_change_pct := change_pct |}.

(** The labels the analyzer can write, by entry. *)
Definition alignment_labels : list string := ["bullish"; "bearish"; "mixed"].
Definition cross_labels : list string := ["golden_cross"; "death_cross"; "none"].
Definition rsi_labels : list string := ["overbought"; "oversold"; "neutral"].
Definition bollinger_labels : list string := ["above_upper"; "below_lower"; "within_bands"].
Definition volume_labels : list string := ["high"; "low"; "normal"].

(** An entry of the [signals] dictionary is one of the labels, or missing. *)
Definition signal_among (self : TechnicalAnalyzer) (key : string) (labels : list string)
    (may_miss : bool) : Prop :=
  match signals self !! key with
  | Some l => l ∈ labels
  | None => may_miss = true
  end.

(** A finite value that denotes the rational [p]. *)
Definition denotes (p : Q) (x : num) : Prop := exists q, x = Fin q /\ (q == p)%Q.

(** ** sentiment_analysis.py: class SentimentAnalyzer *)

(** config.py: [SENTIMENT_CONFIG] *)
Record SentimentConfig : Type := {
  news_lookback_days : nat;
  min_news_count : nat;
  use_finbert : bool;
  news_processing_limit : nat
}.

Definition SENTIMENT_CONFIG : SentimentConfig := {|
  news_lookback_days := 7;
  min_news_count := 3;
  use_finbert := true;
  news_processing_limit := 20
|}.

Definition positive_keywords : list string := [
  "surge"; "soar"; "rally"; "gain"; "rise"; "jump"; "climb"; "advance";
  "profit"; "growth"; "strong"; "beat"; "exceed"; "outperform"; "bullish";
  "upgrade"; "positive"; "optimistic"; "success"; "breakthrough"; "innovation";
  "record"; "high"; "boost"; "momentum"; "recovery"; "expansion"; "acquisition";
  "deal"; "partnership"; "launch"
].

Definition negative_keywords : list string := [
  "fall"; "drop"; "decline"; "plunge"; "tumble"; "crash"; "slump"; "sink";
  "loss"; "weak"; "miss"; "disappoint"; "underperform"; "bearish";
  "downgrade"; "negative"; "pessimistic"; "concern"; "risk"; "warning";
  "cut"; "reduce"; "layoff"; "lawsuit"; "investigation"; "scandal";
  "debt"; "default"; "bankruptcy"; "recession"; "slowdown"; "challenge"
].

(** The dictionary of three scores both scoring methods return. *)
Record Sentiment : Type := {
  s_positive : num;
  s_negative : num;
  s_neutral : num
}.

(** Python's [max(a, b)]: the first argument unless the second is greater. *)
Definition py_max (a b : num) : num := if (b >? a)%num then b else a.

Section Keywords.
(** [str.lower] and [re.search(r'\b' + keyword + r'\b', text)], which follow
    the Unicode tables, are parameters. *)
Variable lower : string -> string.
Variable search_word : string -> string -> bool.

(** [sum(1 for keyword in keywords if re.search(...))] *)
Definition count_matches (keywords : list string) (text_lower : string) : nat :=
  length (filter (fun keyword => search_word keyword text_lower = true) keywords).

Definition analyze_with_keywords (text : string) : Sentiment :=
  let text_lower := lower text in
  let positive_matches := count_matches positive_keywords text_lower in
  let negative_matches := count_matches negative_keywords text_lower in
  let total_matches := (positive_matches + negative_matches)%nat in
  if (total_matches =? 0)%nat then
    {| s_positive := Num.of_Z 0; s_negative := Num.of_Z 0; s_neutral := Num.of_Z 1 |}
  else
    let positive_score := (Num.of_nat positive_matches / Num.of_nat total_matches)%num in
    let negative_score := (Num.of_nat negative_matches / Num.of_nat total_matches)%num in
    let neutral_score := (Num.of_Z 1 - positive_score - negative_score)%num in
    {| s_positive := positive_score; s_negative := negative_score;
       s_neutral := py_max (Num.of_Z 0) neutral_score |}.

End Keywords.

(** One news item, as the fetcher returns it; a missing key is [None]. *)
Record News : Type := {
  n_headline : option string;
  n_summary : option string;
  n_datetime : option Z;
  n_url : option string
}.

(** One entry of the analysed list. *)
Record NewsDetail : Type := {
  d_headline : string;
  d_summary : string;
  d_datetime : string;
  d_sentiment : string;
  d_url : string
}.

(** The dictionary [analyze_news] returns. *)
Record SentimentResult : Type := {
  total_news : nat;
  positive_count : nat;
  negative_count : nat;
  neutral_count : nat;
  sentiment_score_ : num;
  sentiment_label : string;
  news_list : list NewsDetail
}.

(** The label of one article: the largest of the three scores wins when it
    is the positive or the negative one and exceeds 0.5. *)
Definition article_label (sentiment : Sentiment) : string :=
  let max_score :=
    py_max (py_max (s_positive sentiment) (s_negative sentiment)) (s_neutral sentiment) in
  if Num.eqb (s_positive sentiment) max_score
     && (s_positive sentiment >? Fin (1 # 2))%num then "positive"
  else if Num.eqb (s_negative sentiment) max_score
          && (s_negative sentiment >? Fin (1 # 2))%num then "negative"
  else "neutral".

(** The counters of the loop of [analyze_news]. *)
Record Counters : Type := {
  c_positive : nat;
  c_negative : nat;
  c_neutral : nat;
  c_details : list NewsDetail
}.

Section AnalyzeNews.
(** The scoring method in use ([analyze_with_keywords], or FinBERT when it is
    asked for and loaded), the rendering of a timestamp
    ([datetime.fromtimestamp(t).strftime("%Y-%m-%d %H:%M")], taken as total)
    and the whitespace characters of [str.strip] are parameters. *)
Variable score_text : string -> Sentiment.
Variable strftime : Z -> string.
Variable isspace : ascii -> bool.

(** [not text.strip()]: nothing but whitespace. *)
Definition blank (text : string) : bool := forallb isspace (list_ascii_of_string text).

(** One turn of the loop. *)
Definition analyze_one (acc : Counters) (news : News) : Counters :=
  let headline := default "" (n_headline news) in
  let summary := default "" (n_summary news) in
  let text_to_analyze := headline +:+ ". " +:+ summary in
  if blank text_to_analyze then acc
  else
    let sentiment := score_text text_to_analyze in
    let label := article_label sentiment in
    let detail :=
      {| d_headline := headline; d_summary := summary;
         d_datetime := strftime (default 0 (n_datetime news));
         d_sentiment := label; d_url := default "" (n_url news) |} in
    {| c_positive := if bool_decide (label = "positive")
                     then S (c_positive acc) else c_positive acc;
       c_negative := if bool_decide (label = "negative")
                     then S (c_negative acc) else c_negative acc;
       c_neutral := if bool_decide (label = "positive") then c_neutral acc
                    else if bool_decide (label = "negative") then c_neutral acc
                    else S (c_neutral acc);
       c_details := c_details acc ++ [detail] |}.

Definition sentiment_label_of (sentiment_score : num) : string :=
  if (sentiment_score >? Num.of_Z 25)%num then "positive"
  else if (sentiment_score <? Num.of_Z (-25))%num then "negative"
  else "neutral".

Definition analyze_news (news_list : list News) : SentimentResult :=
  match news_list with
  | [] =>
      {| total_news := 0; positive_count := 0; negative_count := 0;
         neutral_count := 0; sentiment_score_ := Num.of_Z 0;
         sentiment_label := "neutral"; news_list := [] |}
  | _ =>
      let limit := news_processing_limit SENTIMENT_CONFIG in
      let acc :=
        foldl analyze_one
          {| c_positive := 0; c_negative := 0; c_neutral := 0; c_details := [] |}
          (take limit news_list) in
      let total_analyzed := length (c_details acc) in
      let sentiment_score :=
        if (total_analyzed =? 0)%nat then Num.of_Z 0
        else ((Num.of_nat (c_positive acc) * Num.of_Z 1
               - Num.of_nat (c_negative acc) * Num.of_Z 1)
              / Num.of_nat total_analyzed * Num.of_Z 100)%num in
      {| total_news := total_analyzed;
         positive_count := c_positive acc;
         negative_count := c_negative acc;
         neutral_count := c_neutral acc;
         sentiment_score_ := sentiment_score;
         sentiment_label := sentiment_label_of sentiment_score;
         news_list := c_details acc |}
  end.

End AnalyzeNews.

(** sentiment_analysis.py: [SentimentAnalyzer.get_sentiment_description] *)
Definition get_sentiment_description (score : num) : string :=
  if (score >? Num.of_Z 60)%num then "非常乐观"
  else if (score >? Num.of_Z 20)%num then "偏乐观"
  else if (score >? Num.of_Z (-20))%num then "中性"
  else if (score >? Num.of_Z (-60))%num then "偏悲观"
  else "非常悲观".


(** ** signal_generator.py: [SignalGenerator.generate_key_points] *)

(** [d.get(key, default)] read as a number and [d.get(key, default) == label]
    on a dictionary of indicators. *)
Definition get_num (d : gmap string value) (key : string) (default : num) : result num :=
  match d !! key with
  | None => Ok default
  | Some (VNum x) => Ok x
  | Some (VStr _) => Raise TypeError
  end.

Definition get_is (d : gmap string value) (key default label : string) : bool :=
  match d !! key with
  | None => bool_decide (default = label)
  | Some (VStr s) => bool_decide (s = label)
  | Some (VNum _) => false
  end.

Section KeyPoints.
(** The rendering [f"{x:.1f}"] of a number is a parameter. *)
Variable format_1f : num -> string.

Definition generate_key_points (self : SignalGenerator)
    (technical_indicators : gmap string value) (sentiment_result : SentimentResult)
  : result (list string) :=
  let points := [] in
  let points :=
    if get_is technical_indicators "ma_alignment" "mixed" "bullish"
    then points ++ ["均线呈多头排列，短期趋势向好"]
    else if get_is technical_indicators "ma_alignment" "mixed" "bearish"
    then points ++ ["均线呈空头排列，短期趋势偏弱"]
    else points in
  rsi ← get_num technical_indicators "rsi" (Num.of_Z 50);
  let points :=
    if (rsi >? Num.of_Z 70)%num
    then points ++ ["RSI 处于超买区域 (" +:+ format_1f rsi +:+ ")，注意回调风险"]
    else if (rsi <? Num.of_Z 30)%num
    then points ++ ["RSI 处于超卖区域 (" +:+ format_1f rsi +:+ ")，可能存在反弹机会"]
    else points in
  let sentiment_label := sentiment_label sentiment_result in
  let points :=
    if bool_decide (sentiment_label = "positive")
    then points ++ ["消息面偏正面，市场情绪乐观"]
    else if bool_decide (sentiment_label = "negative")
    then points ++ ["消息面偏负面，市场情绪谨慎"]
    else points in
  volume_ratio ← get_num technical_indicators "volume_ratio" (Num.of_Z 1);
  let points :=
    if (volume_ratio >? Fin (3 # 2))%num
    then points ++ ["成交量放大 (" +:+ format_1f volume_ratio +:+ "x)，市场活跃度提升"]
    else if (volume_ratio <? Fin (1 # 2))%num
    then points ++ ["成交量萎缩，市场观望情绪浓厚"]
    else points in
  let points := points ++ ["注意大盘整体走势影响"] in
  let points :=
    if (composite_score self >? Num.of_Z 0)%num
    then points ++ ["建议分批建仓，控制风险"]
    else points ++ ["建议谨慎操作，等待更好时机"] in
  mret points.

End KeyPoints.

(** The point on the news, if any. *)
Definition sentiment_points (sentiment_result : SentimentResult) : list string :=
  if bool_decide (sentiment_label sentiment_result = "positive")
  then ["消息面偏正面，市场情绪乐观"]
  else if bool_decide (sentiment_label sentiment_result = "negative")
  then ["消息面偏负面，市场情绪谨慎"]
  else [].

(** The two closing points. *)
Definition closing_points (self : SignalGenerator) : list string :=
  ["注意大盘整体走势影响";
   if (composite_score self >? Num.of_Z 0)%num
   then "建议分批建仓，控制风险" else "建议谨慎操作，等待更好时机"].

(** The proofs' notions for the news. *)
Definition counted (acc : Counters) : Prop :=
  (c_positive acc + c_negative acc + c_neutral acc)%nat = length (c_details acc).

Definition ascii_space (c : ascii) : bool :=
  bool_decide (c = " "%char) || bool_decide (c = "009"%char)
  || bool_decide (c = "010"%char) || bool_decide (c = "013"%char).

Definition sample_news : list News :=
  [ {| n_headline := Some "Shares surge on record profit"; n_summary := Some "";
       n_datetime := Some 1700000000; n_url := None |};
    {| n_headline := None; n_summary := None; n_datetime := None; n_url := None |} ].

(** The value of a finite cell and the sum of a column of finite cells. *)
Definition Qval (x : num) : Q := match x with Fin q => q | _ => 0%Q end.

Definition Qsum (s : pd.Series) : Q := foldr (fun x acc => (Qval x + acc)%Q) 0%Q s.

(** A strictly falling column of finite values. *)
Fixpoint strictly_falling (s : pd.Series) : Prop :=
  match s with
  | x :: ((y :: _) as s') =>
      Num.is_finite x = true /\ (x >? y)%num = true /\ strictly_falling s'
  | [x] => Num.is_finite x = true
  | [] => True
  end.

Definition negative_ (x : num) : Prop := exists q, x = Fin q /\ (q < 0)%Q.

(** Sixty bars moving by [step] a bar from 200. *)
Definition trending_bars (step : Z) : list PriceBar :=
  (fun i => bar_at (200 + step * Z.of_nat i)) <$> seq 0 60.

(** ** Facts about numbers *)

Module NumFacts.

Lemma fin_proper (p q : Q) : (p == q)%Q -> Num.fin p = Num.fin q.
Proof. intros H. unfold Num.fin. f_equal. by apply Qred_complete. Qed.

Lemma ltb_Fin (a b : Q) : (Fin a <? Fin b)%num = true <-> (a < b)%Q.
Proof.
  simpl. rewrite negb_true_iff. split.
  - intros H. apply Qnot_le_lt. intros Hle. apply Qle_bool_iff in Hle. congruence.
  - intros H. destruct (Qle_bool b a) eqn:E; [|done].
    apply Qle_bool_iff in E. exfalso. by apply (Qlt_not_le a b).
Qed.

Lemma leb_Fin (a b : Q) : (Fin a <=? Fin b)%num = true <-> (a <= b)%Q.
Proof. simpl. apply Qle_bool_iff. Qed.

Lemma Qzero_true (q : Q) : Num.Qzero q = true <-> (q == 0)%Q.
Proof. unfold Num.Qzero. apply Qeq_bool_iff. Qed.

Lemma Qzero_false (q : Q) : Num.Qzero q = false <-> ~ (q == 0)%Q.
Proof.
  rewrite <- Qzero_true. destruct (Num.Qzero q); split; intros; congruence.
Qed.

Lemma Qnegative_false (q : Q) : Num.Qnegative q = false <-> (0 <= q)%Q.
Proof. unfold Num.Qnegative. rewrite negb_false_iff. apply Qle_bool_iff. Qed.


Lemma add_comm (x y : num) : (x + y)%num = (y + x)%num.
Proof.
  destruct x, y; simpl; try reflexivity.
  apply fin_proper. ring.
Qed.




Lemma ltb_leb_trans (x y z : num) :
  (x <? y)%num = true -> (y <=? z)%num = true -> (x <? z)%num = true.
Proof.
  destruct x, y, z; try done.
  rewrite !ltb_Fin, leb_Fin. apply Qlt_le_trans.
Qed.

End NumFacts.

(** ** The signal and risk engine *)

Section SignalBands.
Variable th : config.SignalThresholds.

(** A score at least as high clears every threshold the lower one clears. *)
Lemma clears_mono (a b t : num) :
  (a >=? b)%num = true -> (b >? t)%num = true -> (a >? t)%num = true.
Proof. unfold Num.geb, Num.gtb. intros Hab Hbt. by eapply NumFacts.ltb_leb_trans. Qed.

(** C9.  The mapping from the composite score to the signal category is
    monotone: when [a >= b], the category of [a] is at least as strong as the
    category of [b] on strong-sell < sell < hold < buy < strong-buy.  The
    bands are read from the top down, so this holds for any fixed thresholds,
    strictly ordered ones among them. *)
Theorem signal_band_monotone (a b : num) :
  (a >=? b)%num = true ->
  strength (signal_band th b) <= strength (signal_band th a).
Proof.
  intros Hab. unfold signal_band.
  destruct (b >? config.strong_buy th)%num eqn:B1.
  { by rewrite (clears_mono a b _ Hab B1). }
  destruct (b >? config.buy th)%num eqn:B2.
  { rewrite (clears_mono a b _ Hab B2).
    destruct (a >? config.strong_buy th)%num; simpl; lia. }
  destruct (b >? config.sell th)%num eqn:B3.
  { rewrite (clears_mono a b _ Hab B3).
    destruct (a >? config.strong_buy th)%num, (a >? config.buy th)%num; simpl; lia. }
  destruct (b >? config.strong_sell th)%num eqn:B4.
  { rewrite (clears_mono a b _ Hab B4).
    destruct (a >? config.strong_buy th)%num, (a >? config.buy th)%num,
      (a >? config.sell th)%num; simpl; lia. }
  destruct (a >? config.strong_buy th)%num, (a >? config.buy th)%num,
    (a >? config.sell th)%num, (a >? config.strong_sell th)%num; simpl; lia.
Qed.

End SignalBands.

(** The label [generate_signal] returns is the label of the band of the
    composite score, and the five labels are pairwise different. *)
Lemma generate_signal_band (self : SignalGenerator) :
  signal (generate_signal self)
  = signal_text (signal_band SIGNAL_THRESHOLDS (composite_score self)).
Proof. reflexivity. Qed.

Lemma signal_text_inj (s t : Signal) : signal_text s = signal_text t -> s = t.
Proof. destruct s, t; simpl; intros H; try reflexivity; discriminate H. Qed.

Lemma default_thresholds_ordered : strictly_ordered SIGNAL_THRESHOLDS.
Proof. repeat split. Qed.

Lemma signal_band_monotone_witness :
  (Num.of_Z 70 >=? Num.of_Z 10)%num = true
  /\ strength (signal_band SIGNAL_THRESHOLDS (Num.of_Z 10))
     <= strength (signal_band SIGNAL_THRESHOLDS (Num.of_Z 70)).
Proof.
  split; [reflexivity|].
  apply (signal_band_monotone SIGNAL_THRESHOLDS (Num.of_Z 70) (Num.of_Z 10)).
  reflexivity.
Defined.




(** ** The trend scorer *)

(** A clause of the form [if .. score + x elif .. score - y] adds its points
    to the running score. *)
Lemma clause_plus_minus (x : Z) (c1 c2 : bool) (score : Z) :
  (if c1 then score + x else if c2 then score - x else score)
  = score + (if c1 then x else if c2 then Z.opp x else 0).
Proof. destruct c1, c2; lia. Qed.

Lemma clause_rsi (c1 c2 c3 : bool) (score : Z) :
  (if c1 then score - 15 else if c2 then score + 15
   else if c3 then score + 5 else score)
  = score + (if c1 then -15 else if c2 then 15 else if c3 then 5 else 0).
Proof. destruct c1, c2, c3; lia. Qed.

Lemma clause_volume (c : bool) (score : Z) :
  (if c then (if score >? 0 then score + 5 else score - 5) else score)
  = score + (if c then (if score >? 0 then 5 else -5) else 0).
Proof. destruct c, (score >? 0); lia. Qed.

(** [get_trend_score] adds the clauses in the order of the rubric, the volume
    clause last on the running total, and clips once at the end. *)
Lemma get_trend_score_rubric (self : TechnicalAnalyzer) :
  get_trend_score self
  = (pre ← pre_volume_total self; mret (clip (pre + volume_points self pre))).
Proof.
  unfold get_trend_score, pre_volume_total, macd_points, rsi_points,
    ma_alignment_points, ma_cross_points, bollinger_points, volume_points, clip.
  destruct (signal_is self "macd" "golden_cross"),
    (signal_is self "macd" "death_cross"),
    (indicator_num self "macd_hist" (Num.of_Z 0)) as [hist|e1],
    (indicator_num self "rsi" (Num.of_Z 50)) as [rsi|e2];
    cbn [mbind mret result_bind result_ret]; try reflexivity;
    try (destruct (hist >? Num.of_Z 0)%num, (hist <? Num.of_Z 0)%num);
    cbn [mbind mret result_bind result_ret]; try reflexivity;
    rewrite clause_volume, (clause_plus_minus 30), (clause_plus_minus 20),
      (clause_plus_minus 10), clause_rsi;
    change (Z.opp 30) with (-30); change (Z.opp 20) with (-20);
    change (Z.opp 10) with (-10);
    match goal with
    | |- ?f (Z.max _ (Z.min _ (?s + _))) = ?f (Z.max _ (Z.min _ (?t + _))) =>
        replace s with t by lia
    end; reflexivity.
Qed.

(** Without the volume clause the rubric stays within 95 points. *)
Lemma pre_volume_total_bounds (self : TechnicalAnalyzer) (pre : Z) :
  pre_volume_total self = Ok pre -> -95 <= pre <= 95.
Proof.
  unfold pre_volume_total, macd_points, rsi_points.
  assert (Ha : -30 <= ma_alignment_points self <= 30).
  { unfold ma_alignment_points. repeat case_match; lia. }
  assert (Hc : -20 <= ma_cross_points self <= 20).
  { unfold ma_cross_points. repeat case_match; lia. }
  assert (Hb : -10 <= bollinger_points self <= 10).
  { unfold bollinger_points. repeat case_match; lia. }
  destruct (signal_is self "macd" "golden_cross"),
    (signal_is self "macd" "death_cross"),
    (indicator_num self "macd_hist" (Num.of_Z 0)) as [hist|?],
    (indicator_num self "rsi" (Num.of_Z 50)) as [rsi|?];
    cbn [mbind mret result_bind result_ret]; intros [= <-];
    repeat case_match; lia.
Qed.

Lemma indicator_num_numeric (self : TechnicalAnalyzer) (key : string) (default : num) :
  is_label (indicators self !! key) = false ->
  exists x, indicator_num self key default = Ok x.
Proof.
  unfold indicator_num, is_label.
  destruct (indicators self !! key) as [[x|s]|]; [eauto | discriminate | eauto].
Qed.

Lemma pre_volume_total_returns (self : TechnicalAnalyzer) :
  numeric_entries self -> exists pre, pre_volume_total self = Ok pre.
Proof.
  intros [Hrsi Hhist].
  destruct (indicator_num_numeric self "rsi" (Num.of_Z 50) Hrsi) as [r Hr].
  destruct (indicator_num_numeric self "macd_hist" (Num.of_Z 0) Hhist) as [h Hh].
  unfold pre_volume_total, macd_points, rsi_points. rewrite Hr, Hh.
  destruct (signal_is self "macd" "golden_cross"),
    (signal_is self "macd" "death_cross");
    cbn [mbind mret result_bind result_ret]; eauto.
Qed.

Lemma clip_bounds (score : Z) : -100 <= clip score <= 100.
Proof. unfold clip. lia. Qed.

(** C1.  For every indicator set (entries present or missing, the numeric
    entries holding numbers), the trend scorer returns a score in
    [-100, 100]: the clauses are summed, the volume clause last on the
    running total, and that sum is clipped once, after all of them. *)
Theorem trend_score_in_range (self : TechnicalAnalyzer) :
  numeric_entries self ->
  exists pre score,
    pre_volume_total self = Ok pre
    /\ get_trend_score self = Ok score
    /\ score = Z.max (-100) (Z.min 100 (pre + volume_points self pre))
    /\ -100 <= score <= 100.
Proof.
  intros Hnum. destruct (pre_volume_total_returns self Hnum) as [pre Hpre].
  exists pre, (clip (pre + volume_points self pre)).
  split; [exact Hpre|]. split.
  - rewrite get_trend_score_rubric, Hpre. reflexivity.
  - split; [reflexivity | apply clip_bounds].
Qed.

Lemma trend_score_in_range_witness :
  exists pre score,
    pre_volume_total all_bullish = Ok pre
    /\ get_trend_score all_bullish = Ok score
    /\ score = Z.max (-100) (Z.min 100 (pre + volume_points all_bullish pre))
    /\ -100 <= score <= 100.
Proof.
  apply (trend_score_in_range all_bullish). split; reflexivity.
Defined.

(** The rubric cannot leave the bounds: the sum is already in [-100, 100]
    before it is clipped. *)
Lemma trend_score_sum_in_range (self : TechnicalAnalyzer) (pre : Z) :
  pre_volume_total self = Ok pre ->
  -100 <= pre + volume_points self pre <= 100.
Proof.
  intros H. apply pre_volume_total_bounds in H.
  unfold volume_points. repeat case_match; lia.
Qed.

(** C4.  The volume clause adds points only when the volume signal is
    [high]; it reads the total [pre] of all the other clauses, not yet
    clipped, and adds +5 when [pre > 0] and -5 when [pre <= 0]. *)
Theorem volume_clause_on_running_total (self : TechnicalAnalyzer) (pre : Z) :
  pre_volume_total self = Ok pre ->
  get_trend_score self
  = Ok (Z.max (-100) (Z.min 100
          (pre + (if signal_is self "volume" "high"
                  then (if pre >? 0 then 5 else -5)
                  else 0)))).
Proof.
  intros Hpre. rewrite get_trend_score_rubric, Hpre. reflexivity.
Qed.

Lemma volume_clause_on_running_total_witness :
  get_trend_score all_bullish
  = Ok (Z.max (-100) (Z.min 100
          (95 + (if signal_is all_bullish "volume" "high"
                 then (if 95 >? 0 then 5 else -5)
                 else 0)))).
Proof.
  apply (volume_clause_on_running_total all_bullish 95). reflexivity.
Defined.

(** A running total of 0 with high volume loses 5 points. *)
Example volume_clause_at_zero :
  get_trend_score
    {| df := []; columns := ∅; indicators := <["rsi" := VNum (Num.of_Z 35)]> ∅;
       signals := <["volume" := "high"]> ∅ |}
  = Ok (-5).
Proof. reflexivity. Qed.

Example all_bullish_score : get_trend_score all_bullish = Ok 100.
Proof. reflexivity. Qed.

(** ** Facts about columns *)

Module pdFacts.

Lemma iloc_empty (i : Z) : pd.iloc [] i = Raise IndexError.
Proof.
  unfold pd.iloc. cbn [length lookup list_lookup].
  by destruct ((0 <=? (if i <? 0 then Z.of_nat 0 + i else i))
               && ((if i <? 0 then Z.of_nat 0 + i else i) <? Z.of_nat 0)).
Qed.

(** Reading the [k]-th cell from the end, [k >= 1]. *)
Lemma iloc_from_end (s : pd.Series) (k : nat) (x : num) :
  (1 <= k <= length s)%nat ->
  s !! (length s - k)%nat = Some x ->
  pd.iloc s (- Z.of_nat k) = Ok x.
Proof.
  intros Hk Hx. unfold pd.iloc.
  replace (- Z.of_nat k <? 0) with true by lia.
  replace (0 <=? Z.of_nat (length s) + - Z.of_nat k) with true by lia.
  replace (Z.of_nat (length s) + - Z.of_nat k <? Z.of_nat (length s)) with true by lia.
  simpl.
  replace (Z.to_nat (Z.of_nat (length s) + - Z.of_nat k)) with (length s - k)%nat by lia.
  by rewrite Hx.
Qed.

Lemma iloc_from_end_inv (s : pd.Series) (k : nat) (x : num) :
  (1 <= k)%nat ->
  pd.iloc s (- Z.of_nat k) = Ok x ->
  (k <= length s)%nat /\ s !! (length s - k)%nat = Some x.
Proof.
  intros Hk. unfold pd.iloc.
  replace (- Z.of_nat k <? 0) with true by lia.
  destruct (0 <=? Z.of_nat (length s) + - Z.of_nat k) eqn:E; [|discriminate].
  replace (Z.of_nat (length s) + - Z.of_nat k <? Z.of_nat (length s)) with true by lia.
  simpl.
  replace (Z.to_nat (Z.of_nat (length s) + - Z.of_nat k)) with (length s - k)%nat by lia.
  destruct (s !! (length s - k)%nat) eqn:L; [|discriminate].
  intros [= <-]. split; [lia | reflexivity].
Qed.

Lemma iloc_zip_with (f : num -> num -> num) (a b : pd.Series) (k : nat) (x y : num) :
  (1 <= k)%nat ->
  length a = length b ->
  pd.iloc a (- Z.of_nat k) = Ok x ->
  pd.iloc b (- Z.of_nat k) = Ok y ->
  pd.iloc (zip_with f a b) (- Z.of_nat k) = Ok (f x y).
Proof.
  intros Hk Hab Ha Hb.
  apply iloc_from_end_inv in Ha as [Hlen Hx]; [|done].
  apply iloc_from_end_inv in Hb as [_ Hy]; [|done].
  apply iloc_from_end; rewrite length_zip_with_l_eq by done; [lia|].
  rewrite lookup_zip_with, Hx. simpl. rewrite Hab, Hy. reflexivity.
Qed.

Section Rolling.
Variable cell : pd.Series -> num.

Lemma length_rolling (s : pd.Series) : length (pd.rolling cell s) = length s.
Proof. unfold pd.rolling. by rewrite length_fmap, length_seq. Qed.

Lemma lookup_rolling (s : pd.Series) (i : nat) :
  (i < length s)%nat -> pd.rolling cell s !! i = Some (cell (take (S i) s)).
Proof.
  intros Hi. unfold pd.rolling.
  by rewrite list_lookup_fmap, lookup_seq_lt.
Qed.

(** The cell of the bar [k - 1] bars before the last sees the column without
    its last [k - 1] bars. *)
Lemma iloc_rolling (s : pd.Series) (k : nat) :
  (1 <= k <= length s)%nat ->
  pd.iloc (pd.rolling cell s) (- Z.of_nat k)
  = Ok (cell (take (length s - (k - 1)) s)).
Proof.
  intros Hk. apply iloc_from_end; rewrite length_rolling; [done|].
  rewrite lookup_rolling by lia. do 3 f_equal. lia.
Qed.

Lemma iloc_rolling_last (s : pd.Series) :
  s <> [] -> pd.iloc (pd.rolling cell s) (-1) = Ok (cell s).
Proof.
  intros Hs. change (-1) with (- Z.of_nat 1).
  rewrite iloc_rolling.
  - simpl. by rewrite Nat.sub_0_r, firstn_all.
  - destruct s; [done|]. simpl. lia.
Qed.

End Rolling.

Lemma window_mean_short (w : nat) (s : pd.Series) :
  (length s < w)%nat -> pd.window_mean w s = NaN.
Proof.
  intros H. unfold pd.window_mean.
  by replace (length s <? w)%nat with true by (symmetry; by apply Nat.ltb_lt).
Qed.

Lemma window_std_short (Qsqrt : Q -> Q) (w : nat) (s : pd.Series) :
  (length s < w)%nat -> pd.window_std Qsqrt w s = NaN.
Proof.
  intros H. unfold pd.window_std.
  by replace (length s <? w)%nat with true by (symmetry; by apply Nat.ltb_lt).
Qed.

Lemma length_diff (s : pd.Series) : length (pd.diff s) = length s.
Proof.
  destruct s as [|x s]; [done|]. simpl. f_equal.
  revert x. induction s as [|y s IH]; intros x; simpl; [done|]. by rewrite IH.
Qed.

Lemma length_where (cond : num -> bool) (other : num) (s : pd.Series) :
  length (pd.where_ cond other s) = length s.
Proof. unfold pd.where_. apply length_fmap. Qed.

Lemma length_ewm_mean (span : nat) (s : pd.Series) :
  length (pd.ewm_mean span s) = length s.
Proof.
  destruct s as [|x s]; [done|]. simpl. f_equal.
  generalize (pd.alpha span). intros a.
  revert x. induction s as [|y s IH]; intros x; simpl; [done|]. by rewrite IH.
Qed.

End pdFacts.

(** ** The indicator engine *)

Lemma fmap_nonempty {A B : Type} (f : A -> B) (l : list A) : l <> [] -> f <$> l <> [].
Proof. by destruct l. Qed.

Lemma nonempty_length {A B : Type} (l : list A) (k : list B) :
  length l = length k -> k <> [] -> l <> [].
Proof. destruct l, k; done. Qed.

Lemma calculate_ma_leaves (self : TechnicalAnalyzer) :
  df self <> [] ->
  leaves (calculate_ma self) self
    (<["ma_alignment" := VStr (ma_alignment_label (Close <$> df self))]>
       (indicators self))
    (if (2 <=? length (df self))%nat
     then <["ma_cross" := ma_crossover 5 20 (Close <$> df self)]> (signals self)
     else signals self).
Proof.
  intros Hdf. unfold calculate_ma, leaves.
  cbn [config.ma_periods TECHNICAL_CONFIG foldl mapM].
  change (MA_name 5) with "MA5". change (MA_name 10) with "MA10".
  change (MA_name 20) with "MA20". change (MA_name 50) with "MA50".
  unfold get_column, set_column, set_indicator. cbn [columns df].
  map_lookup.
  cbn [mbind mret result_bind result_ret].
  assert (Hc : Close <$> df self <> []) by by apply fmap_nonempty.
  unfold pd.rolling_mean.
  rewrite !pdFacts.iloc_rolling_last by done.
  cbn [mbind mret result_bind result_ret].
  destruct (2 <=? length (df self))%nat eqn:E.
  - apply Nat.leb_le in E.
    change (-2) with (- Z.of_nat 2).
    rewrite !pdFacts.iloc_rolling by (rewrite length_fmap; lia).
    cbn [mbind mret result_bind result_ret].
    eexists. split; [reflexivity|]. repeat split.
    cbn [signals set_signal]. f_equal.
    unfold ma_crossover, cross_label, sma.
    rewrite Nat.sub_0_r, firstn_all. reflexivity.
  - eexists. split; [reflexivity|]. repeat split.
Qed.

Lemma ltb_asym (x y : num) : (x <? y)%num = true -> (y <? x)%num = false.
Proof.
  destruct x, y; try done.
  rewrite NumFacts.ltb_Fin. intros H. simpl. apply negb_false_iff.
  apply Qle_bool_iff. by apply Qlt_le_weak.
Qed.

(** The crossover label says which of the two conditions holds. *)
Lemma cross_label_golden (fp sp fc sc : num) :
  cross_label fp sp fc sc = "golden_cross"
  <-> (fp <=? sp)%num && (fc >? sc)%num = true.
Proof.
  unfold cross_label.
  destruct ((fp <=? sp)%num && (fc >? sc)%num); [done|].
  destruct ((fp >=? sp)%num && (fc <? sc)%num); done.
Qed.

Lemma cross_label_death (fp sp fc sc : num) :
  cross_label fp sp fc sc = "death_cross"
  <-> (fp >=? sp)%num && (fc <? sc)%num = true.
Proof.
  unfold cross_label.
  destruct ((fp <=? sp)%num && (fc >? sc)%num) eqn:G.
  - apply andb_true_iff in G as [_ G]. unfold Num.gtb in G.
    rewrite (ltb_asym _ _ G), andb_false_r. done.
  - destruct ((fp >=? sp)%num && (fc <? sc)%num); done.
Qed.

Lemma ma_crossover_cross_label (short long : nat) (close : pd.Series) :
  ma_crossover short long close
  = cross_label (sma short close 1) (sma long close 1)
                (sma short close 0) (sma long close 0).
Proof. reflexivity. Qed.

(** C3, as the code has it.  With at least 2 bars, the crossover signal is
    computed from the MA5 and MA20 columns (the first and the third of the
    configured windows [5, 10, 20, 50]) at the last two bars: golden_cross
    iff MA5 was at most MA20 one bar ago and is strictly above it now,
    death_cross iff MA5 was at least MA20 one bar ago and is strictly below
    it now, and none otherwise. *)
Theorem ma_cross_from_MA5_MA20 (self : TechnicalAnalyzer) :
  (2 <= length (df self))%nat ->
  exists self' label,
    calculate_ma self = Ok self'
    /\ signals self' !! "ma_cross" = Some label
    /\ label = ma_crossover 5 20 (Close <$> df self)
    /\ (label = "golden_cross"
        <-> (sma 5 (Close <$> df self) 1 <=? sma 20 (Close <$> df self) 1)%num
            && (sma 5 (Close <$> df self) 0 >? sma 20 (Close <$> df self) 0)%num
            = true)
    /\ (label = "death_cross"
        <-> (sma 5 (Close <$> df self) 1 >=? sma 20 (Close <$> df self) 1)%num
            && (sma 5 (Close <$> df self) 0 <? sma 20 (Close <$> df self) 0)%num
            = true)
    /\ (label = "golden_cross" \/ label = "death_cross" \/ label = "none").
Proof.
  intros Hlen.
  destruct (calculate_ma_leaves self) as (self' & Hr & _ & _ & Hsig).
  { destruct (df self); [simpl in Hlen; lia | done]. }
  exists self', (ma_crossover 5 20 (Close <$> df self)).
  split; [exact Hr|]. split.
  - rewrite Hsig.
    replace (2 <=? length (df self))%nat with true
      by (symmetry; by apply Nat.leb_le).
    by rewrite lookup_insert_eq.
  - split; [reflexivity|]. rewrite ma_crossover_cross_label.
    split; [apply cross_label_golden|]. split; [apply cross_label_death|].
    unfold cross_label. repeat case_match; auto.
Qed.

Lemma ma_cross_from_MA5_MA20_witness :
  exists self' label,
    calculate_ma (init crossing_bars) = Ok self'
    /\ signals self' !! "ma_cross" = Some label
    /\ label = ma_crossover 5 20 (Close <$> crossing_bars)
    /\ (label = "golden_cross"
        <-> (sma 5 (Close <$> crossing_bars) 1 <=? sma 20 (Close <$> crossing_bars) 1)%num
            && (sma 5 (Close <$> crossing_bars) 0 >? sma 20 (Close <$> crossing_bars) 0)%num
            = true)
    /\ (label = "death_cross"
        <-> (sma 5 (Close <$> crossing_bars) 1 >=? sma 20 (Close <$> crossing_bars) 1)%num
            && (sma 5 (Close <$> crossing_bars) 0 <? sma 20 (Close <$> crossing_bars) 0)%num
            = true)
    /\ (label = "golden_cross" \/ label = "death_cross" \/ label = "none").
Proof.
  apply (ma_cross_from_MA5_MA20 (init crossing_bars)). simpl. lia.
Defined.

(** C3, as stated, fails: on [crossing_bars] the two shortest windows, 5 and
    10, give a golden cross, and the analyzer reports none. *)
Lemma ma_cross_not_two_shortest :
  (self ← calculate_ma (init crossing_bars); mret (signals self !! "ma_cross"))
  = Ok (Some "none")
  /\ two_shortest_crossover (Close <$> crossing_bars) = "golden_cross".
Proof. split; vm_compute; reflexivity. Qed.

Lemma length_gains (close : pd.Series) : length (gains close) = length close.
Proof. unfold gains. by rewrite pdFacts.length_where, pdFacts.length_diff. Qed.

Lemma length_losses (close : pd.Series) : length (losses close) = length close.
Proof.
  unfold losses. by rewrite length_fmap, pdFacts.length_where, pdFacts.length_diff.
Qed.

Lemma iloc_RSI (period : nat) (close : pd.Series) :
  close <> [] ->
  pd.iloc (zip_with rsi_of (rsi_gain period close) (rsi_loss period close)) (-1)
  = Ok (rsi_of (pd.window_mean period (gains close))
               (pd.window_mean period (losses close))).
Proof.
  intros Hc. change (-1) with (- Z.of_nat 1).
  apply pdFacts.iloc_zip_with; [done| | |].
  - unfold rsi_gain, rsi_loss, pd.rolling_mean.
    by rewrite !pdFacts.length_rolling, length_gains, length_losses.
  - apply pdFacts.iloc_rolling_last.
    apply (nonempty_length _ close); [apply length_gains | done].
  - apply pdFacts.iloc_rolling_last.
    apply (nonempty_length _ close); [apply length_losses | done].
Qed.

Lemma calculate_rsi_leaves (self : TechnicalAnalyzer) :
  df self <> [] ->
  leaves (calculate_rsi self) self
    (<["rsi" := VNum (current_rsi (Close <$> df self))]> (indicators self))
    (<["rsi" := rsi_label (current_rsi (Close <$> df self))]> (signals self)).
Proof.
  intros Hdf. unfold calculate_rsi, leaves.
  rewrite iloc_RSI by by apply fmap_nonempty.
  cbn [mbind mret result_bind result_ret].
  eexists. split; [reflexivity|]. repeat split.
Qed.

(** With a zero average loss and a positive average gain the ratio is +inf
    and the RSI is 100. *)
Lemma rsi_of_zero_loss (g l : Q) :
  (0 < g)%Q -> (l == 0)%Q -> rsi_of (Fin g) (Fin l) = Num.of_Z 100.
Proof.
  intros Hg Hl. unfold rsi_of. simpl.
  replace (Num.Qzero l) with true by (symmetry; by apply NumFacts.Qzero_true).
  replace (Num.Qzero g) with false.
  2:{ symmetry. apply NumFacts.Qzero_false. intros E. rewrite E in Hg.
      by apply Qlt_irrefl in Hg. }
  replace (Num.Qnegative g) with false.
  2:{ symmetry. apply NumFacts.Qnegative_false. by apply Qlt_le_weak. }
  reflexivity.
Qed.

(** The same value when the ratio is -inf, as a negative zero of binary64
    would give. *)
Lemma rsi_of_infinite_ratio :
  (Num.of_Z 100 - Num.of_Z 100 / (Num.of_Z 1 + PInf))%num = Num.of_Z 100
  /\ (Num.of_Z 100 - Num.of_Z 100 / (Num.of_Z 1 + NInf))%num = Num.of_Z 100.
Proof. split; reflexivity. Qed.

(** *** Sums of non-negative cells *)

Lemma positive_nonneg (x : num) : positive_ x -> nonneg x.
Proof. intros (q & -> & H). exists q. split; [done | by apply Qlt_le_weak]. Qed.

Lemma sum_cons (x : num) (s : pd.Series) : pd.sum (x :: s) = (x + pd.sum s)%num.
Proof. reflexivity. Qed.

Lemma add_nonneg (x y : num) : nonneg x -> nonneg y -> nonneg (x + y)%num.
Proof.
  intros (q & -> & Hq) (r & -> & Hr). eexists. split; [reflexivity|].
  rewrite Qred_correct.
  replace 0%Q with (0 + 0)%Q by reflexivity. by apply Qplus_le_compat.
Qed.

Lemma add_positive_l (x y : num) : positive_ x -> nonneg y -> positive_ (x + y)%num.
Proof.
  intros (q & -> & Hq) (r & -> & Hr). eexists. split; [reflexivity|].
  rewrite Qred_correct.
  replace 0%Q with (0 + 0)%Q by reflexivity. by apply Qplus_lt_le_compat.
Qed.

Lemma sum_nonneg (s : pd.Series) : Forall nonneg s -> nonneg (pd.sum s).
Proof.
  induction 1 as [|x s Hx _ IH].
  - exists 0%Q. split; [reflexivity | apply Qle_refl].
  - rewrite sum_cons. by apply add_nonneg.
Qed.

Lemma sum_positive (s : pd.Series) :
  Forall nonneg s -> Exists positive_ s -> positive_ (pd.sum s).
Proof.
  induction 1 as [|x s Hx Hs IH]; intros Hex.
  - by apply Exists_nil in Hex.
  - rewrite sum_cons. apply Exists_cons in Hex as [Hpos|Hex].
    + apply add_positive_l; [done | by apply sum_nonneg].
    + rewrite NumFacts.add_comm. apply add_positive_l; [by apply IH | done].
Qed.

Lemma mean_positive (s : pd.Series) :
  Forall nonneg s -> Exists positive_ s -> positive_ (pd.mean s).
Proof.
  intros Hs Hex. destruct (sum_positive s Hs Hex) as (q & Hq & Hq0).
  unfold pd.mean. rewrite Hq.
  assert (Hn : (0 < length s)%nat).
  { destruct s; [by apply Exists_nil in Hex | simpl; lia]. }
  assert (Hn' : (0 < inject_Z (Z.of_nat (length s)))%Q).
  { unfold Qlt. simpl. lia. }
  unfold Num.of_nat, Num.of_Z, Num.div.
  change (Z.of_nat (length s) # 1) with (inject_Z (Z.of_nat (length s))).
  replace (Num.Qzero (inject_Z (Z.of_nat (length s)))) with false.
  2:{ symmetry. apply NumFacts.Qzero_false. intros E. rewrite E in Hn'.
      by apply Qlt_irrefl in Hn'. }
  eexists. split; [reflexivity|]. rewrite Qred_correct.
  apply Qlt_shift_div_l; [done|]. by rewrite Qmult_0_l.
Qed.

(** *** A strictly rising close *)

Lemma strictly_rising_head (x : num) (s : pd.Series) :
  strictly_rising (x :: s) -> Num.is_finite x = true.
Proof. destruct s; simpl; tauto. Qed.

Lemma diff_from_rising (s : pd.Series) (x : num) :
  strictly_rising (x :: s) -> Forall positive_ (pd.diff_from x s).
Proof.
  revert x. induction s as [|y s IH]; intros x H; [constructor|].
  destruct H as (Hx & Hxy & Hs). simpl. constructor; [|by apply IH].
  apply strictly_rising_head in Hs.
  destruct x as [| | |a], y as [| | |b]; try discriminate.
  apply NumFacts.ltb_Fin in Hxy. eexists. split; [reflexivity|].
  rewrite Qred_correct. unfold Qminus. by rewrite <- Qlt_minus_iff.
Qed.

Lemma where_rises (d : pd.Series) :
  Forall positive_ d ->
  pd.where_ (fun d => (d >? Num.of_Z 0)%num) (Num.of_Z 0) d = d.
Proof.
  unfold pd.where_. induction 1 as [|x ds (q & -> & Hq) _ IH]; [done|].
  rewrite fmap_cons, IH. f_equal.
  by replace (Fin q >? Num.of_Z 0)%num with true
    by (symmetry; by apply NumFacts.ltb_Fin).
Qed.

Lemma where_falls (d : pd.Series) :
  Forall positive_ d ->
  Num.neg <$> pd.where_ (fun d => (d <? Num.of_Z 0)%num) (Num.of_Z 0) d
  = replicate (length d) (Num.of_Z 0).
Proof.
  unfold pd.where_. induction 1 as [|x ds (q & -> & Hq) _ IH]; [done|].
  rewrite !fmap_cons, IH. cbn [length replicate]. f_equal.
  replace (Fin q <? Num.of_Z 0)%num with false; [reflexivity|].
  symmetry. cbn [Num.ltb Num.of_Z]. apply negb_false_iff, Qle_bool_iff.
  by apply Qlt_le_weak.
Qed.

Lemma gains_rising (x : num) (s : pd.Series) :
  strictly_rising (x :: s) -> gains (x :: s) = Num.of_Z 0 :: pd.diff_from x s.
Proof.
  intros H. apply diff_from_rising in H.
  unfold gains. cbn [pd.diff].
  change (pd.where_ ?f ?o (NaN :: ?d)) with (o :: pd.where_ f o d).
  by rewrite where_rises.
Qed.

Lemma losses_rising (s : pd.Series) :
  strictly_rising s -> losses s = replicate (length s) (Num.of_Z 0).
Proof.
  destruct s as [|x s]; [done|]. intros H. apply diff_from_rising in H.
  assert (Hd : length (pd.diff_from x s) = length s).
  { pose proof (pdFacts.length_diff (x :: s)) as E. simpl in E. lia. }
  unfold losses. cbn [pd.diff].
  change (pd.where_ ?f ?o (NaN :: ?d)) with (o :: pd.where_ f o d).
  rewrite fmap_cons, where_falls, Hd by done. reflexivity.
Qed.

Lemma Exists_drop {A : Type} (P : A -> Prop) (l : list A) (k : nat) :
  Forall P l -> (k < length l)%nat -> Exists P (drop k l).
Proof.
  intros Hl Hk. destruct (drop k l) as [|y ys] eqn:E.
  - apply (f_equal length) in E. rewrite length_drop in E. simpl in E. lia.
  - apply Exists_cons_hd.
    assert (Hin : Forall P (drop k l)) by by apply Forall_drop.
    rewrite E in Hin. by apply Forall_cons in Hin as [? _].
Qed.

(** In a window of at least one cell that ends at the last of at least two
    rising bars, no rise is negative and the last one is positive. *)
Lemma gains_window_rising (w : nat) (s : pd.Series) :
  strictly_rising s -> (1 <= w)%nat -> (2 <= length s)%nat ->
  Forall nonneg (pd.tail w (gains s)) /\ Exists positive_ (pd.tail w (gains s)).
Proof.
  intros H Hw Hlen. destruct s as [|x s]; [simpl in Hlen; lia|].
  rewrite gains_rising by done. apply diff_from_rising in H.
  assert (Hd : length (pd.diff_from x s) = length s).
  { pose proof (pdFacts.length_diff (x :: s)) as E. simpl in E. lia. }
  simpl in Hlen.
  assert (Hall : Forall nonneg (Num.of_Z 0 :: pd.diff_from x s)).
  { constructor.
    - exists 0%Q. split; [reflexivity | apply Qle_refl].
    - eapply Forall_impl; [exact H | apply positive_nonneg]. }
  split; [by apply Forall_drop|].
  unfold pd.tail. cbn [length]. rewrite Hd.
  destruct (S (length s) - w)%nat as [|k] eqn:E.
  - simpl. apply Exists_cons_tl.
    destruct (pd.diff_from x s); [simpl in Hd; lia|].
    apply Exists_cons_hd. by apply Forall_cons in H as [? _].
  - simpl. apply Exists_drop; [done | lia].
Qed.

Lemma window_mean_zeros (w n : nat) :
  (1 <= w <= n)%nat -> pd.window_mean w (replicate n (Num.of_Z 0)) = Num.of_Z 0.
Proof.
  intros Hw. unfold pd.window_mean, pd.tail. rewrite length_replicate.
  replace (n <? w)%nat with false by (symmetry; apply Nat.ltb_ge; lia).
  rewrite drop_replicate. replace (n - (n - w))%nat with w by lia.
  unfold pd.mean. rewrite length_replicate.
  assert (Hs : pd.sum (replicate w (Num.of_Z 0)) = Num.of_Z 0).
  { clear Hw. induction w as [|w IH]; [done|].
    simpl replicate. rewrite sum_cons, IH. reflexivity. }
  rewrite Hs. unfold Num.of_nat, Num.of_Z, Num.div.
  replace (Num.Qzero (Z.of_nat w # 1)) with false.
  - change (Fin 0) with (Num.fin 0). apply NumFacts.fin_proper. unfold Qdiv. ring.
  - symmetry. apply NumFacts.Qzero_false. unfold Qeq. simpl. lia.
Qed.

(** The RSI of a strictly rising close of at least [period] bars. *)
Lemma current_rsi_rising (close : pd.Series) :
  strictly_rising close ->
  (config.rsi_period TECHNICAL_CONFIG <= length close)%nat ->
  current_rsi close = Num.of_Z 100.
Proof.
  cbn [config.rsi_period TECHNICAL_CONFIG]. intros H Hlen. unfold current_rsi.
  cbn [config.rsi_period TECHNICAL_CONFIG].
  rewrite losses_rising, window_mean_zeros by (done || lia).
  destruct (gains_window_rising 14 close H) as [Hnn Hex]; [lia | lia |].
  destruct (mean_positive _ Hnn Hex) as (g & Hg & Hg0).
  unfold pd.window_mean. rewrite length_gains.
  replace (length close <? 14)%nat with false by (symmetry; apply Nat.ltb_ge; lia).
  rewrite Hg. by apply rsi_of_zero_loss.
Qed.

Lemma rsi_is_100_intro (self : TechnicalAnalyzer) :
  df self <> [] ->
  current_rsi (Close <$> df self) = Num.of_Z 100 ->
  rsi_is_100 self.
Proof.
  intros Hdf Hrsi.
  destruct (calculate_rsi_leaves self Hdf) as (self' & Hr & _ & Hind & Hsig).
  exists self'. split; [exact Hr|]. rewrite Hind, Hsig, Hrsi.
  by rewrite !lookup_insert_eq.
Qed.

(** C5.  When, at the last bar, the average loss over the RSI window is zero
    and the average gain is positive, [calculate_rsi] raises nothing and the
    RSI is 100; in particular for every strictly rising close of at least
    [rsi_period] bars. *)
Theorem rsi_100_on_zero_average_loss :
  (forall (self : TechnicalAnalyzer) (gain loss : Q),
      pd.iloc (rsi_gain (config.rsi_period TECHNICAL_CONFIG) (Close <$> df self)) (-1)
      = Ok (Fin gain) ->
      pd.iloc (rsi_loss (config.rsi_period TECHNICAL_CONFIG) (Close <$> df self)) (-1)
      = Ok (Fin loss) ->
      (0 < gain)%Q -> (loss == 0)%Q ->
      rsi_is_100 self)
  /\ (forall self : TechnicalAnalyzer,
         strictly_rising (Close <$> df self) ->
         (config.rsi_period TECHNICAL_CONFIG <= length (df self))%nat ->
         rsi_is_100 self).
Proof.
  split.
  - intros self g l Hg Hl Hg0 Hl0.
    assert (Hdf : df self <> []).
    { intros E. rewrite E in Hg. by rewrite pdFacts.iloc_empty in Hg. }
    assert (Hc : Close <$> df self <> []) by by apply fmap_nonempty.
    apply rsi_is_100_intro; [done|].
    unfold rsi_gain, rsi_loss, pd.rolling_mean in Hg, Hl.
    rewrite pdFacts.iloc_rolling_last in Hg
      by (apply (nonempty_length _ (Close <$> df self)); [apply length_gains | done]).
    rewrite pdFacts.iloc_rolling_last in Hl
      by (apply (nonempty_length _ (Close <$> df self)); [apply length_losses | done]).
    injection Hg as Hg. injection Hl as Hl.
    unfold current_rsi. cbn [config.rsi_period TECHNICAL_CONFIG] in *.
    rewrite Hg, Hl. by apply rsi_of_zero_loss.
  - intros self Hrise Hlen.
    apply rsi_is_100_intro.
    + intros E. rewrite E in Hlen. simpl in Hlen. lia.
    + apply current_rsi_rising; [done | by rewrite length_fmap].
Qed.

Lemma rsi_100_on_zero_average_loss_witness : rsi_is_100 (init rising_bars).
Proof.
  apply (proj2 rsi_100_on_zero_average_loss (init rising_bars)).
  - simpl. repeat split.
  - simpl. lia.
Defined.

Example rsi_rising_bars :
  (self ← calculate_rsi (init rising_bars); mret (indicators self !! "rsi"))
  = Ok (Some (VNum (Num.of_Z 100))).
Proof. vm_compute. reflexivity. Qed.

(** *** The true range and the ATR *)

Lemma true_range_rows (bars : list PriceBar) (prev : num) :
  zip_with (fun a bc => pd.row_max [a; bc.1; bc.2])
    (zip_with Num.sub (High <$> bars) (Low <$> bars))
    (zip (Num.abs <$> zip_with Num.sub (High <$> bars)
                        (prev :: removelast (Close <$> bars)))
         (Num.abs <$> zip_with Num.sub (Low <$> bars)
                        (prev :: removelast (Close <$> bars))))
  = tr_from prev bars.
Proof.
  revert prev. induction bars as [|b bars IH]; intros prev; [done|].
  destruct bars as [|b' bars'].
  - reflexivity.
  - rewrite !fmap_cons.
    change (removelast (Close b :: Close b' :: (Close <$> bars')))
      with (Close b :: removelast (Close <$> (b' :: bars'))).
    cbn [zip_with fmap list_fmap tr_from].
    f_equal. specialize (IH (Close b)). rewrite !fmap_cons in IH.
    cbn [zip_with fmap list_fmap tr_from] in IH. exact IH.
Qed.

Lemma true_range_tr_from (bars : list PriceBar) : true_range bars = tr_from NaN bars.
Proof.
  destruct bars as [|b bars]; [done|].
  unfold true_range. rewrite <- true_range_rows. reflexivity.
Qed.

Lemma length_tr_from (bars : list PriceBar) (prev : num) :
  length (tr_from prev bars) = length bars.
Proof.
  revert prev. induction bars as [|b bars IH]; intros prev; [done|].
  simpl. by rewrite IH.
Qed.

Lemma length_true_range (bars : list PriceBar) : length (true_range bars) = length bars.
Proof. rewrite true_range_tr_from. apply length_tr_from. Qed.

Lemma calculate_atr_leaves (self : TechnicalAnalyzer) :
  df self <> [] ->
  leaves (calculate_atr self) self
    (<["atr" := VNum (current_atr (df self))]> (indicators self))
    (signals self).
Proof.
  intros Hdf. unfold calculate_atr, leaves, pd.rolling_mean.
  rewrite pdFacts.iloc_rolling_last.
  - cbn [mbind mret result_bind result_ret]. eexists. split; [reflexivity|].
    repeat split.
  - apply (nonempty_length _ (df self)); [apply length_true_range | done].
Qed.

Lemma Qred_self_sub (p : Q) : Qred (p - p) = 0%Q.
Proof. change 0%Q with (Qred 0). apply Qred_complete. ring. Qed.

(** On a flat series every true range is 0. *)
Lemma tr_from_flat (p : Q) (bars : list PriceBar) (prev : num) :
  flat_at p bars -> prev = NaN \/ prev = Fin p ->
  tr_from prev bars = replicate (length bars) (Num.of_Z 0).
Proof.
  intros Hflat. revert prev.
  induction Hflat as [|b bars (Hh & Hl & Hc) _ IH]; intros prev Hprev; [done|].
  cbn [tr_from length replicate]. rewrite (IH (Close b)) by (right; done).
  f_equal. unfold tr_row. rewrite Hh, Hl.
  destruct Hprev as [-> | ->]; cbn [Num.sub Num.abs]; unfold Num.fin;
    rewrite !Qred_self_sub; reflexivity.
Qed.

Lemma current_atr_flat (p : Q) (bars : list PriceBar) :
  flat_at p bars ->
  (config.rsi_period TECHNICAL_CONFIG <= length bars)%nat ->
  current_atr bars = Num.of_Z 0.
Proof.
  cbn [config.rsi_period TECHNICAL_CONFIG]. intros Hflat Hlen.
  unfold current_atr. cbn [config.rsi_period TECHNICAL_CONFIG].
  rewrite true_range_tr_from, (tr_from_flat p) by (done || by left).
  apply window_mean_zeros. lia.
Qed.

(** The two candidate stops and the choice between them. *)
Lemma atr_stop_loss_eq (self : SignalGenerator) :
  atr_stop_loss (risk_locals self)
  = (current_price self - atr self * config.atr_multiplier RISK_CONFIG)%num.
Proof. unfold risk_locals. by destruct (_ >? _)%num. Qed.

Lemma pct_stop_loss_eq (self : SignalGenerator) :
  pct_stop_loss (risk_locals self)
  = (current_price self * (Num.of_Z 1 - config.stop_loss_pct RISK_CONFIG))%num.
Proof. unfold risk_locals. by destruct (_ >? _)%num. Qed.

Lemma stop_loss_choice (self : SignalGenerator) :
  stop_loss_method (risk_locals self)
  = (if (atr_stop_loss (risk_locals self) >? pct_stop_loss (risk_locals self))%num
     then ATR else fixed_pct)
  /\ stop_loss (risk_locals self)
     = (if (atr_stop_loss (risk_locals self) >? pct_stop_loss (risk_locals self))%num
        then atr_stop_loss (risk_locals self) else pct_stop_loss (risk_locals self)).
Proof.
  rewrite atr_stop_loss_eq, pct_stop_loss_eq. unfold risk_locals.
  by destruct (_ >? _)%num.
Qed.

(** With an ATR of 0 and a price above 0 the ATR stop is the price itself,
    which is above the fixed stop, 97% of the price. *)
Lemma zero_atr_stop (technical_score sentiment_score : num) (p : Q) :
  (0 < p)%Q ->
  atr_stop_loss (risk_locals (SignalGenerator_init technical_score sentiment_score
                                (Fin p) (Num.of_Z 0)))
  = Num.fin p
  /\ (atr_stop_loss (risk_locals (SignalGenerator_init technical_score sentiment_score
                                    (Fin p) (Num.of_Z 0)))
      >? pct_stop_loss (risk_locals (SignalGenerator_init technical_score sentiment_score
                                       (Fin p) (Num.of_Z 0))))%num = true.
Proof.
  intros Hp. rewrite atr_stop_loss_eq, pct_stop_loss_eq.
  unfold SignalGenerator_init. cbn [current_price atr].
  unfold Num.gtb. cbn [config.atr_multiplier config.stop_loss_pct RISK_CONFIG
    Num.of_Z Num.mul Num.sub]. unfold Num.fin. split.
  - f_equal. apply Qred_complete. rewrite Qred_correct. ring.
  - apply NumFacts.ltb_Fin. rewrite !Qred_correct. lra.
Qed.

Lemma flat_closes (p : Q) (bars : list PriceBar) :
  flat_at p bars -> Close <$> bars = replicate (length bars) (Fin p).
Proof.
  induction 1 as [|b bars (_ & _ & Hc) _ IH]; [done|].
  rewrite fmap_cons, Hc, IH. reflexivity.
Qed.

Lemma flat_current_price (self : TechnicalAnalyzer) (p : Q) :
  flat_at p (df self) -> df self <> [] -> get_current_price self = Ok (Fin p).
Proof.
  intros Hflat Hdf. unfold get_current_price. rewrite (flat_closes p) by done.
  change (-1) with (- Z.of_nat 1).
  assert (Hn : (1 <= length (df self))%nat).
  { destruct (df self); [done | simpl; lia]. }
  apply pdFacts.iloc_from_end; rewrite length_replicate; [lia|].
  apply lookup_replicate_2. lia.
Qed.

(** C7, as the code has it.  On a flat series (high = low = close = p at
    every bar, p above 0, at least the 14 bars of the ATR window) the ATR is
    0 and the chosen stop-loss method is ATR: the ATR stop collapses to the
    current price, which is strictly higher than the fixed-percentage stop,
    97% of the price. *)
Theorem flat_series_chooses_ATR (self : TechnicalAnalyzer) (p : Q)
    (technical_score sentiment_score : num) :
  (0 < p)%Q ->
  flat_at p (df self) ->
  (config.rsi_period TECHNICAL_CONFIG <= length (df self))%nat ->
  exists self',
    calculate_atr self = Ok self'
    /\ indicators self' !! "atr" = Some (VNum (Num.of_Z 0))
    /\ get_current_price self = Ok (Fin p)
    /\ stop_loss_method
         (risk_locals (SignalGenerator_init technical_score sentiment_score
                         (Fin p) (Num.of_Z 0))) = ATR
    /\ stop_loss
         (risk_locals (SignalGenerator_init technical_score sentiment_score
                         (Fin p) (Num.of_Z 0))) = Num.fin p
    /\ (pct_stop_loss
          (risk_locals (SignalGenerator_init technical_score sentiment_score
                          (Fin p) (Num.of_Z 0))) <? Num.fin p)%num = true.
Proof.
  intros Hp Hflat Hlen.
  assert (Hdf : df self <> []).
  { intros E. rewrite E in Hlen. simpl in Hlen. lia. }
  destruct (calculate_atr_leaves self Hdf) as (self' & Hr & _ & Hind & _).
  destruct (zero_atr_stop technical_score sentiment_score p Hp) as [Hstop Hgt].
  destruct (stop_loss_choice (SignalGenerator_init technical_score sentiment_score
                                (Fin p) (Num.of_Z 0))) as [Hm Hs].
  rewrite Hgt in Hm, Hs.
  exists self'. split; [exact Hr|]. split.
  { rewrite Hind, (current_atr_flat p) by done. by rewrite lookup_insert_eq. }
  split; [by apply flat_current_price|].
  split; [exact Hm|]. split; [by rewrite Hs|].
  by rewrite <- Hstop.
Qed.

Lemma flat_series_chooses_ATR_witness :
  exists self',
    calculate_atr (init flat_bars) = Ok self'
    /\ indicators self' !! "atr" = Some (VNum (Num.of_Z 0))
    /\ get_current_price (init flat_bars) = Ok (Fin 100)
    /\ stop_loss_method
         (risk_locals (SignalGenerator_init (Num.of_Z 0) (Num.of_Z 0)
                         (Fin 100) (Num.of_Z 0))) = ATR
    /\ stop_loss
         (risk_locals (SignalGenerator_init (Num.of_Z 0) (Num.of_Z 0)
                         (Fin 100) (Num.of_Z 0))) = Num.fin 100
    /\ (pct_stop_loss
          (risk_locals (SignalGenerator_init (Num.of_Z 0) (Num.of_Z 0)
                          (Fin 100) (Num.of_Z 0))) <? Num.fin 100)%num = true.
Proof.
  apply (flat_series_chooses_ATR (init flat_bars) 100 (Num.of_Z 0) (Num.of_Z 0)).
  - reflexivity.
  - unfold flat_at, flat_bars. simpl. repeat constructor.
  - simpl. lia.
Defined.

(** C7, as stated, fails: [analyze] on fourteen flat bars at 100 finds an ATR
    of 0 and chooses the ATR stop, at the price itself. *)
Lemma flat_series_not_fixed_pct :
  (sg ← analyze Qsqrt_trunc flat_bars (Num.of_Z 0);
   mret (current_price sg, atr sg, stop_loss_method (risk_locals sg),
         stop_loss (risk_locals sg),
         rm_stop_loss_method (calculate_risk_metrics sg)))
  = Ok (Num.of_Z 100, Num.of_Z 0, ATR, Num.of_Z 100, "ATR").
Proof. vm_compute. reflexivity. Qed.

Lemma iloc_from_end_ok (s : pd.Series) (k : nat) :
  (1 <= k <= length s)%nat -> pd.iloc s (- Z.of_nat k) = Ok (from_end k s).
Proof.
  intros Hk. unfold from_end.
  destruct (lookup_lt_is_Some_2 s (length s - k)%nat) as [x Hx]; [lia|].
  rewrite Hx. by apply pdFacts.iloc_from_end.
Qed.

Lemma iloc_last_ok (s : pd.Series) : s <> [] -> pd.iloc s (-1) = Ok (from_end 1 s).
Proof.
  intros Hs. apply (iloc_from_end_ok s 1). destruct s; [done | simpl; lia].
Qed.

Lemma iloc_zip_rolling_last (f : num -> num -> num) (c1 c2 : pd.Series -> num)
    (s : pd.Series) :
  s <> [] ->
  pd.iloc (zip_with f (pd.rolling c1 s) (pd.rolling c2 s)) (-1) = Ok (f (c1 s) (c2 s)).
Proof.
  intros Hs. change (-1) with (- Z.of_nat 1).
  apply pdFacts.iloc_zip_with; [done | | |].
  - by rewrite !pdFacts.length_rolling.
  - by apply pdFacts.iloc_rolling_last.
  - by apply pdFacts.iloc_rolling_last.
Qed.

Lemma length_MACD_line (close : pd.Series) : length (MACD_line close) = length close.
Proof.
  unfold MACD_line.
  rewrite length_zip_with_l_eq by (by rewrite !pdFacts.length_ewm_mean).
  apply pdFacts.length_ewm_mean.
Qed.

Lemma length_MACD_signal_line (close : pd.Series) :
  length (MACD_signal_line close) = length close.
Proof.
  unfold MACD_signal_line. by rewrite pdFacts.length_ewm_mean, length_MACD_line.
Qed.

Lemma length_MACD_hist_line (close : pd.Series) :
  length (MACD_hist_line close) = length close.
Proof.
  unfold MACD_hist_line.
  rewrite length_zip_with_l_eq
    by (by rewrite length_MACD_line, length_MACD_signal_line).
  apply length_MACD_line.
Qed.

Lemma calculate_macd_leaves (self : TechnicalAnalyzer) :
  leaves (calculate_macd self) self
    (macd_indicators (Close <$> df self) (indicators self))
    (macd_signals (Close <$> df self) (signals self)).
Proof.
  unfold calculate_macd, leaves, macd_indicators, macd_signals.
  rewrite length_fmap. cbn [df set_column].
  destruct (2 <=? length (df self))%nat eqn:E.
  - apply Nat.leb_le in E.
    fold (MACD_line (Close <$> df self)).
    fold (MACD_signal_line (Close <$> df self)).
    fold (MACD_hist_line (Close <$> df self)).
    change (-1) with (- Z.of_nat 1). change (-2) with (- Z.of_nat 2).
    rewrite !iloc_from_end_ok
      by (rewrite ?length_MACD_line, ?length_MACD_signal_line,
            ?length_MACD_hist_line, length_fmap; lia).
    cbn [mbind mret result_bind result_ret].
    eexists. split; [reflexivity|]. repeat split.
  - eexists. split; [reflexivity|]. repeat split.
Qed.

Lemma calculate_bollinger_bands_leaves (Qsqrt : Q -> Q) (self : TechnicalAnalyzer) :
  df self <> [] ->
  leaves (calculate_bollinger_bands Qsqrt self) self
    (bollinger_indicators Qsqrt (Close <$> df self) (indicators self))
    (<["bollinger" := bollinger_label (from_end 1 (Close <$> df self))
                        (bb_upper_at Qsqrt (Close <$> df self))
                        (bb_lower_at Qsqrt (Close <$> df self))]> (signals self)).
Proof.
  intros Hdf. assert (Hc : Close <$> df self <> []) by by apply fmap_nonempty.
  unfold calculate_bollinger_bands, leaves, bollinger_indicators.
  cbn [df set_column]. unfold pd.rolling_mean, pd.rolling_std.
  rewrite !iloc_zip_rolling_last, pdFacts.iloc_rolling_last, iloc_last_ok by done.
  cbn [mbind mret result_bind result_ret].
  eexists. split; [reflexivity|]. repeat split.
Qed.

Lemma calculate_volume_indicators_leaves (self : TechnicalAnalyzer) :
  df self <> [] ->
  leaves (calculate_volume_indicators self) self
    (<["volume_ratio" := VNum (current_volume_ratio (Volume <$> df self)
                                 (from_end 1 (Volume <$> df self)))]>
       (indicators self))
    (<["volume" := volume_label (current_volume_ratio (Volume <$> df self)
                                   (from_end 1 (Volume <$> df self)))]>
       (signals self)).
Proof.
  intros Hdf. assert (Hv : Volume <$> df self <> []) by by apply fmap_nonempty.
  unfold calculate_volume_indicators, leaves. cbn [df set_column].
  unfold pd.rolling_mean.
  rewrite pdFacts.iloc_rolling_last, iloc_last_ok by done.
  cbn [mbind mret result_bind result_ret].
  eexists. split; [reflexivity|]. repeat split.
Qed.

(** *** The Bollinger position on bands of zero width *)

(** Line 133 divides by the band width; when the bands coincide the position
    is NaN for a close on the band and an infinity of the sign of the
    distance otherwise: never a finite number. *)
Lemma bb_position_of_zero_width (price : num) (u l : Q) :
  (u == l)%Q ->
  Num.is_finite (bb_position_of price (Fin u) (Fin l)) = false
  /\ (Num.eqb price (Fin l) = true -> bb_position_of price (Fin u) (Fin l) = NaN)
  /\ ((price >? Fin l)%num = true -> bb_position_of price (Fin u) (Fin l) = PInf)
  /\ ((price <? Fin l)%num = true -> bb_position_of price (Fin u) (Fin l) = NInf).
Proof.
  intros Hul. unfold bb_position_of.
  assert (Hw : (Fin u - Fin l)%num = Num.of_Z 0).
  { cbn [Num.sub]. change (Num.of_Z 0) with (Num.fin 0).
    apply NumFacts.fin_proper. rewrite Hul. ring. }
  rewrite Hw. destruct price as [| | |c]; try by (repeat split).
  unfold Num.of_Z, Num.sub, Num.div, Num.fin.
  change (Num.Qzero (0 # 1)) with true. cbv iota.
  destruct (Num.Qzero (Qred (c - l))) eqn:Z.
  - apply NumFacts.Qzero_true in Z. rewrite Qred_correct in Z.
    split; [reflexivity|]. split; [done|].
    unfold Num.gtb. rewrite !NumFacts.ltb_Fin. split; intros H; exfalso; lra.
  - apply NumFacts.Qzero_false in Z. rewrite Qred_correct in Z.
    unfold Num.gtb. rewrite !NumFacts.ltb_Fin. cbn [Num.eqb].
    destruct (Num.Qnegative (Qred (c - l))) eqn:N; cbn [Num.inf Num.mul];
      change (Num.Qzero (100 # 1)) with false;
      change (Num.Qnegative (100 # 1)) with false; cbv iota; cbn [Num.inf negb].
    + assert (Hlt : (c < l)%Q).
      { apply Qnot_le_lt. intros Hle.
        assert (Hle' : (0 <= Qred (c - l))%Q) by (rewrite Qred_correct; lra).
        apply NumFacts.Qnegative_false in Hle'. congruence. }
      split; [reflexivity|]. split.
      { intros H. apply Qeq_bool_iff in H. exfalso. lra. }
      split; intros H; [exfalso; lra | reflexivity].
    + apply NumFacts.Qnegative_false in N. rewrite Qred_correct in N.
      split; [reflexivity|]. split.
      { intros H. apply Qeq_bool_iff in H. exfalso. apply Z. lra. }
      split; intros H; [reflexivity | exfalso; lra].
Qed.

(** C6, as the code has it.  When the upper and the lower band coincide at
    the latest bar, [calculate_bollinger_bands] raises nothing and reports a
    [bb_position] that is not a finite number: NaN when the close is on the
    band (as for constant closes), +inf or -inf when it is above or below. *)
Theorem bb_position_on_zero_width (Qsqrt : Q -> Q) (self : TechnicalAnalyzer) (u l : Q) :
  df self <> [] ->
  bb_upper_at Qsqrt (Close <$> df self) = Fin u ->
  bb_lower_at Qsqrt (Close <$> df self) = Fin l ->
  (u == l)%Q ->
  exists self' position,
    calculate_bollinger_bands Qsqrt self = Ok self'
    /\ indicators self' !! "bb_upper" = Some (VNum (Fin u))
    /\ indicators self' !! "bb_lower" = Some (VNum (Fin l))
    /\ indicators self' !! "bb_position" = Some (VNum position)
    /\ Num.is_finite position = false
    /\ (Num.eqb (from_end 1 (Close <$> df self)) (Fin l) = true -> position = NaN)
    /\ ((from_end 1 (Close <$> df self) >? Fin l)%num = true -> position = PInf)
    /\ ((from_end 1 (Close <$> df self) <? Fin l)%num = true -> position = NInf).
Proof.
  intros Hdf Hu Hl Hul.
  destruct (calculate_bollinger_bands_leaves Qsqrt self Hdf)
    as (self' & Hr & _ & Hind & _).
  exists self', (bb_position_of (from_end 1 (Close <$> df self)) (Fin u) (Fin l)).
  split; [exact Hr|]. rewrite Hind. unfold bollinger_indicators. rewrite Hu, Hl.
  split; [by map_lookup|]. split; [by map_lookup|]. split; [by map_lookup|].
  by apply bb_position_of_zero_width.
Qed.

Lemma bb_position_on_zero_width_witness :
  exists self' position,
    calculate_bollinger_bands Qsqrt_trunc (init flat_bars_20) = Ok self'
    /\ indicators self' !! "bb_upper" = Some (VNum (Fin 100))
    /\ indicators self' !! "bb_lower" = Some (VNum (Fin 100))
    /\ indicators self' !! "bb_position" = Some (VNum position)
    /\ Num.is_finite position = false
    /\ (Num.eqb (from_end 1 (Close <$> df (init flat_bars_20))) (Fin 100) = true
        -> position = NaN)
    /\ ((from_end 1 (Close <$> df (init flat_bars_20)) >? Fin 100)%num = true
        -> position = PInf)
    /\ ((from_end 1 (Close <$> df (init flat_bars_20)) <? Fin 100)%num = true
        -> position = NInf).
Proof.
  apply (bb_position_on_zero_width Qsqrt_trunc (init flat_bars_20) 100 100).
  - discriminate.
  - vm_compute. reflexivity.
  - vm_compute. reflexivity.
  - reflexivity.
Defined.

(** C6, as stated, fails: on twenty constant closes at 100 both bands are at
    100 and the position reported is NaN, not 50. *)
Lemma flat_series_bb_position_not_50 :
  (self ← calculate_bollinger_bands Qsqrt_trunc (init flat_bars_20);
   mret (indicators self !! "bb_upper", indicators self !! "bb_lower",
         indicators self !! "bb_position"))
  = Ok (Some (VNum (Num.of_Z 100)), Some (VNum (Num.of_Z 100)), Some (VNum NaN))
  /\ Num.eqb NaN (Num.of_Z 50) = false.
Proof. split; vm_compute; reflexivity. Qed.

Lemma calculate_all_leaves (Qsqrt : Q -> Q) (self : TechnicalAnalyzer) :
  df self <> [] ->
  leaves (calculate_all Qsqrt self) self
    (all_indicators Qsqrt (df self) (indicators self))
    (all_signals Qsqrt (df self) (signals self)).
Proof.
  intros Hdf. unfold calculate_all, all_indicators, all_signals.
  destruct (calculate_ma_leaves self Hdf) as (s1 & -> & D1 & I1 & S1).
  rewrite <- D1 in Hdf.
  destruct (calculate_rsi_leaves s1 Hdf) as (s2 & R2 & D2 & I2 & S2).
  rewrite <- D2 in Hdf.
  destruct (calculate_macd_leaves s2) as (s3 & R3 & D3 & I3 & S3).
  rewrite <- D3 in Hdf.
  destruct (calculate_bollinger_bands_leaves Qsqrt s3 Hdf) as (s4 & R4 & D4 & I4 & S4).
  rewrite <- D4 in Hdf.
  destruct (calculate_volume_indicators_leaves s4 Hdf) as (s5 & R5 & D5 & I5 & S5).
  rewrite <- D5 in Hdf.
  destruct (calculate_atr_leaves s5 Hdf) as (s6 & R6 & D6 & I6 & S6).
  cbn [mbind result_bind]. rewrite R2. cbn [mbind result_bind].
  rewrite R3. cbn [mbind result_bind]. rewrite R4. cbn [mbind result_bind].
  rewrite R5. cbn [mbind result_bind].
  exists s6. split; [exact R6|].
  rewrite D6, I6, S6, D5, I5, S5, D4, I4, S4, D3, I3, S3, D2, I2, S2, D1, I1, S1.
  repeat split.
Qed.

(** *** Too short a series *)

Lemma current_rsi_short (close : pd.Series) :
  (length close < 14)%nat -> current_rsi close = NaN.
Proof.
  intros H. unfold current_rsi. cbn [config.rsi_period TECHNICAL_CONFIG].
  by rewrite !pdFacts.window_mean_short by (by rewrite ?length_gains, ?length_losses).
Qed.

Lemma current_atr_short (bars : list PriceBar) :
  (length bars < 14)%nat -> current_atr bars = NaN.
Proof.
  intros H. unfold current_atr. cbn [config.rsi_period TECHNICAL_CONFIG].
  by rewrite pdFacts.window_mean_short by (by rewrite length_true_range).
Qed.

Lemma bollinger_short (Qsqrt : Q -> Q) (close : pd.Series) :
  (length close < 20)%nat ->
  bb_middle_at close = NaN /\ bb_upper_at Qsqrt close = NaN
  /\ bb_lower_at Qsqrt close = NaN.
Proof.
  intros H. unfold bb_upper_at, bb_lower_at, bb_middle_at, bb_std_at.
  cbn [config.bb_period TECHNICAL_CONFIG].
  by rewrite pdFacts.window_mean_short, pdFacts.window_std_short.
Qed.

Lemma bb_position_of_nan (price : num) : bb_position_of price NaN NaN = NaN.
Proof. by destruct price. Qed.

Lemma bollinger_label_nan (price : num) : bollinger_label price NaN NaN = "within_bands".
Proof. by destruct price. Qed.

Lemma current_volume_ratio_short (volume : pd.Series) (current_volume : num) :
  (length volume < 20)%nat -> current_volume_ratio volume current_volume = Num.of_Z 1.
Proof.
  intros H. unfold current_volume_ratio. cbn [config.volume_ma_period TECHNICAL_CONFIG].
  by rewrite pdFacts.window_mean_short.
Qed.

Lemma ma_alignment_label_short (close : pd.Series) :
  (length close < 50)%nat -> ma_alignment_label close = "mixed".
Proof.
  intros H. unfold ma_alignment_label, ma_values.
  cbn [config.ma_periods TECHNICAL_CONFIG fmap list_fmap].
  rewrite (pdFacts.window_mean_short 50) by done.
  cbn [all_adjacent]. unfold Num.gtb.
  destruct (pd.window_mean 20 close); cbn [Num.ltb]; by rewrite !andb_false_r.
Qed.

Lemma ma_crossover_short (close : pd.Series) :
  (length close < 21)%nat -> ma_crossover 5 20 close = "none".
Proof.
  intros H. unfold ma_crossover, sma.
  rewrite (pdFacts.window_mean_short 20 (take (length close - 1) close))
    by (rewrite length_take; lia).
  unfold Num.geb. by destruct (pd.window_mean 5 (take (length close - 1) close)).
Qed.

(** C8, as the code has it.  On every non-empty series [calculate_all]
    raises nothing.  An indicator whose window is longer than the series is
    reported as NaN (RSI and ATR: 14 bars; the Bollinger values: 20 bars),
    except that the volume ratio falls back to 1 and the alignment of the
    moving averages to mixed; the MACD entries are missing on a single bar.
    Each of them then adds exactly 0 to the trend score, which is returned
    within [-100, 100], and is 0 on a single bar. *)
Theorem short_series_not_available (Qsqrt : Q -> Q) (bars : list PriceBar) :
  bars <> [] ->
  exists self,
    calculate_all Qsqrt (init bars) = Ok self
    /\ ((length bars < 14)%nat ->
        indicators self !! "rsi" = Some (VNum NaN)
        /\ indicators self !! "atr" = Some (VNum NaN)
        /\ rsi_points self = Ok 0)
    /\ ((length bars < 20)%nat ->
        indicators self !! "bb_upper" = Some (VNum NaN)
        /\ indicators self !! "bb_middle" = Some (VNum NaN)
        /\ indicators self !! "bb_lower" = Some (VNum NaN)
        /\ indicators self !! "bb_position" = Some (VNum NaN)
        /\ bollinger_points self = 0)
    /\ ((length bars < 20)%nat ->
        indicators self !! "volume_ratio" = Some (VNum (Num.of_Z 1))
        /\ forall running, volume_points self running = 0)
    /\ ((length bars < 50)%nat ->
        indicators self !! "ma_alignment" = Some (VStr "mixed")
        /\ ma_alignment_points self = 0)
    /\ ((length bars < 21)%nat -> ma_cross_points self = 0)
    /\ ((length bars < 2)%nat ->
        indicators self !! "macd_hist" = None
        /\ signals self !! "macd" = None
        /\ macd_points self = Ok 0
        /\ get_trend_score self = Ok 0)
    /\ exists score, get_trend_score self = Ok score /\ -100 <= score <= 100.
Proof.
  intros Hbars.
  destruct (calculate_all_leaves Qsqrt (init bars) Hbars) as (self & Hr & _ & Hind & Hsig).
  cbn [df indicators signals init] in Hind, Hsig.
  assert (Hrsi : (length bars < 14)%nat ->
                 indicators self !! "rsi" = Some (VNum NaN) /\ rsi_points self = Ok 0).
  { intros H. assert (E : indicators self !! "rsi" = Some (VNum NaN)).
    { rewrite Hind. all_lookup; by rewrite current_rsi_short by (by rewrite length_fmap). }
    split; [exact E|]. unfold rsi_points, indicator_num. by rewrite E. }
  assert (Hboll : (length bars < 20)%nat -> bollinger_points self = 0).
  { intros H. unfold bollinger_points, signal_is. rewrite Hsig.
    destruct (bollinger_short Qsqrt (Close <$> bars)) as (_ & Eu & El);
      [by rewrite length_fmap|].
    all_lookup; by rewrite Eu, El, bollinger_label_nan. }
  assert (Hvol : (length bars < 20)%nat -> forall running, volume_points self running = 0).
  { intros H running. unfold volume_points, signal_is. rewrite Hsig.
    all_lookup; by rewrite current_volume_ratio_short by (by rewrite length_fmap). }
  assert (Hal : (length bars < 50)%nat ->
                indicators self !! "ma_alignment" = Some (VStr "mixed")
                /\ ma_alignment_points self = 0).
  { intros H. assert (E : indicators self !! "ma_alignment" = Some (VStr "mixed")).
    { rewrite Hind.
      all_lookup; by rewrite ma_alignment_label_short by (by rewrite length_fmap). }
    split; [exact E|]. unfold ma_alignment_points, indicator_is. by rewrite E. }
  assert (Hcross : (length bars < 21)%nat -> ma_cross_points self = 0).
  { intros H. unfold ma_cross_points, signal_is. rewrite Hsig.
    unfold all_signals, macd_signals. rewrite length_fmap.
    destruct (2 <=? length bars)%nat; map_lookup;
      rewrite ?ma_crossover_short by (by rewrite length_fmap); by rewrite ?lookup_empty. }
  assert (Hmacd : (length bars < 2)%nat ->
                  indicators self !! "macd_hist" = None
                  /\ signals self !! "macd" = None /\ macd_points self = Ok 0).
  { intros H.
    assert (E2 : (2 <=? length bars)%nat = false) by (apply Nat.leb_gt; lia).
    assert (E : indicators self !! "macd_hist" = None).
    { rewrite Hind. unfold all_indicators, bollinger_indicators, macd_indicators.
      rewrite length_fmap, E2. by map_lookup. }
    assert (E' : signals self !! "macd" = None).
    { rewrite Hsig. unfold all_signals, macd_signals.
      rewrite length_fmap, E2. by map_lookup. }
    split; [exact E|]. split; [exact E'|].
    unfold macd_points, signal_is, indicator_num. by rewrite E, E'. }
  assert (Hnum : numeric_entries self).
  { split; rewrite Hind; all_lookup; done. }
  destruct (pre_volume_total_returns self Hnum) as [pre Hpre].
  exists self. split; [exact Hr|].
  split.
  { intros H. destruct (Hrsi H) as [? ?]. repeat split; try done.
    rewrite Hind. all_lookup; by rewrite current_atr_short. }
  split.
  { intros H. destruct (bollinger_short Qsqrt (Close <$> bars)) as (Em & Eu & El);
      [by rewrite length_fmap|].
    repeat split; try (by apply Hboll);
      rewrite Hind; unfold all_indicators, bollinger_indicators;
      rewrite ?Em, ?Eu, ?El, ?bb_position_of_nan; by map_lookup. }
  split.
  { intros H. split; [|by apply Hvol].
    rewrite Hind. all_lookup; by rewrite current_volume_ratio_short by (by rewrite length_fmap). }
  split; [exact Hal|]. split; [exact Hcross|]. split.
  { intros H. destruct (Hmacd H) as (E & E' & Hm).
    repeat split; try done.
    rewrite get_trend_score_rubric. unfold pre_volume_total.
    destruct Hrsi as [_ ->]; [lia|]. rewrite Hm.
    cbn [mbind mret result_bind result_ret].
    destruct Hal as [_ ->]; [lia|]. rewrite Hcross, Hboll, Hvol by lia.
    reflexivity. }
  exists (clip (pre + volume_points self pre)). split.
  - rewrite get_trend_score_rubric, Hpre. reflexivity.
  - apply clip_bounds.
Qed.

Lemma short_series_not_available_witness :
  exists self,
    calculate_all Qsqrt_trunc (init [bar_at 100]) = Ok self
    /\ ((length [bar_at 100] < 14)%nat ->
        indicators self !! "rsi" = Some (VNum NaN)
        /\ indicators self !! "atr" = Some (VNum NaN)
        /\ rsi_points self = Ok 0)
    /\ ((length [bar_at 100] < 20)%nat ->
        indicators self !! "bb_upper" = Some (VNum NaN)
        /\ indicators self !! "bb_middle" = Some (VNum NaN)
        /\ indicators self !! "bb_lower" = Some (VNum NaN)
        /\ indicators self !! "bb_position" = Some (VNum NaN)
        /\ bollinger_points self = 0)
    /\ ((length [bar_at 100] < 20)%nat ->
        indicators self !! "volume_ratio" = Some (VNum (Num.of_Z 1))
        /\ forall running, volume_points self running = 0)
    /\ ((length [bar_at 100] < 50)%nat ->
        indicators self !! "ma_alignment" = Some (VStr "mixed")
        /\ ma_alignment_points self = 0)
    /\ ((length [bar_at 100] < 21)%nat -> ma_cross_points self = 0)
    /\ ((length [bar_at 100] < 2)%nat ->
        indicators self !! "macd_hist" = None
        /\ signals self !! "macd" = None
        /\ macd_points self = Ok 0
        /\ get_trend_score self = Ok 0)
    /\ exists score, get_trend_score self = Ok score /\ -100 <= score <= 100.
Proof.
  apply (short_series_not_available Qsqrt_trunc [bar_at 100]). discriminate.
Defined.

(** C8, as stated, fails twice.  On the empty series [calculate_all] raises
    IndexError (the last cell of an empty column is read), and on a single
    bar the volume ratio, which has no 20-bar average to divide by, is
    reported as 1 and not as a missing value. *)
Lemma short_series_claim_fails :
  calculate_all Qsqrt_trunc (init []) = Raise IndexError
  /\ (self ← calculate_all Qsqrt_trunc (init [bar_at 100]);
      mret (indicators self !! "volume_ratio"))
     = Ok (Some (VNum (Num.of_Z 1)))
  /\ Num.is_nan (Num.of_Z 1) = false.
Proof. repeat split; vm_compute; reflexivity. Qed.

(** The empty series raises whatever the square root is. *)
Lemma calculate_all_empty (Qsqrt : Q -> Q) :
  calculate_all Qsqrt (init []) = Raise IndexError.
Proof. reflexivity. Qed.

(** Sixty closes rising by 1 from 100: the averages are aligned upwards, the
    RSI is 100, and the trend score is 30 + 10 - 15. *)
Example sixty_rising_bars :
  (self ← calculate_all Qsqrt_trunc
            (init ((fun i => bar_at (100 + Z.of_nat i)) <$> seq 0 60));
   score ← get_trend_score self;
   mret (indicators self !! "ma_alignment", indicators self !! "rsi",
         signals self !! "rsi", score))
  = Ok (Some (VStr "bullish"), Some (VNum (Num.of_Z 100)), Some "overbought", 25).
Proof. vm_compute. reflexivity. Qed.

(** *** Constant closes *)

Lemma tail_replicate (w n : nat) (x : num) :
  (w <= n)%nat -> pd.tail w (replicate n x) = replicate w x.
Proof.
  intros H. unfold pd.tail. rewrite length_replicate, drop_replicate.
  f_equal. lia.
Qed.

Lemma mean_constant (p : Q) :
  pd.mean (replicate 20 (Fin p)) = Num.fin p.
Proof.
  unfold pd.mean. rewrite length_replicate.
  cbn [replicate pd.sum foldr Num.add Num.of_nat Num.of_Z Z.of_nat Pos.of_succ_nat
       Pos.succ Num.div].
  unfold Num.fin. change (Num.Qzero (20 # 1)) with false. cbv iota.
  apply (f_equal Fin), Qred_complete. rewrite !Qred_correct. field.
Qed.

Lemma window_std_constant (Qsqrt : Q -> Q) (p : Q) (n : nat) :
  (Qsqrt 0 == 0)%Q -> (20 <= n)%nat ->
  pd.window_std Qsqrt 20 (replicate n (Fin p)) = Num.of_Z 0.
Proof.
  intros Hsqrt Hn. unfold pd.window_std. rewrite length_replicate.
  replace (n <? 20)%nat with false by (symmetry; apply Nat.ltb_ge; lia).
  rewrite tail_replicate, mean_constant by done.
  assert (Hdev : ((Fin p - Num.fin p) * (Fin p - Num.fin p))%num = Num.of_Z 0).
  { unfold Num.fin. cbn [Num.sub]. unfold Num.fin.
    replace (Qred (p - Qred p)) with 0%Q; [reflexivity|].
    change 0%Q with (Qred 0). apply Qred_complete. rewrite Qred_correct. ring. }
  rewrite fmap_replicate, Hdev.
  change (pd.sum (replicate 20 (Num.of_Z 0)) / Num.of_nat (20 - 1))%num with (Fin 0).
  unfold pd.sqrt. change (Num.Qnegative 0) with false. cbv iota.
  change (Num.of_Z 0) with (Num.fin 0). by apply NumFacts.fin_proper.
Qed.

(** On constant closes the two bands are on the close and the position is
    NaN, for every square root that maps 0 to 0. *)
Lemma constant_closes_bb_position (Qsqrt : Q -> Q) (self : TechnicalAnalyzer) (p : Q) :
  (Qsqrt 0 == 0)%Q ->
  Close <$> df self = replicate (length (df self)) (Fin p) ->
  (config.bb_period TECHNICAL_CONFIG <= length (df self))%nat ->
  exists self',
    calculate_bollinger_bands Qsqrt self = Ok self'
    /\ indicators self' !! "bb_upper" = Some (VNum (Num.fin p))
    /\ indicators self' !! "bb_lower" = Some (VNum (Num.fin p))
    /\ indicators self' !! "bb_position" = Some (VNum NaN).
Proof.
  cbn [config.bb_period TECHNICAL_CONFIG]. intros Hsqrt Hflat Hlen.
  assert (Hdf : df self <> []).
  { intros E. rewrite E in Hlen. simpl in Hlen. lia. }
  destruct (calculate_bollinger_bands_leaves Qsqrt self Hdf)
    as (self' & Hr & _ & Hind & _).
  assert (Hm : bb_middle_at (Close <$> df self) = Num.fin p).
  { unfold bb_middle_at. cbn [config.bb_period TECHNICAL_CONFIG].
    rewrite Hflat. unfold pd.window_mean. rewrite length_replicate.
    replace (length (df self) <? 20)%nat with false
      by (symmetry; apply Nat.ltb_ge; lia).
    rewrite tail_replicate by done. apply mean_constant. }
  assert (Hs : bb_std_at Qsqrt (Close <$> df self) = Num.of_Z 0).
  { unfold bb_std_at. cbn [config.bb_period TECHNICAL_CONFIG].
    rewrite Hflat. by apply window_std_constant. }
  assert (Hu : bb_upper_at Qsqrt (Close <$> df self) = Num.fin p).
  { unfold bb_upper_at. rewrite Hm, Hs. unfold Num.fin.
    cbn [config.bb_std TECHNICAL_CONFIG Num.of_Z Num.mul Num.add]. unfold Num.fin.
    apply (f_equal Fin), Qred_complete. rewrite !Qred_correct. ring. }
  assert (Hl : bb_lower_at Qsqrt (Close <$> df self) = Num.fin p).
  { unfold bb_lower_at. rewrite Hm, Hs. unfold Num.fin.
    cbn [config.bb_std TECHNICAL_CONFIG Num.of_Z Num.mul Num.sub]. unfold Num.fin.
    apply (f_equal Fin), Qred_complete. rewrite !Qred_correct. ring. }
  assert (Hprice : from_end 1 (Close <$> df self) = Fin p).
  { rewrite Hflat. unfold from_end. rewrite length_replicate.
    rewrite lookup_replicate_2 by lia. reflexivity. }
  exists self'. split; [exact Hr|]. rewrite Hind. unfold bollinger_indicators.
  rewrite Hu, Hl, Hprice.
  split; [by map_lookup|]. split; [by map_lookup|]. map_lookup. do 2 f_equal.
  apply (bb_position_of_zero_width (Fin p) (Qred p) (Qred p)); [reflexivity|].
  cbn [Num.eqb]. apply Qeq_bool_iff. by rewrite Qred_correct.
Qed.

(** ** More of the signal and risk engine *)

Lemma gtb_Fin (q c : Q) : (Fin q >? Fin c)%num = true <-> (c < q)%Q.
Proof. unfold Num.gtb. apply NumFacts.ltb_Fin. Qed.

Lemma gtb_Fin_false (q c : Q) : (Fin q >? Fin c)%num = false <-> (q <= c)%Q.
Proof.
  unfold Num.gtb. simpl. rewrite negb_false_iff. apply Qle_bool_iff.
Qed.

Lemma ltb_Fin_false (q c : Q) : (Fin q <? Fin c)%num = false <-> (c <= q)%Q.
Proof. simpl. rewrite negb_false_iff. apply Qle_bool_iff. Qed.

(** Decide a comparison of a finite value with a constant both ways. *)
Ltac case_gtb q c :=
  let E := fresh "E" in
  destruct (Fin q >? Fin c)%num eqn:E;
  [apply gtb_Fin in E | apply gtb_Fin_false in E].

Lemma weighted_score_in_range (technical_score sentiment_score : num) :
  in_score_range technical_score ->
  in_score_range sentiment_score ->
  in_score_range
    (technical_score * config.technical_weight SCORING_CONFIG
     + sentiment_score * config.sentiment_weight SCORING_CONFIG)%num.
Proof.
  intros (t & -> & Ht) (s & -> & Hs).
  cbn [config.technical_weight config.sentiment_weight SCORING_CONFIG Num.mul Num.add].
  unfold Num.fin. eexists. split; [reflexivity|].
  rewrite !Qred_correct. lra.
Qed.

(** X1.  The composite score of two scores in [-100, 100] is in
    [-100, 100]: the weights 0.6 and 0.4 are not negative and sum to 1, so
    the engine has nothing to clip. *)
Theorem composite_score_in_range (technical_score sentiment_score current_price atr : num) :
  in_score_range technical_score ->
  in_score_range sentiment_score ->
  in_score_range
    (composite_score
       (SignalGenerator_init technical_score sentiment_score current_price atr)).
Proof. intros Ht Hs. by apply weighted_score_in_range. Qed.

Lemma composite_score_in_range_witness :
  in_score_range
    (composite_score
       (SignalGenerator_init (Num.of_Z 100) (Num.of_Z (-100)) (Num.of_Z 50) (Num.of_Z 1))).
Proof.
  apply composite_score_in_range.
  - exists 100%Q. split; [reflexivity | lra].
  - exists (-100)%Q. split; [reflexivity | lra].
Defined.

(** X2.  Under the default thresholds the five categories are the half-open
    bands (60, inf), (30, 60], (-30, 30], (-60, -30] and (-inf, -60] of a
    finite composite score; a threshold itself belongs to the band below. *)
Theorem default_signal_bands (self : SignalGenerator) (q : Q) :
  composite_score self = Fin q ->
  (signal (generate_signal self) = signal_text StrongBuy <-> (60 < q)%Q)
  /\ (signal (generate_signal self) = signal_text Buy <-> (30 < q <= 60)%Q)
  /\ (signal (generate_signal self) = signal_text Hold <-> (-30 < q <= 30)%Q)
  /\ (signal (generate_signal self) = signal_text Sell <-> (-60 < q <= -30)%Q)
  /\ (signal (generate_signal self) = signal_text StrongSell <-> (q <= -60)%Q).
Proof.
  intros Hq. rewrite generate_signal_band, Hq. unfold signal_band.
  cbn [config.strong_buy config.buy config.sell config.strong_sell SIGNAL_THRESHOLDS].
  unfold Num.of_Z.
  case_gtb q (60 # 1)%Q; [|case_gtb q (30 # 1)%Q; [|case_gtb q (-30 # 1)%Q;
    [|case_gtb q (-60 # 1)%Q]]];
    repeat split; intros; try reflexivity; try lra;
    try (match goal with
         | H : signal_text _ = signal_text _ |- _ =>
             apply signal_text_inj in H; discriminate H
         end);
    exfalso; lra.
Qed.

Lemma default_signal_bands_witness :
  (signal (generate_signal (SignalGenerator_init (Num.of_Z 100) (Num.of_Z 0)
                              (Num.of_Z 50) (Num.of_Z 1)))
   = signal_text StrongBuy <-> (60 < 60)%Q)
  /\ (signal (generate_signal (SignalGenerator_init (Num.of_Z 100) (Num.of_Z 0)
                                 (Num.of_Z 50) (Num.of_Z 1)))
      = signal_text Buy <-> (30 < 60 <= 60)%Q)
  /\ (signal (generate_signal (SignalGenerator_init (Num.of_Z 100) (Num.of_Z 0)
                                 (Num.of_Z 50) (Num.of_Z 1)))
      = signal_text Hold <-> (-30 < 60 <= 30)%Q)
  /\ (signal (generate_signal (SignalGenerator_init (Num.of_Z 100) (Num.of_Z 0)
                                 (Num.of_Z 50) (Num.of_Z 1)))
      = signal_text Sell <-> (-60 < 60 <= -30)%Q)
  /\ (signal (generate_signal (SignalGenerator_init (Num.of_Z 100) (Num.of_Z 0)
                                 (Num.of_Z 50) (Num.of_Z 1)))
      = signal_text StrongSell <-> (60 <= -60)%Q).
Proof.
  apply (default_signal_bands
           (SignalGenerator_init (Num.of_Z 100) (Num.of_Z 0) (Num.of_Z 50) (Num.of_Z 1))
           60).
  reflexivity.
Defined.

(** A score that is not a number clears no threshold. *)
Lemma nan_score_strong_sell (self : SignalGenerator) :
  composite_score self = NaN ->
  signal (generate_signal self) = signal_text StrongSell.
Proof. intros H. rewrite generate_signal_band, H. reflexivity. Qed.

Lemma position_suggestion_eq (self : SignalGenerator) :
  position_suggestion (risk_locals self)
  = (if (composite_score self >? Num.of_Z 60)%num then "40-50%"
     else if (composite_score self >? Num.of_Z 30)%num then "30-40%"
     else if (composite_score self >? Num.of_Z 0)%num then "20-30%"
     else if (composite_score self >? Num.of_Z (-30))%num then "10-20%"
     else "0-10%").
Proof. unfold risk_locals. by destruct (_ >? _)%num. Qed.

(** X3.  The suggested position follows the signal category, for every
    composite score (NaN and the infinities included): strong buy goes with
    40-50%, buy with 30-40%, hold with 20-30% or 10-20%, and both sell
    categories with 0-10%. *)
Theorem position_follows_signal (self : SignalGenerator) :
  (rm_position_suggestion (calculate_risk_metrics self) = "40-50%"
   <-> signal (generate_signal self) = signal_text StrongBuy)
  /\ (rm_position_suggestion (calculate_risk_metrics self) = "30-40%"
      <-> signal (generate_signal self) = signal_text Buy)
  /\ (rm_position_suggestion (calculate_risk_metrics self) = "20-30%"
      \/ rm_position_suggestion (calculate_risk_metrics self) = "10-20%"
      <-> signal (generate_signal self) = signal_text Hold)
  /\ (rm_position_suggestion (calculate_risk_metrics self) = "0-10%"
      <-> signal (generate_signal self) = signal_text Sell
          \/ signal (generate_signal self) = signal_text StrongSell).
Proof.
  rewrite generate_signal_band. unfold calculate_risk_metrics.
  cbn [rm_position_suggestion]. rewrite position_suggestion_eq.
  unfold signal_band.
  cbn [config.strong_buy config.buy config.sell config.strong_sell SIGNAL_THRESHOLDS].
  destruct (composite_score self) as [| | |q].
  1-3: (cbn; repeat split; intros; try reflexivity; try discriminate;
        repeat match goal with
               | H : _ \/ _ |- _ => destruct H
               | H : signal_text _ = signal_text _ |- _ =>
                   apply signal_text_inj in H; discriminate H
               end; try discriminate; auto).
  unfold Num.of_Z.
  case_gtb q (60 # 1)%Q; [|case_gtb q (30 # 1)%Q; [|case_gtb q (0 # 1)%Q;
    [|case_gtb q (-30 # 1)%Q]]];
    try (case_gtb q (-60 # 1)%Q);
    try (case_gtb q (-30 # 1)%Q);
    repeat split; intros; try reflexivity; try lra;
    repeat match goal with
           | H : _ \/ _ |- _ => destruct H
           | H : signal_text _ = signal_text _ |- _ =>
               apply signal_text_inj in H; discriminate H
           end; try discriminate; auto; try (exfalso; lra).
Qed.

Lemma ratio_bound (p d c : Q) :
  (0 < p)%Q -> (0 <= d)%Q -> (d <= c * p)%Q -> (0 <= d / p <= c)%Q.
Proof.
  intros Hp Hd Hc. split.
  - apply Qle_shift_div_l; [done|]. by rewrite Qmult_0_l.
  - by apply Qle_shift_div_r.
Qed.

Lemma Qzero_pos (p : Q) : (0 < p)%Q -> Num.Qzero p = false.
Proof.
  intros Hp. apply NumFacts.Qzero_false. intros E. rewrite E in Hp.
  by apply Qlt_irrefl in Hp.
Qed.




(** ** main.py: the analyzer feeding the signal generator *)

Lemma all_indicators_numeric (Qsqrt : Q -> Q) (bars : list PriceBar)
    (self : TechnicalAnalyzer) :
  indicators self = all_indicators Qsqrt bars ∅ -> numeric_entries self.
Proof. intros Hind. split; rewrite Hind; all_lookup; done. Qed.

Lemma of_Z_in_score_range (score : Z) :
  -100 <= score <= 100 -> in_score_range (Num.of_Z score).
Proof.
  intros H. exists (score # 1)%Q. split; [reflexivity|].
  unfold Qle. simpl. lia.
Qed.

(** On a non-empty frame [analyze] builds the generator from a trend score
    within the bounds, the last close and the ATR of the last bar. *)
Lemma analyze_returns (Qsqrt : Q -> Q) (bars : list PriceBar) (sentiment_score : num) :
  bars <> [] ->
  exists score,
    -100 <= score <= 100
    /\ analyze Qsqrt bars sentiment_score
       = Ok (SignalGenerator_init (Num.of_Z score) sentiment_score
               (from_end 1 (Close <$> bars)) (current_atr bars)).
Proof.
  intros Hbars.
  destruct (calculate_all_leaves Qsqrt (init bars) Hbars) as (self & Hr & Hdf & Hind & _).
  cbn [df indicators init] in Hdf, Hind.
  pose proof (all_indicators_numeric Qsqrt bars self Hind) as Hnum.
  destruct (pre_volume_total_returns self Hnum) as [pre Hpre].
  exists (clip (pre + volume_points self pre)). split; [apply clip_bounds|].
  unfold analyze. rewrite Hr. cbn [mbind result_bind].
  rewrite get_trend_score_rubric, Hpre. cbn [mbind mret result_bind result_ret].
  unfold get_current_price. rewrite Hdf.
  rewrite iloc_last_ok by by apply fmap_nonempty.
  cbn [mbind result_bind].
  unfold indicator_num. rewrite Hind. unfold all_indicators.
  rewrite lookup_insert_eq. reflexivity.
Qed.

(** X5.  On every non-empty frame and for a sentiment score in [-100, 100],
    [analyze] raises nothing and hands the signal generator a technical score
    and a composite score in [-100, 100], the last close as the price and the
    ATR of the last bar. *)
Theorem analyze_scores_in_range (Qsqrt : Q -> Q) (bars : list PriceBar)
    (sentiment : num) :
  bars <> [] ->
  in_score_range sentiment ->
  exists sg,
    analyze Qsqrt bars sentiment = Ok sg
    /\ in_score_range (technical_score sg)
    /\ sentiment_score sg = sentiment
    /\ in_score_range (composite_score sg)
    /\ get_current_price (init bars) = Ok (current_price sg)
    /\ atr sg = current_atr bars.
Proof.
  intros Hbars Hs. destruct (analyze_returns Qsqrt bars sentiment Hbars) as (score & Hb & Hr).
  eexists. split; [exact Hr|].
  unfold SignalGenerator_init; cbn [technical_score sentiment_score composite_score
    current_price atr].
  pose proof (of_Z_in_score_range score Hb) as Ht.
  split; [exact Ht|]. split; [reflexivity|].
  split; [by apply weighted_score_in_range|]. split; [|reflexivity].
  unfold get_current_price. cbn [df init].
  by rewrite iloc_last_ok by by apply fmap_nonempty.
Qed.

Lemma analyze_scores_in_range_witness :
  exists sg,
    analyze Qsqrt_trunc rising_bars (Num.of_Z 40) = Ok sg
    /\ in_score_range (technical_score sg)
    /\ sentiment_score sg = Num.of_Z 40
    /\ in_score_range (composite_score sg)
    /\ get_current_price (init rising_bars) = Ok (current_price sg)
    /\ atr sg = current_atr rising_bars.
Proof.
  apply (analyze_scores_in_range Qsqrt_trunc rising_bars (Num.of_Z 40)).
  - discriminate.
  - exists 40%Q. split; [reflexivity | lra].
Defined.

Lemma volatility_level_eq (self : SignalGenerator) :
  volatility_level (risk_locals self)
  = (if (volatility_pct (risk_locals self) <? Num.of_Z 1)%num then "低"
     else if (volatility_pct (risk_locals self) <? Num.of_Z 2)%num then "中"
     else "高")
  /\ risk_level (risk_locals self) = volatility_level (risk_locals self)
  /\ volatility_pct (risk_locals self)
     = (atr self / current_price self * Num.of_Z 100)%num.
Proof. unfold risk_locals. by destruct (_ >? _)%num. Qed.

Lemma gtb_nan_l (x : num) : (NaN >? x)%num = false.
Proof. by destruct x. Qed.

Lemma stop_loss_pct_choice (self : SignalGenerator) :
  stop_loss_pct (risk_locals self)
  = (if (atr_stop_loss (risk_locals self) >? pct_stop_loss (risk_locals self))%num
     then ((current_price self - atr_stop_loss (risk_locals self))
           / current_price self * Num.of_Z 100)%num
     else (config.stop_loss_pct RISK_CONFIG * Num.of_Z 100)%num).
Proof.
  rewrite atr_stop_loss_eq, pct_stop_loss_eq. unfold risk_locals.
  by destruct (_ >? _)%num.
Qed.

(** X6.  On a non-empty frame of fewer than 14 bars the ATR is missing
    (NaN): the risk engine then takes the fixed-percentage stop, and, as no
    comparison with NaN holds, reports a NaN volatility with the level and
    the risk level 高 (high). *)
Theorem short_series_risk (Qsqrt : Q -> Q) (bars : list PriceBar) (sentiment : num) :
  bars <> [] ->
  (length bars < config.rsi_period TECHNICAL_CONFIG)%nat ->
  exists sg,
    analyze Qsqrt bars sentiment = Ok sg
    /\ atr sg = NaN
    /\ stop_loss_method (risk_locals sg) = fixed_pct
    /\ stop_loss (risk_locals sg) = pct_stop_loss (risk_locals sg)
    /\ rm_stop_loss_pct (calculate_risk_metrics sg) = Num.of_Z 3
    /\ rm_volatility_pct (calculate_risk_metrics sg) = NaN
    /\ rm_volatility_level (calculate_risk_metrics sg) = "高"
    /\ rm_risk_level (calculate_risk_metrics sg) = "高".
Proof.
  cbn [config.rsi_period TECHNICAL_CONFIG]. intros Hbars Hlen.
  destruct (analyze_returns Qsqrt bars sentiment Hbars) as (score & _ & Hr).
  rewrite current_atr_short in Hr by done.
  eexists. split; [exact Hr|].
  set (sg := SignalGenerator_init _ _ _ _).
  assert (Hatr : atr sg = NaN) by reflexivity.
  assert (Ha : atr_stop_loss (risk_locals sg) = NaN).
  { rewrite atr_stop_loss_eq, Hatr. by destruct (current_price sg). }
  destruct (stop_loss_choice sg) as [Hm Hs]. rewrite Ha, gtb_nan_l in Hm, Hs.
  pose proof (stop_loss_pct_choice sg) as Hp. rewrite Ha, gtb_nan_l in Hp.
  destruct (volatility_level_eq sg) as (Hl & Hrl & Hv).
  assert (Hvol : volatility_pct (risk_locals sg) = NaN) by (by rewrite Hv, Hatr).
  rewrite Hvol in Hl.
  split; [exact Hatr|]. split; [exact Hm|]. split; [exact Hs|].
  unfold calculate_risk_metrics.
  cbn [rm_stop_loss_pct rm_volatility_pct rm_volatility_level rm_risk_level].
  rewrite Hrl, Hl, Hvol, Hp. repeat split.
Qed.

Lemma short_series_risk_witness :
  exists sg,
    analyze Qsqrt_trunc [bar_at 100] (Num.of_Z 0) = Ok sg
    /\ atr sg = NaN
    /\ stop_loss_method (risk_locals sg) = fixed_pct
    /\ stop_loss (risk_locals sg) = pct_stop_loss (risk_locals sg)
    /\ rm_stop_loss_pct (calculate_risk_metrics sg) = Num.of_Z 3
    /\ rm_volatility_pct (calculate_risk_metrics sg) = NaN
    /\ rm_volatility_level (calculate_risk_metrics sg) = "高"
    /\ rm_risk_level (calculate_risk_metrics sg) = "高".
Proof.
  apply (short_series_risk Qsqrt_trunc [bar_at 100] (Num.of_Z 0)).
  - discriminate.
  - simpl. lia.
Defined.

(** ** More of the indicator engine *)

(** *** The RSI is NaN or within [0, 100] *)

Lemma nonneg_zero : nonneg (Num.of_Z 0).
Proof. exists 0%Q. split; [reflexivity | apply Qle_refl]. Qed.

Lemma diff_from_finite (s : pd.Series) (x : num) :
  finite_series (x :: s) -> finite_series (pd.diff_from x s).
Proof.
  revert x. induction s as [|y s IH]; intros x H; [constructor|].
  apply Forall_cons in H as [Hx H]. pose proof H as Hs.
  apply Forall_cons in H as [Hy _].
  simpl. constructor; [|by apply IH].
  by destruct x, y.
Qed.

Lemma gains_nonneg (close : pd.Series) :
  finite_series close -> Forall nonneg (gains close).
Proof.
  intros H. destruct close as [|x s]; [constructor|].
  unfold gains. cbn [pd.diff].
  change (pd.where_ ?f ?o (NaN :: ?d)) with (o :: pd.where_ f o d).
  constructor; [apply nonneg_zero|].
  apply diff_from_finite in H. unfold pd.where_.
  induction H as [|d ds Hd _ IH]; [constructor|].
  rewrite fmap_cons. constructor; [|exact IH].
  destruct d as [| | |q]; try discriminate.
  destruct (Fin q >? Num.of_Z 0)%num eqn:E; [|apply nonneg_zero].
  apply gtb_Fin in E. exists q. split; [reflexivity | by apply Qlt_le_weak].
Qed.

Lemma losses_nonneg (close : pd.Series) :
  finite_series close -> Forall nonneg (losses close).
Proof.
  intros H. destruct close as [|x s]; [constructor|].
  unfold losses. cbn [pd.diff].
  change (pd.where_ ?f ?o (NaN :: ?d)) with (o :: pd.where_ f o d).
  rewrite fmap_cons. constructor; [apply nonneg_zero|].
  apply diff_from_finite in H. unfold pd.where_.
  induction H as [|d ds Hd _ IH]; [constructor|].
  rewrite !fmap_cons. constructor; [|exact IH].
  destruct d as [| | |q]; try discriminate.
  destruct (Fin q <? Num.of_Z 0)%num eqn:E; [|apply nonneg_zero].
  apply NumFacts.ltb_Fin in E. eexists. split; [reflexivity|].
  rewrite Qred_correct. lra.
Qed.

Lemma mean_nonneg (s : pd.Series) : Forall nonneg s -> s <> [] -> nonneg (pd.mean s).
Proof.
  intros Hs Hne. destruct (sum_nonneg s Hs) as (q & Hq & Hq0).
  unfold pd.mean. rewrite Hq.
  assert (Hn : (0 < length s)%nat) by (destruct s; [done | simpl; lia]).
  assert (Hn' : (0 < inject_Z (Z.of_nat (length s)))%Q).
  { unfold Qlt. simpl. lia. }
  unfold Num.of_nat, Num.of_Z, Num.div.
  change (Z.of_nat (length s) # 1) with (inject_Z (Z.of_nat (length s))).
  rewrite (Qzero_pos _ Hn').
  eexists. split; [reflexivity|]. rewrite Qred_correct.
  apply Qle_shift_div_l; [done|]. by rewrite Qmult_0_l.
Qed.

(** A rolling mean over non-negative cells is missing or non-negative. *)
Lemma window_mean_nonneg (w : nat) (s : pd.Series) :
  (0 < w)%nat -> Forall nonneg s ->
  pd.window_mean w s = NaN \/ nonneg (pd.window_mean w s).
Proof.
  intros Hw Hs. unfold pd.window_mean.
  destruct (length s <? w)%nat eqn:E; [by left|]. right.
  apply Nat.ltb_ge in E. apply mean_nonneg.
  - by apply Forall_drop.
  - intros Hnil. apply (f_equal length) in Hnil. unfold pd.tail in Hnil.
    rewrite length_drop in Hnil. simpl in Hnil. lia.
Qed.

Lemma rsi_of_nonneg (g l : Q) :
  (0 <= g)%Q -> (0 <= l)%Q ->
  rsi_of (Fin g) (Fin l) = NaN \/ between 0 100 (rsi_of (Fin g) (Fin l)).
Proof.
  intros Hg Hl. unfold rsi_of. cbn [Num.div].
  destruct (Num.Qzero l) eqn:Zl.
  - destruct (Num.Qzero g) eqn:Zg; [by left|]. right.
    replace (Num.Qnegative g) with false
      by (symmetry; by apply NumFacts.Qnegative_false).
    exists 100%Q. split; [reflexivity | lra].
  - right. apply NumFacts.Qzero_false in Zl.
    assert (Hl' : (0 < l)%Q) by lra.
    destruct (ratio_bound l g (g / l) Hl' Hg) as [R _].
    { rewrite Qmult_comm, Qmult_div_r by done. apply Qle_refl. }
    unfold Num.of_Z, Num.fin. cbn [Num.add]. unfold Num.fin. cbn [Num.div].
    assert (Hd : (0 < Qred (1 + Qred (g / l)))%Q) by (rewrite !Qred_correct; lra).
    rewrite (Qzero_pos _ Hd). unfold Num.fin. cbn [Num.sub]. unfold Num.fin.
    eexists. split; [reflexivity|]. rewrite !Qred_correct.
    rewrite !Qred_correct in Hd.
    destruct (ratio_bound (1 + g / l) 100 100) as [B1 B2]; [done | lra | lra |].
    lra.
Qed.

Lemma current_rsi_in_range (close : pd.Series) :
  finite_series close ->
  current_rsi close = NaN \/ between 0 100 (current_rsi close).
Proof.
  intros H. unfold current_rsi. cbn [config.rsi_period TECHNICAL_CONFIG].
  destruct (window_mean_nonneg 14 (gains close)) as [-> | (g & -> & Hg)];
    [lia | by apply gains_nonneg | by left |].
  destruct (window_mean_nonneg 14 (losses close)) as [-> | (l & -> & Hl)];
    [lia | by apply losses_nonneg | by left |].
  by apply rsi_of_nonneg.
Qed.

(** X7.  On every non-empty frame of finite closes the RSI reported is NaN
    (fewer than 14 bars, or no rise and no fall in the window) or a number
    in [0, 100]; it is never an infinity and never outside the scale. *)
Theorem rsi_in_range (self : TechnicalAnalyzer) :
  df self <> [] ->
  finite_series (Close <$> df self) ->
  exists self' rsi,
    calculate_rsi self = Ok self'
    /\ indicators self' !! "rsi" = Some (VNum rsi)
    /\ (rsi = NaN \/ between 0 100 rsi).
Proof.
  intros Hdf Hfin.
  destruct (calculate_rsi_leaves self Hdf) as (self' & Hr & _ & Hind & _).
  exists self', (current_rsi (Close <$> df self)).
  split; [exact Hr|]. split; [by rewrite Hind, lookup_insert_eq|].
  by apply current_rsi_in_range.
Qed.

Lemma rsi_in_range_witness :
  exists self' rsi,
    calculate_rsi (init crossing_bars) = Ok self'
    /\ indicators self' !! "rsi" = Some (VNum rsi)
    /\ (rsi = NaN \/ between 0 100 rsi).
Proof.
  apply (rsi_in_range (init crossing_bars)).
  - discriminate.
  - unfold finite_series. simpl. repeat constructor.
Defined.

(** *** The ATR is never negative *)

Lemma max2_nonneg (x y : num) : nonneg x -> nan_or_nonneg y -> nonneg (pd.max2 x y).
Proof.
  intros (a & -> & Ha) [-> | (b & -> & Hb)]; [by exists a|].
  unfold pd.max2. destruct (Fin a <? Fin b)%num; [by exists b | by exists a].
Qed.

Lemma max2_nan_or_nonneg (x y : num) :
  nan_or_nonneg x -> nan_or_nonneg y -> nan_or_nonneg (pd.max2 x y).
Proof.
  intros [-> | Hx] Hy; [by destruct y|]. right. by apply max2_nonneg.
Qed.

Lemma abs_sub_nan_or_nonneg (a : Q) (prev : num) :
  prev = NaN \/ Num.is_finite prev = true ->
  nan_or_nonneg (Num.abs (Fin a - prev)%num).
Proof.
  intros [-> | H]; [by left|]. destruct prev as [| | |c]; try discriminate.
  right. eexists. split; [reflexivity|]. rewrite Qred_correct. apply Qabs_nonneg.
Qed.

Lemma tr_row_nonneg (prev : num) (b : PriceBar) :
  well_formed_bar b -> prev = NaN \/ Num.is_finite prev = true ->
  nonneg (tr_row prev b).
Proof.
  intros (h & l & c & Hh & Hl & _ & Hlh) Hprev. unfold tr_row, pd.row_max.
  rewrite Hh, Hl. cbn [foldr]. apply max2_nonneg.
  - eexists. split; [reflexivity|]. rewrite Qred_correct. lra.
  - apply max2_nan_or_nonneg; [by apply abs_sub_nan_or_nonneg|].
    apply max2_nan_or_nonneg; [by apply abs_sub_nan_or_nonneg | by left].
Qed.

Lemma tr_from_nonneg (bars : list PriceBar) (prev : num) :
  Forall well_formed_bar bars -> prev = NaN \/ Num.is_finite prev = true ->
  Forall nonneg (tr_from prev bars).
Proof.
  intros H. revert prev. induction H as [|b bars Hb _ IH]; intros prev Hprev;
    [constructor|].
  cbn [tr_from]. constructor; [by apply tr_row_nonneg|].
  apply IH. right. destruct Hb as (h & l & c & _ & _ & -> & _). reflexivity.
Qed.

(** X8.  On a non-empty frame of well-formed bars (finite prices, high not
    below low) the ATR reported is NaN with fewer than 14 bars and a finite
    number of at least 0 otherwise. *)
Theorem atr_not_negative (self : TechnicalAnalyzer) :
  df self <> [] ->
  Forall well_formed_bar (df self) ->
  exists self' atr,
    calculate_atr self = Ok self'
    /\ indicators self' !! "atr" = Some (VNum atr)
    /\ ((length (df self) < 14)%nat -> atr = NaN)
    /\ ((14 <= length (df self))%nat -> nonneg atr).
Proof.
  intros Hdf Hwf.
  destruct (calculate_atr_leaves self Hdf) as (self' & Hr & _ & Hind & _).
  exists self', (current_atr (df self)).
  split; [exact Hr|]. split; [by rewrite Hind, lookup_insert_eq|].
  split; [apply current_atr_short|]. intros Hlen.
  unfold current_atr. cbn [config.rsi_period TECHNICAL_CONFIG].
  destruct (window_mean_nonneg 14 (true_range (df self))) as [E | H]; [lia | | | done].
  - rewrite true_range_tr_from. apply tr_from_nonneg; [done | by left].
  - exfalso. unfold pd.window_mean in E. rewrite length_true_range in E.
    replace (length (df self) <? 14)%nat with false in E
      by (symmetry; apply Nat.ltb_ge; lia).
    destruct (mean_nonneg (pd.tail 14 (true_range (df self)))) as (q & Hq & _).
    + apply Forall_drop. rewrite true_range_tr_from.
      apply tr_from_nonneg; [done | by left].
    + intros Hnil. apply (f_equal length) in Hnil. unfold pd.tail in Hnil.
      rewrite length_drop, length_true_range in Hnil. simpl in Hnil. lia.
    + congruence.
Qed.

Lemma atr_not_negative_witness :
  exists self' atr,
    calculate_atr (init crossing_bars) = Ok self'
    /\ indicators self' !! "atr" = Some (VNum atr)
    /\ ((length (df (init crossing_bars)) < 14)%nat -> atr = NaN)
    /\ ((14 <= length (df (init crossing_bars)))%nat -> nonneg atr).
Proof.
  apply (atr_not_negative (init crossing_bars)).
  - discriminate.
  - simpl. repeat constructor;
      (eexists _, _, _; repeat split; [reflexivity ..| lra]).
Defined.

(** *** The volume ratio *)

Lemma from_end_Forall (P : num -> Prop) (s : pd.Series) :
  Forall P s -> s <> [] -> P (from_end 1 s).
Proof.
  intros Hs Hne. unfold from_end.
  destruct (lookup_lt_is_Some_2 s (length s - 1)%nat) as [x Hx].
  { destruct s; [done | simpl; lia]. }
  rewrite Hx. simpl. eapply Forall_lookup_1; eauto.
Qed.

Lemma volume_label_values (r : num) :
  volume_label r = "high" \/ volume_label r = "low" \/ volume_label r = "normal".
Proof. unfold volume_label. repeat case_match; auto. Qed.

(** *** get_price_change *)

Lemma finite_sub (x y : num) :
  Num.is_finite x = true -> Num.is_finite y = true -> Num.is_finite (x - y)%num = true.
Proof. by destruct x, y. Qed.




(** The last close of [crossing_bars] is 20 after 10: a change of 10, of
    100%. *)
Example price_change_crossing_bars :
  get_price_change (init crossing_bars)
  = Ok {| pc_current := Num.of_Z 20; pc_previous := Num.of_Z 10;
          pc_change := Num.of_Z 10; pc_change_pct := Num.of_Z 100 |}.
Proof. vm_compute. reflexivity. Qed.

(** *** The trend score moves in steps of 5 *)

Lemma pre_volume_total_step (self : TechnicalAnalyzer) (pre : Z) :
  pre_volume_total self = Ok pre -> (5 | pre).
Proof.
  unfold pre_volume_total, macd_points, rsi_points.
  assert (Ha : (5 | ma_alignment_points self)).
  { unfold ma_alignment_points. repeat case_match;
      [by exists 6 | by exists (-6) | by exists 0]. }
  assert (Hc : (5 | ma_cross_points self)).
  { unfold ma_cross_points. repeat case_match;
      [by exists 4 | by exists (-4) | by exists 0]. }
  assert (Hb : (5 | bollinger_points self)).
  { unfold bollinger_points. repeat case_match;
      [by exists 2 | by exists (-2) | by exists 0]. }
  assert (H5 : forall x y, (5 | x) -> (5 | y) -> (5 | x + y))
    by (intros; by apply Z.divide_add_r).
  destruct (signal_is self "macd" "golden_cross"),
    (signal_is self "macd" "death_cross"),
    (indicator_num self "macd_hist" (Num.of_Z 0)) as [hist|?],
    (indicator_num self "rsi" (Num.of_Z 50)) as [rsi|?];
    cbn [mbind mret result_bind result_ret]; intros [= <-];
    repeat apply H5; try done;
    repeat case_match;
    first [by exists 4 | by exists (-4) | by exists 2 | by exists (-2)
          | by exists 3 | by exists (-3) | by exists 1 | by exists 0].
Qed.

(** X11.  Whenever the numeric entries hold numbers, the trend score is a
    multiple of 5 between -100 and 100: every clause of the rubric adds or
    removes a multiple of 5 and the clip is at multiples of 5. *)
Theorem trend_score_step (self : TechnicalAnalyzer) :
  numeric_entries self ->
  exists k, get_trend_score self = Ok (5 * k) /\ -20 <= k <= 20.
Proof.
  intros Hnum. destruct (pre_volume_total_returns self Hnum) as [pre Hpre].
  pose proof (pre_volume_total_bounds self pre Hpre) as Hb.
  destruct (pre_volume_total_step self pre Hpre) as [j Hj].
  rewrite get_trend_score_rubric, Hpre. cbn [mbind mret result_bind result_ret].
  unfold clip, volume_points.
  destruct (signal_is self "volume" "high"); [destruct (pre >? 0)|].
  - exists (j + 1). split; [f_equal; lia | lia].
  - exists (j - 1). split; [f_equal; lia | lia].
  - exists j. split; [f_equal; lia | lia].
Qed.

Lemma trend_score_step_witness :
  exists k, get_trend_score all_bullish = Ok (5 * k) /\ -20 <= k <= 20.
Proof. apply (trend_score_step all_bullish). split; reflexivity. Defined.

(** *** The labels the analyzer writes *)

Lemma cross_label_values (fp sp fc sc : num) : cross_label fp sp fc sc ∈ cross_labels.
Proof. unfold cross_label, cross_labels. repeat case_match; set_solver. Qed.

Lemma rsi_label_values (r : num) : rsi_label r ∈ rsi_labels.
Proof. unfold rsi_label, rsi_labels. repeat case_match; set_solver. Qed.

Lemma bollinger_label_values (p u l : num) : bollinger_label p u l ∈ bollinger_labels.
Proof. unfold bollinger_label, bollinger_labels. repeat case_match; set_solver. Qed.

Lemma volume_label_among (r : num) : volume_label r ∈ volume_labels.
Proof. unfold volume_label, volume_labels. repeat case_match; set_solver. Qed.

Lemma ma_alignment_label_values (close : pd.Series) :
  ma_alignment_label close ∈ alignment_labels.
Proof. unfold ma_alignment_label, alignment_labels. repeat case_match; set_solver. Qed.

(** X12.  After [calculate_all] on a non-empty frame every label is one of
    the labels of its entry: the alignment is bullish, bearish or mixed, the
    RSI, Bollinger and volume signals are always written, and the two
    crossover signals are golden_cross, death_cross or none, and missing
    exactly on a single bar. *)
Theorem analyzer_labels (Qsqrt : Q -> Q) (bars : list PriceBar) :
  bars <> [] ->
  exists self alignment,
    calculate_all Qsqrt (init bars) = Ok self
    /\ indicators self !! "ma_alignment" = Some (VStr alignment)
    /\ alignment ∈ alignment_labels
    /\ signal_among self "rsi" rsi_labels false
    /\ signal_among self "bollinger" bollinger_labels false
    /\ signal_among self "volume" volume_labels false
    /\ signal_among self "ma_cross" cross_labels (length bars <? 2)%nat
    /\ signal_among self "macd" cross_labels (length bars <? 2)%nat
    /\ (is_Some (signals self !! "ma_cross") <-> (2 <= length bars)%nat)
    /\ (is_Some (signals self !! "macd") <-> (2 <= length bars)%nat).
Proof.
  intros Hbars.
  destruct (calculate_all_leaves Qsqrt (init bars) Hbars) as (self & Hr & _ & Hind & Hsig).
  cbn [df indicators signals init] in Hind, Hsig.
  exists self, (ma_alignment_label (Close <$> bars)).
  split; [exact Hr|]. split; [rewrite Hind; by all_lookup|].
  split; [apply ma_alignment_label_values|].
  unfold signal_among. rewrite Hsig. unfold all_signals, macd_signals.
  rewrite length_fmap.
  destruct (2 <=? length bars)%nat eqn:E.
  - apply Nat.leb_le in E.
    replace (length bars <? 2)%nat with false by (symmetry; apply Nat.ltb_ge; lia).
    map_lookup.
    repeat split; auto using rsi_label_values, bollinger_label_values,
      volume_label_among, cross_label_values; try lia; try (by eexists).
    rewrite ma_crossover_cross_label. apply cross_label_values.
  - apply Nat.leb_gt in E.
    replace (length bars <? 2)%nat with true by (symmetry; apply Nat.ltb_lt; lia).
    map_lookup. rewrite !lookup_empty.
    repeat split; auto using rsi_label_values, bollinger_label_values,
      volume_label_among; try lia; try (intros [? ?]; discriminate).
Qed.

Lemma analyzer_labels_witness :
  exists self alignment,
    calculate_all Qsqrt_trunc (init [bar_at 100]) = Ok self
    /\ indicators self !! "ma_alignment" = Some (VStr alignment)
    /\ alignment ∈ alignment_labels
    /\ signal_among self "rsi" rsi_labels false
    /\ signal_among self "bollinger" bollinger_labels false
    /\ signal_among self "volume" volume_labels false
    /\ signal_among self "ma_cross" cross_labels (length [bar_at 100] <? 2)%nat
    /\ signal_among self "macd" cross_labels (length [bar_at 100] <? 2)%nat
    /\ (is_Some (signals self !! "ma_cross") <-> (2 <= length [bar_at 100])%nat)
    /\ (is_Some (signals self !! "macd") <-> (2 <= length [bar_at 100])%nat).
Proof.
  apply (analyzer_labels Qsqrt_trunc [bar_at 100]). discriminate.
Defined.

(** *** A flat series, end to end *)

Lemma sum_replicate (w : nat) (p : Q) :
  pd.sum (replicate w (Fin p)) = Num.fin (inject_Z (Z.of_nat w) * p).
Proof.
  induction w as [|w IH].
  - change (pd.sum (replicate 0 (Fin p))) with (Num.fin 0).
    apply NumFacts.fin_proper. change (inject_Z (Z.of_nat 0)) with 0%Q. ring.
  - cbn [replicate]. rewrite sum_cons, IH. cbn [Num.add Num.fin].
    apply NumFacts.fin_proper. rewrite Qred_correct, Nat2Z.inj_succ.
    unfold Z.succ. rewrite inject_Z_plus. change (inject_Z 1) with 1%Q. ring.
Qed.

Lemma mean_replicate (w : nat) (p : Q) :
  (0 < w)%nat -> pd.mean (replicate w (Fin p)) = Num.fin p.
Proof.
  intros Hw. unfold pd.mean. rewrite length_replicate, sum_replicate.
  assert (Hn : (0 < inject_Z (Z.of_nat w))%Q) by (unfold Qlt; simpl; lia).
  unfold Num.of_nat, Num.of_Z, Num.fin, Num.div.
  change (Z.of_nat w # 1) with (inject_Z (Z.of_nat w)).
  rewrite (Qzero_pos _ Hn). apply NumFacts.fin_proper. rewrite Qred_correct.
  field. intros E. rewrite E in Hn. by apply Qlt_irrefl in Hn.
Qed.

Lemma window_mean_replicate (w n : nat) (p : Q) :
  (0 < w)%nat ->
  pd.window_mean w (replicate n (Fin p))
  = (if (n <? w)%nat then NaN else Num.fin p).
Proof.
  intros Hw. unfold pd.window_mean. rewrite length_replicate.
  destruct (n <? w)%nat eqn:E; [reflexivity|]. apply Nat.ltb_ge in E.
  rewrite tail_replicate by done. by apply mean_replicate.
Qed.

(** Two averages of a constant column never differ. *)
Lemma constant_means_compare (w1 w2 n1 n2 : nat) (p : Q) :
  (0 < w1)%nat -> (0 < w2)%nat ->
  (pd.window_mean w1 (replicate n1 (Fin p)) <? pd.window_mean w2 (replicate n2 (Fin p)))%num
  = false.
Proof.
  intros H1 H2. rewrite !window_mean_replicate by done.
  destruct (n1 <? w1)%nat, (n2 <? w2)%nat; try reflexivity.
  unfold Num.fin. apply ltb_Fin_false. apply Qle_refl.
Qed.

Lemma ma_alignment_label_flat (n : nat) (p : Q) :
  ma_alignment_label (replicate n (Fin p)) = "mixed".
Proof.
  unfold ma_alignment_label, ma_values.
  cbn [config.ma_periods TECHNICAL_CONFIG fmap list_fmap all_adjacent]. unfold Num.gtb.
  rewrite (constant_means_compare 10 5), (constant_means_compare 5 10) by lia.
  reflexivity.
Qed.

Lemma ma_crossover_flat (n : nat) (p : Q) :
  ma_crossover 5 20 (replicate n (Fin p)) = "none".
Proof.
  unfold ma_crossover, sma. rewrite length_replicate, !take_replicate.
  unfold Num.gtb.
  rewrite (constant_means_compare 20 5), (constant_means_compare 5 20) by lia.
  by rewrite !andb_false_r.
Qed.

Lemma gains_flat (n : nat) (p : Q) :
  gains (replicate n (Fin p)) = replicate n (Num.of_Z 0).
Proof.
  destruct n as [|n]; [done|]. unfold gains. cbn [replicate pd.diff].
  change (pd.where_ ?f ?o (NaN :: ?d)) with (o :: pd.where_ f o d).
  f_equal. unfold pd.where_.
  induction n as [|n IH]; [done|].
  cbn [replicate pd.diff_from]. rewrite fmap_cons, IH. f_equal.
  cbn [Num.sub]. unfold Num.fin. by rewrite Qred_self_sub.
Qed.

Lemma losses_flat (n : nat) (p : Q) :
  losses (replicate n (Fin p)) = replicate n (Num.of_Z 0).
Proof.
  destruct n as [|n]; [done|]. unfold losses. cbn [replicate pd.diff].
  change (pd.where_ ?f ?o (NaN :: ?d)) with (o :: pd.where_ f o d).
  rewrite fmap_cons. f_equal. unfold pd.where_.
  induction n as [|n IH]; [done|].
  cbn [replicate pd.diff_from]. rewrite !fmap_cons, IH. f_equal.
  cbn [Num.sub]. unfold Num.fin. by rewrite Qred_self_sub.
Qed.

(** With no rise and no fall the ratio is 0/0: the RSI of a flat series is
    NaN, whatever its length. *)
Lemma current_rsi_flat (n : nat) (p : Q) : current_rsi (replicate n (Fin p)) = NaN.
Proof.
  unfold current_rsi. cbn [config.rsi_period TECHNICAL_CONFIG].
  rewrite gains_flat, losses_flat.
  change (Num.of_Z 0) with (Fin 0).
  rewrite !window_mean_replicate by lia.
  by destruct (n <? 14)%nat.
Qed.

Lemma alpha_finite (span : nat) : exists a, pd.alpha span = Fin a.
Proof.
  unfold pd.alpha, Num.of_nat, Num.of_Z, Num.div.
  assert (Hn : (0 < Z.of_nat (span + 1) # 1)%Q) by (unfold Qlt; simpl; lia).
  rewrite (Qzero_pos _ Hn). by eexists.
Qed.

Lemma ewm_from_denotes (a q p : Q) (k : nat) :
  (q == p)%Q -> Forall (denotes p) (pd.ewm_from (Fin a) (Fin q) (replicate k (Fin p))).
Proof.
  revert q. induction k as [|k IH]; intros q Hq; [constructor|].
  cbn [replicate pd.ewm_from]. unfold Num.of_Z. cbn [Num.sub Num.mul Num.add Num.fin].
  constructor.
  - eexists. split; [reflexivity|]. rewrite !Qred_correct, Hq. ring.
  - apply IH. rewrite !Qred_correct, Hq. ring.
Qed.

Lemma ewm_mean_denotes (span n : nat) (p : Q) :
  Forall (denotes p) (pd.ewm_mean span (replicate n (Fin p))).
Proof.
  destruct n as [|n]; [constructor|]. cbn [replicate pd.ewm_mean].
  destruct (alpha_finite span) as [a ->]. constructor.
  - exists p. split; [reflexivity | reflexivity].
  - apply ewm_from_denotes. reflexivity.
Qed.

Lemma zip_sub_denotes (p : Q) (l1 l2 : pd.Series) :
  Forall (denotes p) l1 -> Forall (denotes p) l2 -> length l1 = length l2 ->
  zip_with Num.sub l1 l2 = replicate (length l1) (Num.of_Z 0).
Proof.
  intros H1. revert l2. induction H1 as [|x l1 (q1 & -> & Hq1) _ IH];
    intros l2 H2 Hlen; [done|].
  destruct H2 as [|y l2 (q2 & -> & Hq2) H2]; [done|].
  cbn [zip_with length replicate]. f_equal.
  - cbn [Num.sub]. change (Num.of_Z 0) with (Num.fin 0).
    apply NumFacts.fin_proper. rewrite Hq1, Hq2. ring.
  - apply IH; [done|]. simpl in Hlen. lia.
Qed.

Lemma MACD_line_flat (n : nat) (p : Q) :
  MACD_line (replicate n (Fin p)) = replicate n (Num.of_Z 0).
Proof.
  unfold MACD_line.
  rewrite (zip_sub_denotes p) by
    (try apply ewm_mean_denotes; by rewrite !pdFacts.length_ewm_mean).
  by rewrite pdFacts.length_ewm_mean, length_replicate.
Qed.

Lemma ewm_mean_zeros (span n : nat) :
  pd.ewm_mean span (replicate n (Num.of_Z 0)) = replicate n (Num.of_Z 0).
Proof.
  destruct n as [|n]; [done|]. cbn [replicate pd.ewm_mean]. f_equal.
  destruct (alpha_finite span) as [a ->].
  induction n as [|n IH]; [done|].
  cbn [replicate pd.ewm_from].
  assert (E : ((Num.of_Z 1 - Fin a) * Num.of_Z 0 + Fin a * Num.of_Z 0)%num = Num.of_Z 0).
  { unfold Num.of_Z. cbn [Num.sub Num.mul Num.add Num.fin].
    change (Fin (0 # 1)) with (Num.fin 0). apply NumFacts.fin_proper.
    rewrite !Qred_correct. ring. }
  rewrite E. f_equal. exact IH.
Qed.

Lemma MACD_signal_line_flat (n : nat) (p : Q) :
  MACD_signal_line (replicate n (Fin p)) = replicate n (Num.of_Z 0).
Proof. unfold MACD_signal_line. by rewrite MACD_line_flat, ewm_mean_zeros. Qed.

Lemma MACD_hist_line_flat (n : nat) (p : Q) :
  MACD_hist_line (replicate n (Fin p)) = replicate n (Num.of_Z 0).
Proof.
  unfold MACD_hist_line. rewrite MACD_line_flat, MACD_signal_line_flat.
  induction n as [|n IH]; [done|]. cbn [replicate zip_with]. by rewrite IH.
Qed.

Lemma from_end_replicate (k n : nat) (x : num) :
  (1 <= k <= n)%nat -> from_end k (replicate n x) = x.
Proof.
  intros H. unfold from_end. rewrite length_replicate.
  by rewrite lookup_replicate_2 by lia.
Qed.

Lemma bands_flat (Qsqrt : Q -> Q) (n : nat) (p : Q) :
  (Qsqrt 0 == 0)%Q -> (20 <= n)%nat ->
  bb_upper_at Qsqrt (replicate n (Fin p)) = Num.fin p
  /\ bb_lower_at Qsqrt (replicate n (Fin p)) = Num.fin p.
Proof.
  intros Hsqrt Hn. unfold bb_upper_at, bb_lower_at, bb_middle_at, bb_std_at.
  cbn [config.bb_period config.bb_std TECHNICAL_CONFIG].
  rewrite window_std_constant, window_mean_replicate by (done || lia).
  replace (n <? 20)%nat with false by (symmetry; apply Nat.ltb_ge; lia).
  unfold Num.of_Z, Num.fin. cbn [Num.mul Num.add Num.sub]. unfold Num.fin.
  split; apply (f_equal Fin), Qred_complete; rewrite !Qred_correct; ring.
Qed.

Lemma bollinger_label_flat (Qsqrt : Q -> Q) (n : nat) (p : Q) :
  (Qsqrt 0 == 0)%Q ->
  bollinger_label (Fin p) (bb_upper_at Qsqrt (replicate n (Fin p)))
                  (bb_lower_at Qsqrt (replicate n (Fin p)))
  = "within_bands".
Proof.
  intros Hsqrt. destruct (Nat.lt_ge_cases n 20) as [H | H].
  - destruct (bollinger_short Qsqrt (replicate n (Fin p))) as (_ & -> & ->);
      [by rewrite length_replicate|]. reflexivity.
  - destruct (bands_flat Qsqrt n p Hsqrt H) as [-> ->].
    unfold bollinger_label, Num.gtb, Num.fin.
    replace (Fin (Qred p) <? Fin p)%num with false
      by (symmetry; apply ltb_Fin_false; rewrite Qred_correct; apply Qle_refl).
    replace (Fin p <? Fin (Qred p))%num with false
      by (symmetry; apply ltb_Fin_false; rewrite Qred_correct; apply Qle_refl).
    reflexivity.
Qed.

(** X13.  On a flat series (high = low = close at every bar) of any length,
    for a square root that maps 0 to 0: the alignment is mixed, the RSI is
    NaN (0/0, not 50) with the signal neutral, no clause but the volume
    clause adds to the trend score, and the score is 0, or -5 when the last
    volume is high, as the running total 0 is not above 0. *)
Theorem flat_series_trend_score (Qsqrt : Q -> Q) (bars : list PriceBar) (p : Q) :
  (Qsqrt 0 == 0)%Q ->
  bars <> [] ->
  flat_at p bars ->
  exists self,
    calculate_all Qsqrt (init bars) = Ok self
    /\ indicators self !! "ma_alignment" = Some (VStr "mixed")
    /\ indicators self !! "rsi" = Some (VNum NaN)
    /\ signals self !! "rsi" = Some "neutral"
    /\ signals self !! "bollinger" = Some "within_bands"
    /\ pre_volume_total self = Ok 0
    /\ get_trend_score self = Ok (if signal_is self "volume" "high" then -5 else 0).
Proof.
  intros Hsqrt Hbars Hflat.
  destruct (calculate_all_leaves Qsqrt (init bars) Hbars) as (self & Hr & _ & Hind & Hsig).
  cbn [df indicators signals init] in Hind, Hsig.
  pose proof (flat_closes p bars Hflat) as Hc.
  assert (Hn : (1 <= length bars)%nat) by (destruct bars; [done | simpl; lia]).
  assert (Eal : indicators self !! "ma_alignment" = Some (VStr "mixed")).
  { rewrite Hind. all_lookup; by rewrite Hc, ma_alignment_label_flat. }
  assert (Ersi : indicators self !! "rsi" = Some (VNum NaN)).
  { rewrite Hind. all_lookup; by rewrite Hc, current_rsi_flat. }
  assert (Esr : signals self !! "rsi" = Some "neutral").
  { rewrite Hsig. all_lookup; by rewrite Hc, current_rsi_flat. }
  assert (Ebo : signals self !! "bollinger" = Some "within_bands").
  { rewrite Hsig. all_lookup;
      by rewrite Hc, from_end_replicate, bollinger_label_flat by (done || lia). }
  assert (Ecr : signal_is self "ma_cross" "golden_cross" = false
                /\ signal_is self "ma_cross" "death_cross" = false).
  { unfold signal_is. rewrite Hsig. unfold all_signals, macd_signals.
    rewrite length_fmap.
    destruct (2 <=? length bars)%nat; map_lookup;
      rewrite ?Hc, ?ma_crossover_flat, ?lookup_empty; done. }
  assert (Emp : macd_points self = Ok 0).
  { unfold macd_points, signal_is, indicator_num. rewrite Hsig, Hind.
    unfold all_signals, all_indicators, bollinger_indicators, macd_signals,
      macd_indicators.
    rewrite length_fmap.
    destruct (2 <=? length bars)%nat eqn:E; map_lookup.
    - apply Nat.leb_le in E.
      rewrite Hc, MACD_line_flat, MACD_signal_line_flat, MACD_hist_line_flat.
      rewrite !from_end_replicate by lia. reflexivity.
    - by rewrite !lookup_empty. }
  exists self. split; [exact Hr|]. split; [exact Eal|]. split; [exact Ersi|].
  split; [exact Esr|]. split; [exact Ebo|].
  assert (Hpre : pre_volume_total self = Ok 0).
  { unfold pre_volume_total. rewrite Emp. cbn [mbind result_bind].
    unfold rsi_points, indicator_num. rewrite Ersi.
    cbn [mbind mret result_bind result_ret].
    unfold ma_alignment_points, indicator_is. rewrite Eal.
    unfold ma_cross_points. destruct Ecr as [-> ->].
    unfold bollinger_points, signal_is. rewrite Ebo. reflexivity. }
  split; [exact Hpre|].
  rewrite get_trend_score_rubric, Hpre. cbn [mbind mret result_bind result_ret].
  unfold volume_points. by destruct (signal_is self "volume" "high").
Qed.

Lemma flat_series_trend_score_witness :
  exists self,
    calculate_all Qsqrt_trunc (init flat_bars_20) = Ok self
    /\ indicators self !! "ma_alignment" = Some (VStr "mixed")
    /\ indicators self !! "rsi" = Some (VNum NaN)
    /\ signals self !! "rsi" = Some "neutral"
    /\ signals self !! "bollinger" = Some "within_bands"
    /\ pre_volume_total self = Ok 0
    /\ get_trend_score self = Ok (if signal_is self "volume" "high" then -5 else 0).
Proof.
  apply (flat_series_trend_score Qsqrt_trunc flat_bars_20 100).
  - reflexivity.
  - discriminate.
  - unfold flat_at, flat_bars_20. simpl. repeat constructor.
Defined.


(** ** The sentiment analyser *)

Lemma of_nat_div (a t : nat) :
  t <> 0%nat ->
  (Num.of_nat a / Num.of_nat t)%num
  = Fin (Qred ((Z.of_nat a # 1) / (Z.of_nat t # 1))).
Proof.
  intros Ht. unfold Num.of_nat, Num.of_Z. cbn [Num.div].
  rewrite Qzero_pos; [reflexivity|]. unfold Qlt. simpl. lia.
Qed.

Lemma Qnat_pos (t : nat) : t <> 0%nat -> (0 < Z.of_nat t # 1)%Q.
Proof. intros Ht. unfold Qlt. simpl. lia. Qed.

Lemma Qnat_nonneg (t : nat) : (0 <= Z.of_nat t # 1)%Q.
Proof. unfold Qle. simpl. lia. Qed.

Lemma Qnat_add (a b : nat) :
  (Z.of_nat (a + b) # 1 == (Z.of_nat a # 1) + (Z.of_nat b # 1))%Q.
Proof. unfold Qeq. simpl. lia. Qed.

Lemma Qnat_le (a b : nat) : (a <= b)%nat <-> (Z.of_nat a # 1 <= Z.of_nat b # 1)%Q.
Proof. unfold Qle. simpl. lia. Qed.

Lemma Qnat_lt (a b : nat) : (a < b)%nat <-> (Z.of_nat a # 1 < Z.of_nat b # 1)%Q.
Proof. unfold Qlt. simpl. lia. Qed.

(** The scores of the keyword method when some keyword matches. *)
Lemma keyword_scores_matched (lower : string -> string)
    (search_word : string -> string -> bool) (text : string) :
  let P := count_matches search_word positive_keywords (lower text) in
  let N := count_matches search_word negative_keywords (lower text) in
  (P + N)%nat <> 0%nat ->
  analyze_with_keywords lower search_word text
  = {| s_positive := Fin (Qred ((Z.of_nat P # 1) / (Z.of_nat (P + N) # 1)));
       s_negative := Fin (Qred ((Z.of_nat N # 1) / (Z.of_nat (P + N) # 1)));
       s_neutral := Num.of_Z 0 |}.
Proof.
  intros P N Ht. unfold analyze_with_keywords. fold P N.
  destruct (Nat.eqb_spec (P + N) 0) as [E|_]; [done|].
  rewrite !of_nat_div by done. f_equal.
  unfold Num.of_Z, py_max. cbn [Num.sub]. unfold Num.fin. cbn [Num.sub]. unfold Num.fin.
  rewrite (proj2 (gtb_Fin_false _ _)); [reflexivity|].
  rewrite !Qred_correct.
  pose proof (Qnat_pos _ Ht) as Hpos. rewrite Qnat_add in *.
  set (p := (Z.of_nat P # 1)%Q) in *. set (n := (Z.of_nat N # 1)%Q) in *.
  assert (E : (1 - p / (p + n) - n / (p + n) == 0)%Q) by (field; lra).
  rewrite E. lra.
Qed.

Lemma keyword_scores_unmatched (lower : string -> string)
    (search_word : string -> string -> bool) (text : string) :
  let P := count_matches search_word positive_keywords (lower text) in
  let N := count_matches search_word negative_keywords (lower text) in
  (P + N)%nat = 0%nat ->
  analyze_with_keywords lower search_word text
  = {| s_positive := Num.of_Z 0; s_negative := Num.of_Z 0; s_neutral := Num.of_Z 1 |}.
Proof.
  intros P N Ht. unfold analyze_with_keywords. fold P N. by rewrite Ht.
Qed.


(** The label of an article whose positive and negative scores share the
    whole weight. *)
Lemma article_label_split (p n : Q) :
  (0 <= p)%Q -> (0 <= n)%Q -> (p + n == 1)%Q ->
  article_label {| s_positive := Fin p; s_negative := Fin n; s_neutral := Num.of_Z 0 |}
  = if Qlt_le_dec (1 # 2) p then "positive"
    else if Qlt_le_dec (1 # 2) n then "negative" else "neutral".
Proof.
  intros Hp Hn Hs. unfold article_label, py_max, Num.of_Z.
  cbn [s_positive s_negative s_neutral].
  case_gtb n p.
  - rewrite (proj2 (gtb_Fin_false 0 n)) by lra. cbn [Num.eqb].
    destruct (Qeq_bool p n) eqn:Epn; [apply Qeq_bool_iff in Epn; lra|].
    cbn [andb]. rewrite (proj2 (Qeq_bool_iff n n)) by reflexivity. cbn [andb].
    destruct (Qlt_le_dec (1 # 2) p) as [H|H]; [lra|].
    destruct (Qlt_le_dec (1 # 2) n) as [H'|H'].
    + by rewrite (proj2 (gtb_Fin n (1 # 2))).
    + lra.
  - rewrite (proj2 (gtb_Fin_false 0 p)) by lra. cbn [Num.eqb].
    rewrite (proj2 (Qeq_bool_iff p p)) by reflexivity. cbn [andb].
    destruct (Qlt_le_dec (1 # 2) p) as [H|H].
    + by rewrite (proj2 (gtb_Fin p (1 # 2))).
    + rewrite (proj2 (gtb_Fin_false p (1 # 2))) by done.
      destruct (Qlt_le_dec (1 # 2) n) as [H'|H']; [lra|].
      rewrite (proj2 (gtb_Fin_false n (1 # 2))) by done.
      by rewrite andb_false_r.
Qed.

Lemma half_lt_ratio (x t : Q) :
  (0 < t)%Q -> (1 # 2 < x / t)%Q <-> (t < 2 * x)%Q.
Proof.
  intros Ht. split; intros H.
  - destruct (Qlt_le_dec t (2 * x)) as [|Hle]; [done|]. exfalso.
    apply (Qlt_not_le _ _ H). apply Qle_shift_div_r; [done|]. lra.
  - apply Qlt_shift_div_l; [done|]. lra.
Qed.

(** X15.  With the keyword method an article is labelled by the majority of
    its matches: positive when more positive than negative keywords occur in
    it, negative when more negative ones do, neutral on a tie (no match
    included). *)
Theorem keyword_label_by_majority (lower : string -> string)
    (search_word : string -> string -> bool) (text : string) :
  let P := count_matches search_word positive_keywords (lower text) in
  let N := count_matches search_word negative_keywords (lower text) in
  article_label (analyze_with_keywords lower search_word text)
  = if Nat.ltb N P then "positive"
    else if Nat.ltb P N then "negative" else "neutral".
Proof.
  intros P N. destruct (Nat.eq_dec (P + N)%nat 0%nat) as [E|E].
  - rewrite (keyword_scores_unmatched lower search_word text E).
    fold P N in E. assert (P = 0%nat /\ N = 0%nat) as [-> ->] by lia. reflexivity.
  - rewrite (keyword_scores_matched lower search_word text E). fold P N.
    pose proof (Qnat_pos _ E) as Hpos.
    pose proof (Qnat_nonneg P) as HP. pose proof (Qnat_nonneg N) as HN.
    pose proof (Qnat_lt N P) as HNP. pose proof (Qnat_lt P N) as HPN.
    pose proof (Qnat_le N P) as HNP'. pose proof (Qnat_le P N) as HPN'.
    pose proof (Qnat_add P N) as Ht.
    set (p := (Z.of_nat P # 1)%Q) in *. set (n := (Z.of_nat N # 1)%Q) in *.
    set (t := (Z.of_nat (P + N) # 1)%Q) in *.
    assert (Hp : (Qred (p / t) == p / t)%Q) by apply Qred_correct.
    assert (Hn : (Qred (n / t) == n / t)%Q) by apply Qred_correct.
    rewrite article_label_split.
    + destruct (Qlt_le_dec _ _) as [H|H]; rewrite Hp in H.
      * apply half_lt_ratio in H; [|done].
        destruct (Nat.ltb_spec N P) as [|Hle]; [done|]. apply HPN' in Hle. lra.
      * destruct (Nat.ltb_spec N P) as [Hlt|_].
        { apply HNP in Hlt. exfalso. apply (Qle_not_lt _ _ H).
          apply half_lt_ratio; [done|lra]. }
        destruct (Qlt_le_dec _ _) as [H'|H']; rewrite Hn in H'.
        -- apply half_lt_ratio in H'; [|done].
           destruct (Nat.ltb_spec P N) as [|Hle]; [done|]. apply HNP' in Hle. lra.
        -- destruct (Nat.ltb_spec P N) as [Hlt|_]; [|done].
           apply HPN in Hlt. exfalso. apply (Qle_not_lt _ _ H').
           apply half_lt_ratio; [done|lra].
    + rewrite Hp. apply Qle_shift_div_l; [done|lra].
    + rewrite Hn. apply Qle_shift_div_l; [done|lra].
    + rewrite Hp, Hn.
      assert (Hsum : (p / t + n / t == (p + n) / t)%Q) by (field; lra).
      rewrite Hsum, <- Ht. field. lra.
Qed.

Lemma analyze_one_counted (score_text : string -> Sentiment) (strftime : Z -> string)
    (isspace : ascii -> bool) (acc : Counters) (news : News) :
  counted acc -> counted (analyze_one score_text strftime isspace acc news).
Proof.
  unfold counted, analyze_one. intros H.
  destruct (blank _ _); [done|].
  cbn [c_positive c_negative c_neutral c_details].
  rewrite length_app. cbn [length].
  repeat case_bool_decide; try congruence; lia.
Qed.

Lemma foldl_analyze_one_counted (score_text : string -> Sentiment)
    (strftime : Z -> string) (isspace : ascii -> bool) (l : list News)
    (acc : Counters) :
  counted acc -> counted (foldl (analyze_one score_text strftime isspace) acc l).
Proof.
  revert acc. induction l as [|news l IH]; intros acc H; [done|].
  cbn [foldl]. apply IH. by apply analyze_one_counted.
Qed.




(** The record [analyze_news] builds from the counters of its loop. *)
Lemma analyze_news_eq (score_text : string -> Sentiment) (strftime : Z -> string)
    (isspace : ascii -> bool) (l : list News) :
  let acc :=
    foldl (analyze_one score_text strftime isspace)
      {| c_positive := 0; c_negative := 0; c_neutral := 0; c_details := [] |}
      (take 20 l) in
  total_news (analyze_news score_text strftime isspace l) = length (c_details acc)
  /\ positive_count (analyze_news score_text strftime isspace l) = c_positive acc
  /\ negative_count (analyze_news score_text strftime isspace l) = c_negative acc
  /\ neutral_count (analyze_news score_text strftime isspace l) = c_neutral acc
  /\ news_list (analyze_news score_text strftime isspace l) = c_details acc.
Proof. destruct l; repeat split. Qed.



(** The score of [analyze_news] from its counts. *)
Lemma sentiment_score_eq (score_text : string -> Sentiment) (strftime : Z -> string)
    (isspace : ascii -> bool) (l : list News) :
  let r := analyze_news score_text strftime isspace l in
  (positive_count r + negative_count r <= total_news r)%nat
  /\ exists q,
       sentiment_score_ r = Fin q
       /\ sentiment_label r = sentiment_label_of (Fin q)
       /\ (total_news r = 0%nat -> q = 0%Q)
       /\ (q * (Z.of_nat (total_news r) # 1)
           == ((Z.of_nat (positive_count r) # 1) - (Z.of_nat (negative_count r) # 1)) * 100)%Q.
Proof.
  destruct l as [|news l].
  { cbn. split; [lia|]. exists 0%Q. repeat split. }
  set (l' := news :: l). intros r.
  destruct (analyze_news_eq score_text strftime isspace l') as (Ht & Hp & Hn & Hu & Hl).
  fold r in Ht, Hp, Hn, Hu, Hl.
  assert (Hc : counted (foldl (analyze_one score_text strftime isspace)
    {| c_positive := 0; c_negative := 0; c_neutral := 0; c_details := [] |} (take 20 l'))).
  { apply foldl_analyze_one_counted. reflexivity. }
  unfold counted in Hc.
  split; [rewrite Hp, Hn, Ht; lia|].
  clear Ht Hp Hn Hu Hl. subst r. unfold analyze_news, l'. fold l'.
  cbn [sentiment_score_ sentiment_label total_news positive_count negative_count
       news_processing_limit SENTIMENT_CONFIG].
  set (acc := foldl _ _ _) in *.
  destruct (Nat.eqb_spec (length (c_details acc)) 0) as [E|E].
  - exists 0%Q. split; [reflexivity|]. split; [reflexivity|]. split; [reflexivity|].
    rewrite E. assert (c_positive acc = 0%nat /\ c_negative acc = 0%nat) as [-> ->].
    { lia. }
    reflexivity.
  - pose proof (Qzero_pos _ (Qnat_pos _ E)) as Hz.
    unfold Num.of_nat, Num.of_Z.
    repeat (progress (cbn [Num.mul Num.sub Num.div]; unfold Num.fin; rewrite ?Hz)).
    eexists. split; [reflexivity|]. split; [reflexivity|]. split; [done|].
    rewrite !Qred_correct. pose proof (Qnat_pos _ E) as Hpos. field. lra.
Qed.

Lemma analyze_news_score_in_range (score_text : string -> Sentiment)
    (strftime : Z -> string) (isspace : ascii -> bool) (l : list News) :
  in_score_range (sentiment_score_ (analyze_news score_text strftime isspace l)).
Proof.
  destruct (sentiment_score_eq score_text strftime isspace l)
    as (Hle & q & Hq & _ & Hz & Hv).
  set (r := analyze_news score_text strftime isspace l) in *.
  rewrite Hq. exists q. split; [reflexivity|].
  destruct (Nat.eq_dec (total_news r) 0%nat) as [E|E]; [rewrite (Hz E); lra|].
  destruct q as [qn qd]. unfold Qeq in Hv. simpl in Hv. rewrite Pos.mul_1_r in Hv.
  unfold Qle. simpl. nia.
Qed.

(** X17.  Whatever the scorer says of each article, the sentiment score of
    [analyze_news] is a finite number in [-100, 100]; the overall label is
    positive when the positive articles outnumber the negative ones by more
    than a quarter of the articles analysed, negative in the mirror case,
    and neutral otherwise (an empty list included). *)
Theorem sentiment_score_in_range (score_text : string -> Sentiment)
    (strftime : Z -> string) (isspace : ascii -> bool) (l : list News) :
  let r := analyze_news score_text strftime isspace l in
  let P := Z.of_nat (positive_count r) in
  let N := Z.of_nat (negative_count r) in
  let T := Z.of_nat (total_news r) in
  in_score_range (sentiment_score_ r)
  /\ sentiment_label r
     = (if T <? 4 * (P - N) then "positive"
        else if T <? 4 * (N - P) then "negative" else "neutral").
Proof.
  intros r P N T.
  pose proof (analyze_news_score_in_range score_text strftime isspace l) as Hrange.
  destruct (sentiment_score_eq score_text strftime isspace l)
    as (Hle & q & Hq & Hlab & Hz & Hv).
  fold r in Hle, Hq, Hlab, Hz, Hv, Hrange.
  assert (HPN : P + N <= T) by (unfold P, N, T; lia).
  assert (HP : 0 <= P) by (unfold P; lia). assert (HN : 0 <= N) by (unfold N; lia).
  assert (Hz' : T = 0 -> q = 0%Q) by (unfold T; intros; apply Hz; lia).
  fold P N T in Hv. clearbody P N T. clear Hle Hz.
  rewrite Hlab. clear Hq Hlab.
  destruct q as [qn qd]. unfold Qeq in Hv. simpl in Hv.
  rewrite Pos.mul_1_r in Hv.
  assert (Hv' : qn * T = 100 * (P - N) * Z.pos qd) by lia. clear Hv.
  assert (Hqd : 0 < Z.pos qd) by lia.
  assert (H0 : T = 0 -> qn = 0).
  { intros HT. specialize (Hz' HT). by inversion Hz'. }
  clear Hz'. set (d := Z.pos qd) in *.
  split; [exact Hrange|].
  - unfold sentiment_label_of, Num.of_Z.
    case_gtb (qn # qd)%Q (25 # 1)%Q; unfold Qlt, Qle in E; simpl in E; fold d in E.
    + destruct (Z.ltb_spec T (4 * (P - N))) as [|Hge]; [done|]. exfalso.
      destruct (Z.eq_dec T 0) as [HT|HT]; [rewrite (H0 HT) in E; lia|]. nia.
    + destruct (Z.ltb_spec T (4 * (P - N))) as [Hlt|_]; [exfalso; nia|].
      destruct (Fin (qn # qd) <? Fin (-25 # 1))%num eqn:E';
        [apply NumFacts.ltb_Fin in E' | apply ltb_Fin_false in E'];
        unfold Qlt, Qle in E'; simpl in E'; fold d in E'.
      * destruct (Z.ltb_spec T (4 * (N - P))) as [|Hge]; [done|]. exfalso.
        destruct (Z.eq_dec T 0) as [HT|HT]; [rewrite (H0 HT) in E'; lia|]. nia.
      * destruct (Z.ltb_spec T (4 * (N - P))) as [Hlt|_]; [exfalso; nia|]. done.
Qed.





(** ** The key points *)

(** X20.  On the indicators [calculate_all] leaves for a non-empty frame,
    [generate_key_points] raises nothing and returns at most four points on
    the indicators and the news followed by the two closing points, the
    general caution and the advice chosen by the sign of the composite
    score.  On a frame of fewer than 14 bars no indicator gives a point (the
    alignment is mixed, the RSI is NaN, the volume ratio is 1): what is left
    is the point on the news, if any, and the two closing points. *)
Theorem key_points_after_analysis (Qsqrt : Q -> Q) (format_1f : num -> string)
    (bars : list PriceBar) (sg : SignalGenerator) (r : SentimentResult) :
  bars <> [] ->
  exists self' pre,
    calculate_all Qsqrt (init bars) = Ok self'
    /\ generate_key_points format_1f sg (indicators self') r
       = Ok (pre ++ closing_points sg)
    /\ (length pre <= 4)%nat
    /\ ((length bars < 14)%nat -> pre = sentiment_points r).
Proof.
  intros Hbars.
  destruct (calculate_all_leaves Qsqrt (init bars) Hbars) as (self & Hr & _ & Hind & _).
  cbn [df indicators init] in Hind.
  assert (Hrsi : get_num (indicators self) "rsi" (Num.of_Z 50)
                 = Ok (current_rsi (Close <$> bars))).
  { unfold get_num. rewrite Hind. by all_lookup. }
  assert (Hvol : get_num (indicators self) "volume_ratio" (Num.of_Z 1)
                 = Ok (current_volume_ratio (Volume <$> bars)
                         (from_end 1 (Volume <$> bars)))).
  { unfold get_num. rewrite Hind. by all_lookup. }
  assert (Hma : forall label,
            get_is (indicators self) "ma_alignment" "mixed" label
            = bool_decide (ma_alignment_label (Close <$> bars) = label)).
  { intros label. unfold get_is. rewrite Hind. by all_lookup. }
  exists self. unfold generate_key_points. rewrite Hrsi, Hvol, !Hma.
  cbn [mbind mret result_bind result_ret].
  pose (rsi := current_rsi (Close <$> bars)).
  pose (ratio := current_volume_ratio (Volume <$> bars) (from_end 1 (Volume <$> bars))).
  pose (a1 := bool_decide (ma_alignment_label (Close <$> bars) = "bullish")).
  pose (a2 := bool_decide (ma_alignment_label (Close <$> bars) = "bearish")).
  eexists ((if a1 then [_] else if a2 then [_] else [])
           ++ (if (rsi >? Num.of_Z 70)%num then [_]
               else if (rsi <? Num.of_Z 30)%num then [_] else [])
           ++ sentiment_points r
           ++ (if (ratio >? Fin (3 # 2))%num then [_]
               else if (ratio <? Fin (1 # 2))%num then [_] else [])).
  split; [exact Hr|].
  fold rsi ratio a1 a2.
  split; [|split].
  - unfold closing_points, sentiment_points.
    destruct a1, a2, (rsi >? Num.of_Z 70)%num, (rsi <? Num.of_Z 30)%num,
      (bool_decide (sentiment_label r = "positive")),
      (bool_decide (sentiment_label r = "negative")),
      (ratio >? Fin (3 # 2))%num, (ratio <? Fin (1 # 2))%num,
      (composite_score sg >? Num.of_Z 0)%num; reflexivity.
  - unfold sentiment_points. rewrite !length_app.
    destruct a1, a2, (rsi >? Num.of_Z 70)%num, (rsi <? Num.of_Z 30)%num,
      (bool_decide (sentiment_label r = "positive")),
      (bool_decide (sentiment_label r = "negative")),
      (ratio >? Fin (3 # 2))%num, (ratio <? Fin (1 # 2))%num; cbn [length]; lia.
  - intros Hshort.
    assert (H1 : a1 = false).
    { unfold a1. rewrite ma_alignment_label_short by (rewrite length_fmap; lia). done. }
    assert (H2 : a2 = false).
    { unfold a2. rewrite ma_alignment_label_short by (rewrite length_fmap; lia). done. }
    assert (H3 : rsi = NaN) by (apply current_rsi_short; by rewrite length_fmap).
    assert (H4 : ratio = Num.of_Z 1).
    { apply current_volume_ratio_short. rewrite length_fmap. lia. }
    rewrite H1, H2, H3, H4. cbn. by rewrite app_nil_r.
Qed.

Lemma key_points_after_analysis_witness :
  exists self' pre,
    calculate_all Qsqrt_trunc (init rising_bars) = Ok self'
    /\ generate_key_points (fun _ => "100.0")
         (SignalGenerator_init (Num.of_Z 15) (Num.of_Z 50) (Num.of_Z 113) (Num.of_Z 1))
         (indicators self')
         (analyze_news (fun _ => {| s_positive := Num.of_Z 1; s_negative := Num.of_Z 0;
                                    s_neutral := Num.of_Z 0 |})
            (fun _ => "1970-01-01 00:00") ascii_space sample_news)
       = Ok (pre ++ closing_points
                      (SignalGenerator_init (Num.of_Z 15) (Num.of_Z 50) (Num.of_Z 113)
                         (Num.of_Z 1)))
    /\ (length pre <= 4)%nat
    /\ ((length rising_bars < 14)%nat ->
        pre = sentiment_points
                (analyze_news (fun _ => {| s_positive := Num.of_Z 1; s_negative := Num.of_Z 0;
                                           s_neutral := Num.of_Z 0 |})
                   (fun _ => "1970-01-01 00:00") ascii_space sample_news)).
Proof.
  apply (key_points_after_analysis Qsqrt_trunc (fun _ => "100.0") rising_bars).
  discriminate.
Defined.


(** ** The risk engine: method and volatility *)



(** ** Rounding to two decimals *)













(** ** Trending closes *)

Lemma strictly_rising_tail (x : num) (s : pd.Series) :
  strictly_rising (x :: s) -> strictly_rising s.
Proof. destruct s; simpl; tauto. Qed.

Lemma strictly_rising_finite (s : pd.Series) : strictly_rising s -> finite_series s.
Proof.
  induction s as [|x s IH]; intros H; [constructor|].
  constructor; [by apply strictly_rising_head in H|].
  apply IH. by apply strictly_rising_tail in H.
Qed.

Lemma Qsum_app (a b : pd.Series) : (Qsum (a ++ b) == Qsum a + Qsum b)%Q.
Proof.
  induction a as [|x a IH].
  - change (Qsum ([] ++ b)) with (Qsum b). change (Qsum []) with 0%Q. ring.
  - change (Qsum ((x :: a) ++ b)) with (Qval x + Qsum (a ++ b))%Q.
    change (Qsum (x :: a)) with (Qval x + Qsum a)%Q. rewrite IH. ring.
Qed.

Lemma sum_denotes (s : pd.Series) : finite_series s -> denotes (Qsum s) (pd.sum s).
Proof.
  induction 1 as [|x s Hx _ IH]; [by exists 0%Q|].
  destruct IH as (q & Hq & Hv). destruct x as [| | |a]; try discriminate.
  rewrite sum_cons, Hq. cbn [Num.add]. unfold Num.fin.
  eexists. split; [reflexivity|]. rewrite Qred_correct.
  cbn [Qsum foldr Qval]. fold (Qsum s). by rewrite Hv.
Qed.

Lemma length_tail (w : nat) (s : pd.Series) :
  (w <= length s)%nat -> length (pd.tail w s) = w.
Proof. intros H. unfold pd.tail. rewrite length_drop. lia. Qed.

(** The rolling mean at the last bar, as a rational. *)
Lemma window_mean_denotes (w : nat) (s : pd.Series) :
  finite_series s -> (0 < w <= length s)%nat ->
  denotes (Qsum (pd.tail w s) / inject_Z (Z.of_nat w)) (pd.window_mean w s).
Proof.
  intros Hs [Hw Hlen]. unfold pd.window_mean.
  replace (length s <? w)%nat with false by (symmetry; apply Nat.ltb_ge; lia).
  unfold pd.mean. rewrite length_tail by done.
  destruct (sum_denotes (pd.tail w s)) as (q & Hq & Hv); [by apply Forall_drop|].
  rewrite Hq. unfold Num.of_nat, Num.of_Z. cbn [Num.div].
  rewrite Qzero_pos by (apply Qnat_pos; lia). unfold Num.fin.
  eexists. split; [reflexivity|]. rewrite Qred_correct.
  change (Z.of_nat w # 1) with (inject_Z (Z.of_nat w)). by rewrite Hv.
Qed.

Lemma ltb_Qval (x y : num) :
  Num.is_finite x = true -> Num.is_finite y = true ->
  (x <? y)%num = true <-> (Qval x < Qval y)%Q.
Proof.
  destruct x as [| | |a], y as [| | |b]; try discriminate. intros _ _.
  apply NumFacts.ltb_Fin.
Qed.

(** In a strictly rising column every cell is below all the later ones. *)
Lemma rising_all_lt (x : num) (s : pd.Series) :
  strictly_rising (x :: s) -> Forall (fun y => (Qval x < Qval y)%Q) s.
Proof.
  revert x. induction s as [|y s IH]; intros x H; [constructor|].
  destruct H as (Hx & Hxy & Hs).
  pose proof (strictly_rising_head _ _ Hs) as Hy.
  apply ltb_Qval in Hxy; [|done..].
  constructor; [exact Hxy|].
  apply (Forall_impl _ _ _ (IH y Hs)). intros z Hz. by apply (Qlt_trans _ (Qval y)).
Qed.

Lemma rising_app (a b : pd.Series) :
  strictly_rising (a ++ b) ->
  Forall (fun x => Forall (fun y => (Qval x < Qval y)%Q) b) a /\ strictly_rising b.
Proof.
  induction a as [|x a IH]; intros H; [by split|].
  cbn [app] in H. pose proof (rising_all_lt _ _ H) as Hall.
  apply Forall_app in Hall as [_ Hb].
  apply strictly_rising_tail in H. destruct (IH H) as [Ha Hb'].
  split; [by constructor | exact Hb'].
Qed.

Lemma inject_Z_S (n : nat) :
  (inject_Z (Z.of_nat (S n)) == inject_Z (Z.of_nat n) + 1)%Q.
Proof. unfold Qeq, inject_Z. simpl. lia. Qed.

(** A bound below every cell is below the mean. *)
Lemma Qsum_above (c : Q) (b : pd.Series) :
  Forall (fun y => (c < Qval y)%Q) b ->
  (c * inject_Z (Z.of_nat (length b)) <= Qsum b)%Q
  /\ (b <> [] -> (c * inject_Z (Z.of_nat (length b)) < Qsum b)%Q).
Proof.
  induction 1 as [|y b Hy _ [IH _]].
  - split; [|done]. cbn [length Qsum foldr]. change (inject_Z (Z.of_nat 0)) with 0%Q. lra.
  - cbn [length Qsum foldr]. fold (Qsum b). rewrite inject_Z_S.
    split; [|intros _]; lra.
Qed.

Lemma Qsum_below (c : Q) (b : pd.Series) :
  Forall (fun y => (Qval y < c)%Q) b ->
  (Qsum b <= c * inject_Z (Z.of_nat (length b)))%Q
  /\ (b <> [] -> (Qsum b < c * inject_Z (Z.of_nat (length b)))%Q).
Proof.
  induction 1 as [|y b Hy _ [IH _]].
  - split; [|done]. cbn [length Qsum foldr]. change (inject_Z (Z.of_nat 0)) with 0%Q. lra.
  - cbn [length Qsum foldr]. fold (Qsum b). rewrite inject_Z_S.
    split; [|intros _]; lra.
Qed.

(** When every cell of [a] is below every cell of [b], the mean of [a] is
    below the mean of [b]; cross-multiplied. *)
Lemma Qsum_cross_lt (a b : pd.Series) :
  Forall (fun x => Forall (fun y => (Qval x < Qval y)%Q) b) a -> b <> [] ->
  (Qsum a * inject_Z (Z.of_nat (length b)) <= Qsum b * inject_Z (Z.of_nat (length a)))%Q
  /\ (a <> [] ->
      (Qsum a * inject_Z (Z.of_nat (length b)) < Qsum b * inject_Z (Z.of_nat (length a)))%Q).
Proof.
  intros H Hb. induction H as [|x a Hx _ [IH _]].
  - split; [|done]. cbn [length Qsum foldr]. change (inject_Z (Z.of_nat 0)) with 0%Q. lra.
  - destruct (Qsum_above (Qval x) b Hx) as [_ Hlt]. specialize (Hlt Hb).
    cbn [length Qsum foldr]. fold (Qsum a). rewrite inject_Z_S.
    split; [|intros _]; lra.
Qed.

Lemma Qsum_cross_gt (a b : pd.Series) :
  Forall (fun x => Forall (fun y => (Qval y < Qval x)%Q) b) a -> b <> [] ->
  (Qsum b * inject_Z (Z.of_nat (length a)) <= Qsum a * inject_Z (Z.of_nat (length b)))%Q
  /\ (a <> [] ->
      (Qsum b * inject_Z (Z.of_nat (length a)) < Qsum a * inject_Z (Z.of_nat (length b)))%Q).
Proof.
  intros H Hb. induction H as [|x a Hx _ [IH _]].
  - split; [|done]. cbn [length Qsum foldr]. change (inject_Z (Z.of_nat 0)) with 0%Q. lra.
  - destruct (Qsum_below (Qval x) b Hx) as [_ Hlt]. specialize (Hlt Hb).
    cbn [length Qsum foldr]. fold (Qsum a). rewrite inject_Z_S.
    split; [|intros _]; lra.
Qed.

Lemma strictly_rising_drop (k : nat) (s : pd.Series) :
  strictly_rising s -> strictly_rising (drop k s).
Proof.
  intros H. rewrite <- (take_drop k s) in H. by apply rising_app in H as [_ H].
Qed.

Lemma strictly_rising_take (k : nat) (s : pd.Series) :
  strictly_rising s -> strictly_rising (take k s).
Proof.
  revert k. induction s as [|x s IH]; intros k H; [by destruct k|].
  destruct k as [|k]; [done|]. cbn [take].
  pose proof (IH k (strictly_rising_tail _ _ H)) as Ht.
  destruct s as [|y s]; [by destruct k|].
  destruct k as [|k]; [cbn; by apply strictly_rising_head in H|].
  cbn [take] in *. destruct H as (Hx & Hxy & _). by repeat split.
Qed.

(** The window splits into its older part and the shorter window. *)
Lemma tail_split (m n : nat) (s : pd.Series) :
  (m <= n <= length s)%nat ->
  pd.tail n s = take (n - m) (pd.tail n s) ++ pd.tail m s
  /\ length (take (n - m) (pd.tail n s)) = (n - m)%nat.
Proof.
  intros [Hm Hn]. split.
  - rewrite <- (take_drop (n - m) (pd.tail n s)) at 1. f_equal.
    unfold pd.tail. rewrite drop_drop. f_equal. lia.
  - rewrite length_take, length_tail by done. lia.
Qed.

(** Cross-multiplied comparison of two means. *)
Lemma means_lt (sa sb : Q) (m k : nat) :
  (0 < m)%nat ->
  (sa * inject_Z (Z.of_nat m) < sb * inject_Z (Z.of_nat k))%Q ->
  ((sa + sb) / inject_Z (Z.of_nat (k + m)) < sb / inject_Z (Z.of_nat m))%Q.
Proof.
  intros Hm H.
  assert (HM : (0 < inject_Z (Z.of_nat m))%Q) by (apply (Qnat_pos m); lia).
  assert (HN : (0 < inject_Z (Z.of_nat (k + m)))%Q) by (apply (Qnat_pos (k + m)); lia).
  assert (E : (inject_Z (Z.of_nat (k + m))
               == inject_Z (Z.of_nat k) + inject_Z (Z.of_nat m))%Q) by apply Qnat_add.
  apply Qlt_shift_div_l; [done|].
  assert (E' : ((sa + sb) / inject_Z (Z.of_nat (k + m)) * inject_Z (Z.of_nat m)
                == (sa + sb) * inject_Z (Z.of_nat m) / inject_Z (Z.of_nat (k + m)))%Q).
  { field. lra. }
  rewrite E'. apply Qlt_shift_div_r; [done|]. rewrite E. lra.
Qed.

Lemma means_gt (sa sb : Q) (m k : nat) :
  (0 < m)%nat ->
  (sb * inject_Z (Z.of_nat k) < sa * inject_Z (Z.of_nat m))%Q ->
  (sb / inject_Z (Z.of_nat m) < (sa + sb) / inject_Z (Z.of_nat (k + m)))%Q.
Proof.
  intros Hm H.
  assert (HM : (0 < inject_Z (Z.of_nat m))%Q) by (apply (Qnat_pos m); lia).
  assert (HN : (0 < inject_Z (Z.of_nat (k + m)))%Q) by (apply (Qnat_pos (k + m)); lia).
  assert (E : (inject_Z (Z.of_nat (k + m))
               == inject_Z (Z.of_nat k) + inject_Z (Z.of_nat m))%Q) by apply Qnat_add.
  apply Qlt_shift_div_r; [done|].
  assert (E' : ((sa + sb) / inject_Z (Z.of_nat (k + m)) * inject_Z (Z.of_nat m)
                == (sa + sb) * inject_Z (Z.of_nat m) / inject_Z (Z.of_nat (k + m)))%Q).
  { field. lra. }
  rewrite E'. apply Qlt_shift_div_l; [done|]. rewrite E. lra.
Qed.

(** On a strictly rising column the shorter window has the larger mean. *)
Lemma window_means_rising (m n : nat) (s : pd.Series) :
  strictly_rising s -> (0 < m < n)%nat -> (n <= length s)%nat ->
  (pd.window_mean m s >? pd.window_mean n s)%num = true.
Proof.
  intros Hs [Hm Hmn] Hn. pose proof (strictly_rising_finite s Hs) as Hfin.
  destruct (window_mean_denotes m s Hfin) as (qm & -> & Hqm); [lia|].
  destruct (window_mean_denotes n s Hfin) as (qn & -> & Hqn); [lia|].
  apply gtb_Fin. rewrite Hqm, Hqn.
  destruct (tail_split m n s) as [Hsplit Hlen]; [lia|].
  set (a := take (n - m) (pd.tail n s)) in *. set (b := pd.tail m s) in *.
  assert (Hrise : strictly_rising (a ++ b)).
  { rewrite <- Hsplit. by apply strictly_rising_drop. }
  apply rising_app in Hrise as [Hab _].
  assert (Hb : length b = m) by (apply length_tail; lia).
  destruct (Qsum_cross_lt a b Hab) as [_ Hlt].
  { intros E. rewrite E in Hb. simpl in Hb. lia. }
  specialize (Hlt ltac:(intros E; rewrite E in Hlen; simpl in Hlen; lia)).
  rewrite Hb, Hlen in Hlt.
  rewrite Hsplit, Qsum_app.
  pose proof (means_lt (Qsum a) (Qsum b) m (n - m) Hm Hlt) as H.
  replace (n - m + m)%nat with n in H by lia. exact H.
Qed.

Lemma strictly_falling_head (x : num) (s : pd.Series) :
  strictly_falling (x :: s) -> Num.is_finite x = true.
Proof. destruct s; simpl; tauto. Qed.

Lemma strictly_falling_tail (x : num) (s : pd.Series) :
  strictly_falling (x :: s) -> strictly_falling s.
Proof. destruct s; simpl; tauto. Qed.

Lemma strictly_falling_finite (s : pd.Series) : strictly_falling s -> finite_series s.
Proof.
  induction s as [|x s IH]; intros H; [constructor|].
  constructor; [by apply strictly_falling_head in H|].
  apply IH. by apply strictly_falling_tail in H.
Qed.

Lemma falling_all_gt (x : num) (s : pd.Series) :
  strictly_falling (x :: s) -> Forall (fun y => (Qval y < Qval x)%Q) s.
Proof.
  revert x. induction s as [|y s IH]; intros x H; [constructor|].
  destruct H as (Hx & Hxy & Hs).
  pose proof (strictly_falling_head _ _ Hs) as Hy.
  unfold Num.gtb in Hxy. apply ltb_Qval in Hxy; [|done..].
  constructor; [exact Hxy|].
  apply (Forall_impl _ _ _ (IH y Hs)). intros z Hz. by apply (Qlt_trans _ (Qval y)).
Qed.

Lemma falling_app (a b : pd.Series) :
  strictly_falling (a ++ b) ->
  Forall (fun x => Forall (fun y => (Qval y < Qval x)%Q) b) a /\ strictly_falling b.
Proof.
  induction a as [|x a IH]; intros H; [by split|].
  cbn [app] in H. pose proof (falling_all_gt _ _ H) as Hall.
  apply Forall_app in Hall as [_ Hb].
  apply strictly_falling_tail in H. destruct (IH H) as [Ha Hb'].
  split; [by constructor | exact Hb'].
Qed.

Lemma strictly_falling_drop (k : nat) (s : pd.Series) :
  strictly_falling s -> strictly_falling (drop k s).
Proof.
  intros H. rewrite <- (take_drop k s) in H. by apply falling_app in H as [_ H].
Qed.

Lemma strictly_falling_take (k : nat) (s : pd.Series) :
  strictly_falling s -> strictly_falling (take k s).
Proof.
  revert k. induction s as [|x s IH]; intros k H; [by destruct k|].
  destruct k as [|k]; [done|]. cbn [take].
  pose proof (IH k (strictly_falling_tail _ _ H)) as Ht.
  destruct s as [|y s]; [by destruct k|].
  destruct k as [|k]; [cbn; by apply strictly_falling_head in H|].
  cbn [take] in *. destruct H as (Hx & Hxy & _). by repeat split.
Qed.

(** On a strictly falling column the shorter window has the smaller mean. *)
Lemma window_means_falling (m n : nat) (s : pd.Series) :
  strictly_falling s -> (0 < m < n)%nat -> (n <= length s)%nat ->
  (pd.window_mean m s <? pd.window_mean n s)%num = true.
Proof.
  intros Hs [Hm Hmn] Hn. pose proof (strictly_falling_finite s Hs) as Hfin.
  destruct (window_mean_denotes m s Hfin) as (qm & -> & Hqm); [lia|].
  destruct (window_mean_denotes n s Hfin) as (qn & -> & Hqn); [lia|].
  apply NumFacts.ltb_Fin. rewrite Hqm, Hqn.
  destruct (tail_split m n s) as [Hsplit Hlen]; [lia|].
  set (a := take (n - m) (pd.tail n s)) in *. set (b := pd.tail m s) in *.
  assert (Hfall : strictly_falling (a ++ b)).
  { rewrite <- Hsplit. by apply strictly_falling_drop. }
  apply falling_app in Hfall as [Hab _].
  assert (Hb : length b = m) by (apply length_tail; lia).
  destruct (Qsum_cross_gt a b Hab) as [_ Hlt].
  { intros E. rewrite E in Hb. simpl in Hb. lia. }
  specialize (Hlt ltac:(intros E; rewrite E in Hlen; simpl in Hlen; lia)).
  rewrite Hb, Hlen in Hlt.
  rewrite Hsplit, Qsum_app.
  pose proof (means_gt (Qsum a) (Qsum b) m (n - m) Hm Hlt) as H.
  replace (n - m + m)%nat with n in H by lia. exact H.
Qed.

Lemma gtb_not_leb (x y : num) : (x >? y)%num = true -> (x <=? y)%num = false.
Proof.
  destruct x as [| | |a], y as [| | |b]; try done.
  rewrite gtb_Fin. intros H. cbn [Num.leb].
  destruct (Qle_bool a b) eqn:E; [|done]. apply Qle_bool_iff in E. lra.
Qed.

Lemma ltb_not_geb (x y : num) : (x <? y)%num = true -> (x >=? y)%num = false.
Proof.
  destruct x as [| | |a], y as [| | |b]; try done.
  rewrite NumFacts.ltb_Fin. intros H. unfold Num.geb. cbn [Num.leb].
  destruct (Qle_bool b a) eqn:E; [|done]. apply Qle_bool_iff in E. lra.
Qed.

Lemma ma_alignment_label_rising (close : pd.Series) :
  strictly_rising close -> (50 <= length close)%nat ->
  ma_alignment_label close = "bullish".
Proof.
  intros H Hlen. unfold ma_alignment_label, ma_values.
  cbn [config.ma_periods TECHNICAL_CONFIG fmap list_fmap all_adjacent].
  by rewrite (window_means_rising 5 10), (window_means_rising 10 20),
    (window_means_rising 20 50) by (done || lia).
Qed.

Lemma ma_alignment_label_falling (close : pd.Series) :
  strictly_falling close -> (50 <= length close)%nat ->
  ma_alignment_label close = "bearish".
Proof.
  intros H Hlen. unfold ma_alignment_label, ma_values.
  cbn [config.ma_periods TECHNICAL_CONFIG fmap list_fmap all_adjacent].
  pose proof (window_means_falling 5 10 close H ltac:(lia) ltac:(lia)) as H1.
  unfold Num.gtb at 1. rewrite (ltb_asym _ _ H1). cbn [andb].
  by rewrite H1, (window_means_falling 10 20), (window_means_falling 20 50)
    by (done || lia).
Qed.

Lemma ma_crossover_rising (close : pd.Series) :
  strictly_rising close -> (21 <= length close)%nat ->
  ma_crossover 5 20 close = "none".
Proof.
  intros H Hlen. unfold ma_crossover, sma.
  pose proof (window_means_rising 5 20 (take (length close - 1) close)
                (strictly_rising_take _ _ H) ltac:(lia)
                ltac:(rewrite length_take; lia)) as Hprev.
  pose proof (window_means_rising 5 20 (take (length close - 0) close)
                (strictly_rising_take _ _ H) ltac:(lia)
                ltac:(rewrite length_take; lia)) as Hcurr.
  rewrite (gtb_not_leb _ _ Hprev). cbn [andb].
  unfold Num.gtb in Hcurr. rewrite (ltb_asym _ _ Hcurr).
  by rewrite andb_false_r.
Qed.

Lemma ma_crossover_falling (close : pd.Series) :
  strictly_falling close -> (21 <= length close)%nat ->
  ma_crossover 5 20 close = "none".
Proof.
  intros H Hlen. unfold ma_crossover, sma.
  pose proof (window_means_falling 5 20 (take (length close - 1) close)
                (strictly_falling_take _ _ H) ltac:(lia)
                ltac:(rewrite length_take; lia)) as Hprev.
  pose proof (window_means_falling 5 20 (take (length close - 0) close)
                (strictly_falling_take _ _ H) ltac:(lia)
                ltac:(rewrite length_take; lia)) as Hcurr.
  unfold Num.gtb. rewrite (ltb_asym _ _ Hcurr). rewrite andb_false_r.
  by rewrite (ltb_not_geb _ _ Hprev).
Qed.

(** *** The RSI of a strictly falling close *)

Lemma diff_from_falling (s : pd.Series) (x : num) :
  strictly_falling (x :: s) -> Forall negative_ (pd.diff_from x s).
Proof.
  revert x. induction s as [|y s IH]; intros x H; [constructor|].
  destruct H as (Hx & Hxy & Hs). simpl. constructor; [|by apply IH].
  apply strictly_falling_head in Hs.
  destruct x as [| | |a], y as [| | |b]; try discriminate.
  apply gtb_Fin in Hxy. eexists. split; [reflexivity|].
  rewrite Qred_correct. lra.
Qed.

Lemma where_no_rise (d : pd.Series) :
  Forall negative_ d ->
  pd.where_ (fun d => (d >? Num.of_Z 0)%num) (Num.of_Z 0) d
  = replicate (length d) (Num.of_Z 0).
Proof.
  unfold pd.where_. induction 1 as [|x ds (q & -> & Hq) _ IH]; [done|].
  rewrite fmap_cons, IH. cbn [length replicate]. f_equal.
  unfold Num.of_Z. rewrite (proj2 (gtb_Fin_false q 0)); [reflexivity | lra].
Qed.

Lemma where_all_falls (d : pd.Series) :
  Forall negative_ d ->
  Forall positive_ (Num.neg <$> pd.where_ (fun d => (d <? Num.of_Z 0)%num) (Num.of_Z 0) d).
Proof.
  unfold pd.where_. induction 1 as [|x ds (q & -> & Hq) _ IH]; [constructor|].
  rewrite !fmap_cons. constructor; [|exact IH].
  unfold Num.of_Z. rewrite (proj2 (NumFacts.ltb_Fin q 0)) by done.
  cbn [Num.neg]. unfold Num.fin. eexists. split; [reflexivity|].
  rewrite Qred_correct. lra.
Qed.

Lemma gains_falling (s : pd.Series) :
  strictly_falling s -> gains s = replicate (length s) (Num.of_Z 0).
Proof.
  destruct s as [|x s]; [done|]. intros H. apply diff_from_falling in H.
  assert (Hd : length (pd.diff_from x s) = length s).
  { pose proof (pdFacts.length_diff (x :: s)) as E. simpl in E. lia. }
  unfold gains. cbn [pd.diff].
  change (pd.where_ ?f ?o (NaN :: ?d)) with (o :: pd.where_ f o d).
  rewrite where_no_rise, Hd by done. reflexivity.
Qed.

(** In a window that ends at the last of at least two falling bars, no fall
    is negative and the last one is positive. *)
Lemma losses_window_falling (w : nat) (s : pd.Series) :
  strictly_falling s -> (1 <= w)%nat -> (2 <= length s)%nat ->
  Forall nonneg (pd.tail w (losses s)) /\ Exists positive_ (pd.tail w (losses s)).
Proof.
  intros H Hw Hlen. destruct s as [|x s]; [simpl in Hlen; lia|].
  apply diff_from_falling in H.
  assert (Hd : length (pd.diff_from x s) = length s).
  { pose proof (pdFacts.length_diff (x :: s)) as E. simpl in E. lia. }
  simpl in Hlen. unfold losses. cbn [pd.diff].
  change (pd.where_ ?f ?o (NaN :: ?d)) with (o :: pd.where_ f o d).
  rewrite fmap_cons.
  pose proof (where_all_falls _ H) as Hpos.
  set (l := Num.neg <$> pd.where_ _ _ _) in *.
  assert (Hl : length l = length s).
  { unfold l. by rewrite length_fmap, pdFacts.length_where. }
  assert (Hall : Forall nonneg (Num.neg (Num.of_Z 0) :: l)).
  { constructor.
    - exists 0%Q. split; [reflexivity | apply Qle_refl].
    - eapply Forall_impl; [exact Hpos | apply positive_nonneg]. }
  split; [by apply Forall_drop|].
  unfold pd.tail. cbn [length]. rewrite Hl.
  destruct (S (length s) - w)%nat as [|k] eqn:E.
  - simpl. apply Exists_cons_tl.
    destruct l; [simpl in Hl; lia|].
    apply Exists_cons_hd. by apply Forall_cons in Hpos as [? _].
  - simpl. apply Exists_drop; [done | lia].
Qed.

Lemma rsi_of_zero_gain (g l : Q) :
  (g == 0)%Q -> (0 < l)%Q -> rsi_of (Fin g) (Fin l) = Num.of_Z 0.
Proof.
  intros Hg Hl. unfold rsi_of. cbn [Num.div]. rewrite (Qzero_pos l Hl).
  unfold Num.of_Z, Num.fin. cbn [Num.add]. unfold Num.fin. cbn [Num.div].
  assert (E : (Qred (1 + Qred (g / l)) == 1)%Q).
  { rewrite !Qred_correct, Hg. field. lra. }
  rewrite Qzero_pos by (rewrite E; lra).
  unfold Num.fin. cbn [Num.sub]. unfold Num.fin.
  apply (f_equal Fin). change (0 # 1)%Q with (Qred 0). apply Qred_complete.
  rewrite Qred_correct, E. reflexivity.
Qed.

Lemma current_rsi_falling (close : pd.Series) :
  strictly_falling close ->
  (config.rsi_period TECHNICAL_CONFIG <= length close)%nat ->
  current_rsi close = Num.of_Z 0.
Proof.
  cbn [config.rsi_period TECHNICAL_CONFIG]. intros H Hlen. unfold current_rsi.
  cbn [config.rsi_period TECHNICAL_CONFIG].
  rewrite gains_falling, window_mean_zeros by (done || lia).
  destruct (losses_window_falling 14 close H) as [Hnn Hex]; [lia | lia |].
  destruct (mean_positive _ Hnn Hex) as (l & Hl & Hl0).
  unfold pd.window_mean. rewrite length_losses.
  replace (length close <? 14)%nat with false by (symmetry; apply Nat.ltb_ge; lia).
  rewrite Hl. by apply rsi_of_zero_gain.
Qed.

(** What a trending close of at least 50 bars leaves in the dictionaries. *)
Lemma trending_series (Qsqrt : Q -> Q) (bars : list PriceBar)
    (alignment rsi_signal : string) (rsi : Z) :
  bars <> [] ->
  ma_alignment_label (Close <$> bars) = alignment ->
  ma_crossover 5 20 (Close <$> bars) = "none" ->
  current_rsi (Close <$> bars) = Num.of_Z rsi ->
  rsi_label (Num.of_Z rsi) = rsi_signal ->
  (2 <= length bars)%nat ->
  exists self',
    calculate_all Qsqrt (init bars) = Ok self'
    /\ indicators self' !! "ma_alignment" = Some (VStr alignment)
    /\ signals self' !! "ma_cross" = Some "none"
    /\ indicators self' !! "rsi" = Some (VNum (Num.of_Z rsi))
    /\ signals self' !! "rsi" = Some rsi_signal.
Proof.
  intros Hbars Hal Hcross Hrsi Hlab Hlen.
  destruct (calculate_all_leaves Qsqrt (init bars) Hbars) as (self & Hr & _ & Hind & Hsig).
  cbn [df indicators signals init] in Hind, Hsig.
  exists self. split; [exact Hr|]. rewrite Hind, Hsig.
  assert (E : (2 <=? length bars)%nat = true) by (apply Nat.leb_le; lia).
  unfold all_indicators, all_signals, bollinger_indicators, macd_indicators, macd_signals.
  rewrite !length_fmap, E. rewrite <- Hal, <- Hcross, <- Hlab, <- Hrsi.
  repeat split; map_lookup; reflexivity.
Qed.

(** X23.  On a strictly rising close of at least 50 bars the moving averages
    are aligned upwards (MA5 > MA10 > MA20 > MA50), there is no crossover of
    MA5 and MA20, and the RSI is 100: the alignment clause of the trend
    score gives +30, the crossover clause 0, and the RSI clause, which reads
    the rise as overbought, -15. *)
Theorem rising_series_bullish (Qsqrt : Q -> Q) (bars : list PriceBar) :
  strictly_rising (Close <$> bars) ->
  (50 <= length bars)%nat ->
  exists self',
    calculate_all Qsqrt (init bars) = Ok self'
    /\ indicators self' !! "ma_alignment" = Some (VStr "bullish")
    /\ signals self' !! "ma_cross" = Some "none"
    /\ indicators self' !! "rsi" = Some (VNum (Num.of_Z 100))
    /\ signals self' !! "rsi" = Some "overbought"
    /\ ma_alignment_points self' = 30
    /\ ma_cross_points self' = 0
    /\ rsi_points self' = Ok (-15).
Proof.
  intros Hrise Hlen.
  assert (Hl : length (Close <$> bars) = length bars) by apply length_fmap.
  destruct (trending_series Qsqrt bars "bullish" "overbought" 100)
    as (self & Hr & H1 & H2 & H3 & H4).
  - intros E. rewrite E in Hlen. simpl in Hlen. lia.
  - apply ma_alignment_label_rising; [done | lia].
  - apply ma_crossover_rising; [done | lia].
  - apply current_rsi_rising; [done|]. cbn [config.rsi_period TECHNICAL_CONFIG]. lia.
  - reflexivity.
  - lia.
  - exists self. repeat (split; [done|]).
    unfold ma_alignment_points, ma_cross_points, rsi_points, indicator_is, signal_is,
      indicator_num.
    rewrite H1, H2, H3. repeat split.
Qed.

Lemma rising_series_bullish_witness :
  exists self',
    calculate_all Qsqrt_trunc (init (trending_bars 1)) = Ok self'
    /\ indicators self' !! "ma_alignment" = Some (VStr "bullish")
    /\ signals self' !! "ma_cross" = Some "none"
    /\ indicators self' !! "rsi" = Some (VNum (Num.of_Z 100))
    /\ signals self' !! "rsi" = Some "overbought"
    /\ ma_alignment_points self' = 30
    /\ ma_cross_points self' = 0
    /\ rsi_points self' = Ok (-15).
Proof.
  apply (rising_series_bullish Qsqrt_trunc (trending_bars 1)).
  - vm_compute. repeat split.
  - vm_compute. lia.
Defined.

(** X24.  On a strictly falling close of at least 50 bars the moving
    averages are aligned downwards (MA5 < MA10 < MA20 < MA50), there is no
    crossover of MA5 and MA20, and the RSI is 0: the alignment clause of the
    trend score gives -30, the crossover clause 0, and the RSI clause, which
    reads the fall as oversold, +15. *)
Theorem falling_series_bearish (Qsqrt : Q -> Q) (bars : list PriceBar) :
  strictly_falling (Close <$> bars) ->
  (50 <= length bars)%nat ->
  exists self',
    calculate_all Qsqrt (init bars) = Ok self'
    /\ indicators self' !! "ma_alignment" = Some (VStr "bearish")
    /\ signals self' !! "ma_cross" = Some "none"
    /\ indicators self' !! "rsi" = Some (VNum (Num.of_Z 0))
    /\ signals self' !! "rsi" = Some "oversold"
    /\ ma_alignment_points self' = -30
    /\ ma_cross_points self' = 0
    /\ rsi_points self' = Ok 15.
Proof.
  intros Hfall Hlen.
  assert (Hl : length (Close <$> bars) = length bars) by apply length_fmap.
  destruct (trending_series Qsqrt bars "bearish" "oversold" 0)
    as (self & Hr & H1 & H2 & H3 & H4).
  - intros E. rewrite E in Hlen. simpl in Hlen. lia.
  - apply ma_alignment_label_falling; [done | lia].
  - apply ma_crossover_falling; [done | lia].
  - apply current_rsi_falling; [done|]. cbn [config.rsi_period TECHNICAL_CONFIG]. lia.
  - reflexivity.
  - lia.
  - exists self. repeat (split; [done|]).
    unfold ma_alignment_points, ma_cross_points, rsi_points, indicator_is, signal_is,
      indicator_num.
    rewrite H1, H2, H3. repeat split.
Qed.

Lemma falling_series_bearish_witness :
  exists self',
    calculate_all Qsqrt_trunc (init (trending_bars (-1))) = Ok self'
    /\ indicators self' !! "ma_alignment" = Some (VStr "bearish")
    /\ signals self' !! "ma_cross" = Some "none"
    /\ indicators self' !! "rsi" = Some (VNum (Num.of_Z 0))
    /\ signals self' !! "rsi" = Some "oversold"
    /\ ma_alignment_points self' = -30
    /\ ma_cross_points self' = 0
    /\ rsi_points self' = Ok 15.
Proof.
  apply (falling_series_bearish Qsqrt_trunc (trending_bars (-1))).
  - vm_compute. repeat split.
  - vm_compute. lia.
Defined.


(** ** The Bollinger bands *)







(** ** The volume ratio *)

Lemma Qsum_nonneg (s : pd.Series) : Forall nonneg s -> (0 <= Qsum s)%Q.
Proof.
  induction 1 as [|x s (q & -> & Hq) _ IH]; [apply Qle_refl|].
  cbn [Qsum foldr Qval]. fold (Qsum s). lra.
Qed.

(** The last cell of a column of non-negative cells is at most their sum. *)
Lemma Qsum_last (s : pd.Series) :
  Forall nonneg s -> s <> [] -> (Qval (from_end 1 s) <= Qsum s)%Q.
Proof.
  intros Hs Hne. destruct (exists_last Hne) as (s' & x & ->).
  unfold from_end. rewrite length_app. cbn [length].
  replace (length s' + 1 - 1)%nat with (length s') by lia.
  rewrite list_lookup_middle by done. cbn [default].
  apply Forall_app in Hs as [Hs' Hx]. rewrite Qsum_app.
  apply Forall_cons in Hx as [(q & -> & Hq) _].
  pose proof (Qsum_nonneg s' Hs') as H0.
  change (Qsum [Fin q]) with (q + 0)%Q. cbn [Qval id]. lra.
Qed.

Lemma from_end_tail (w : nat) (s : pd.Series) :
  (1 <= w <= length s)%nat -> from_end 1 (pd.tail w s) = from_end 1 s.
Proof.
  intros [Hw Hlen]. unfold from_end. rewrite length_tail by done.
  unfold pd.tail. rewrite lookup_drop. f_equal. f_equal. lia.
Qed.

(** The current bar is one of the twenty averaged: the ratio is at most 20. *)
Lemma current_volume_ratio_bound (volume : pd.Series) :
  Forall nonneg volume -> volume <> [] ->
  between 0 20 (current_volume_ratio volume (from_end 1 volume)).
Proof.
  intros Hv Hne. destruct (Nat.lt_ge_cases (length volume) 20) as [Hlen | Hlen].
  { rewrite current_volume_ratio_short by done. exists 1%Q. split; [reflexivity | lra]. }
  assert (Hfin : finite_series volume).
  { eapply Forall_impl; [exact Hv|]. by intros x (q & -> & _). }
  unfold current_volume_ratio. cbn [config.volume_ma_period TECHNICAL_CONFIG].
  destruct (window_mean_denotes 20 volume Hfin) as (m & -> & Hm); [lia|].
  destruct (from_end_Forall nonneg volume Hv Hne) as (c & Hc & Hc0).
  pose proof (Qsum_last (pd.tail 20 volume)) as Hlast.
  rewrite from_end_tail, Hc in Hlast by lia. cbn [Qval] in Hlast.
  specialize (Hlast ltac:(by apply Forall_drop)
                    ltac:(intros E; apply (f_equal length) in E;
                          rewrite length_tail in E by done; simpl in E; lia)).
  rewrite Hc. unfold Num.of_Z. case_gtb m 0%Q.
  - cbn [Num.div]. rewrite (Qzero_pos m) by done. unfold Num.fin.
    eexists. split; [reflexivity|]. rewrite Qred_correct.
    apply ratio_bound; [done | done |].
    rewrite Hm. change (inject_Z (Z.of_nat 20)) with 20%Q. 
    assert (E20 : (20 * (Qsum (pd.tail 20 volume) / 20) == Qsum (pd.tail 20 volume))%Q)
      by (field; lra).
    rewrite E20. exact Hlast.
  - exists 1%Q. split; [reflexivity | lra].
Qed.

(** X9.  On a non-empty frame whose volumes are finite and not negative the
    volume ratio reported is a finite number between 0 and 20, never NaN or
    an infinity: the current bar is one of the twenty averaged, and without
    a positive 20-bar average (fewer than 20 bars, or no volume at all) the
    ratio is 1.  The volume signal is high, low or normal. *)
Theorem volume_ratio_defined (self : TechnicalAnalyzer) :
  df self <> [] ->
  Forall nonneg (Volume <$> df self) ->
  exists self' ratio label,
    calculate_volume_indicators self = Ok self'
    /\ indicators self' !! "volume_ratio" = Some (VNum ratio)
    /\ between 0 20 ratio
    /\ ((length (df self) < 20)%nat -> ratio = Num.of_Z 1)
    /\ signals self' !! "volume" = Some label
    /\ (label = "high" \/ label = "low" \/ label = "normal").
Proof.
  intros Hdf Hvol.
  destruct (calculate_volume_indicators_leaves self Hdf) as (self' & Hr & _ & Hind & Hsig).
  eexists self', _, _. split; [exact Hr|].
  split; [by rewrite Hind, lookup_insert_eq|].
  split.
  { apply current_volume_ratio_bound; [done | by apply fmap_nonempty]. }
  split.
  { intros Hlen. apply current_volume_ratio_short. by rewrite length_fmap. }
  split; [by rewrite Hsig, lookup_insert_eq|]. apply volume_label_values.
Qed.

Lemma volume_ratio_defined_witness :
  exists self' ratio label,
    calculate_volume_indicators (init crossing_bars) = Ok self'
    /\ indicators self' !! "volume_ratio" = Some (VNum ratio)
    /\ between 0 20 ratio
    /\ ((length (df (init crossing_bars)) < 20)%nat -> ratio = Num.of_Z 1)
    /\ signals self' !! "volume" = Some label
    /\ (label = "high" \/ label = "low" \/ label = "normal").
Proof.
  apply (volume_ratio_defined (init crossing_bars)).
  - discriminate.
  - simpl. repeat constructor; (eexists; split; [reflexivity | lra]).
Defined.

(** ** The MACD of closes in a range *)

(** The smoothing factor of a span of at least 1 is in (0, 1]. *)
Lemma alpha_unit (span : nat) :
  (1 <= span)%nat -> exists a, pd.alpha span = Fin a /\ (0 <= a <= 1)%Q.
Proof.
  intros Hs. unfold pd.alpha, Num.of_nat, Num.of_Z, Num.div.
  assert (Hn : (0 < Z.of_nat (span + 1) # 1)%Q) by (unfold Qlt; simpl; lia).
  rewrite (Qzero_pos _ Hn). unfold Num.fin. eexists. split; [reflexivity|].
  rewrite Qred_correct. apply ratio_bound; [done | lra |].
  unfold Qle. simpl. lia.
Qed.

(** An exponential mean is a convex combination: it stays in the range of
    the cells. *)
Lemma ewm_from_between (lo hi a : Q) (prev : num) (s : pd.Series) :
  (0 <= a <= 1)%Q -> between lo hi prev -> Forall (between lo hi) s ->
  Forall (between lo hi) (pd.ewm_from (Fin a) prev s).
Proof.
  intros Ha Hprev Hs. revert prev Hprev.
  induction Hs as [|x s (q & -> & Hq) _ IH]; intros prev (p & -> & Hp); [constructor|].
  cbn [pd.ewm_from].
  assert (Hy : between lo hi ((Num.of_Z 1 - Fin a) * Fin p + Fin a * Fin q)%num).
  { unfold Num.of_Z. cbn [Num.sub Num.mul Num.add Num.fin].
    eexists. split; [reflexivity|]. rewrite !Qred_correct. nra. }
  constructor; [exact Hy | by apply IH].
Qed.

Lemma ewm_mean_between (lo hi : Q) (span : nat) (s : pd.Series) :
  (1 <= span)%nat -> Forall (between lo hi) s ->
  Forall (between lo hi) (pd.ewm_mean span s).
Proof.
  intros Hspan Hs. destruct s as [|x s]; [constructor|].
  apply Forall_cons in Hs as [Hx Hs]. cbn [pd.ewm_mean].
  destruct (alpha_unit span Hspan) as (a & -> & Ha).
  constructor; [exact Hx | by apply ewm_from_between].
Qed.

Lemma zip_sub_between (lo1 hi1 lo2 hi2 : Q) (l1 l2 : pd.Series) :
  Forall (between lo1 hi1) l1 -> Forall (between lo2 hi2) l2 ->
  Forall (between (lo1 - hi2) (hi1 - lo2)) (zip_with Num.sub l1 l2).
Proof.
  intros H1. revert l2. induction H1 as [|x l1 (q1 & -> & Hq1) _ IH];
    intros l2 H2; [constructor|].
  destruct H2 as [|y l2 (q2 & -> & Hq2) H2]; [constructor|].
  cbn [zip_with]. constructor; [|by apply IH].
  cbn [Num.sub]. unfold Num.fin. eexists. split; [reflexivity|].
  rewrite Qred_correct. lra.
Qed.

Lemma from_end_zip_sub (l1 l2 : pd.Series) :
  length l1 = length l2 -> l1 <> [] ->
  from_end 1 (zip_with Num.sub l1 l2) = (from_end 1 l1 - from_end 1 l2)%num.
Proof.
  intros Hlen Hne. unfold from_end.
  rewrite length_zip_with_l_eq by done. rewrite lookup_zip_with, <- Hlen.
  destruct (lookup_lt_is_Some_2 l1 (length l1 - 1)%nat) as [x Hx].
  { destruct l1; [done | simpl; lia]. }
  destruct (lookup_lt_is_Some_2 l2 (length l1 - 1)%nat) as [y Hy].
  { rewrite <- Hlen. destruct l1; [done | simpl; lia]. }
  rewrite Hx, Hy. reflexivity.
Qed.

(** X26.  On a frame of at least 2 bars whose closes all lie between [lo]
    and [hi], [calculate_macd] raises nothing and reports three finite
    numbers: the MACD value and its signal line are within [hi - lo] of 0,
    and the histogram, their difference, within twice that. *)
Theorem macd_bounded (self : TechnicalAnalyzer) (lo hi : Q) :
  Forall (between lo hi) (Close <$> df self) ->
  (2 <= length (df self))%nat ->
  exists self' value signal_ hist,
    calculate_macd self = Ok self'
    /\ indicators self' !! "macd_value" = Some (VNum (Fin value))
    /\ indicators self' !! "macd_signal" = Some (VNum (Fin signal_))
    /\ indicators self' !! "macd_hist" = Some (VNum (Fin hist))
    /\ (lo - hi <= value <= hi - lo)%Q
    /\ (lo - hi <= signal_ <= hi - lo)%Q
    /\ (hist == value - signal_)%Q.
Proof.
  intros Hclose Hlen.
  destruct (calculate_macd_leaves self) as (self' & Hr & _ & Hind & _).
  set (close := Close <$> df self) in *.
  assert (Hl : length close = length (df self)) by apply length_fmap.
  assert (Hm : Forall (between (lo - hi) (hi - lo)) (MACD_line close)).
  { unfold MACD_line. cbn [config.macd_fast config.macd_slow TECHNICAL_CONFIG].
    apply zip_sub_between; apply ewm_mean_between; (done || lia). }
  assert (Hs : Forall (between (lo - hi) (hi - lo)) (MACD_signal_line close)).
  { unfold MACD_signal_line. cbn [config.macd_signal TECHNICAL_CONFIG].
    apply ewm_mean_between; (done || lia). }
  assert (Hne : forall l : pd.Series, length l = length close -> l <> []).
  { intros l E ->. simpl in E. lia. }
  destruct (from_end_Forall _ _ Hm (Hne _ (length_MACD_line close))) as (v & Hv & Hv').
  destruct (from_end_Forall _ _ Hs (Hne _ (length_MACD_signal_line close)))
    as (g & Hg & Hg').
  assert (Hh : from_end 1 (MACD_hist_line close) = (Fin v - Fin g)%num).
  { unfold MACD_hist_line. rewrite from_end_zip_sub, Hv, Hg; [done | |].
    - by rewrite length_MACD_line, length_MACD_signal_line.
    - apply Hne, length_MACD_line. }
  exists self', v, g, (Qred (v - g)). split; [exact Hr|].
  rewrite Hind. unfold macd_indicators.
  replace (2 <=? length close)%nat with true by (symmetry; apply Nat.leb_le; lia).
  rewrite Hv, Hg, Hh.
  split; [by map_lookup|]. split; [by map_lookup|]. split; [by map_lookup|].
  split; [done|]. split; [done|]. apply Qred_correct.
Qed.

Lemma macd_bounded_witness :
  exists self' value signal_ hist,
    calculate_macd (init crossing_bars) = Ok self'
    /\ indicators self' !! "macd_value" = Some (VNum (Fin value))
    /\ indicators self' !! "macd_signal" = Some (VNum (Fin signal_))
    /\ indicators self' !! "macd_hist" = Some (VNum (Fin hist))
    /\ (10 - 30 <= value <= 30 - 10)%Q
    /\ (10 - 30 <= signal_ <= 30 - 10)%Q
    /\ (hist == value - signal_)%Q.
Proof.
  apply (macd_bounded (init crossing_bars) 10 30).
  - simpl. repeat constructor; (eexists; split; [reflexivity | lra]).
  - simpl. lia.
Defined.


(** ** The description of a sentiment score *)

(** X27.  The description of the sentiment score agrees with the overall
    label of [analyze_news]: under a positive label the description is 偏乐观
    (rather optimistic) or 非常乐观 (very optimistic), under a negative one
    偏悲观 (rather pessimistic) or 非常悲观 (very pessimistic), and the
    description 中性 (neutral) comes only with the label neutral. *)
Theorem description_agrees_with_label (score_text : string -> Sentiment)
    (strftime : Z -> string) (isspace : ascii -> bool) (l : list News) :
  let r := analyze_news score_text strftime isspace l in
  let description := get_sentiment_description (sentiment_score_ r) in
  (sentiment_label r = "positive" ->
   description = "偏乐观" \/ description = "非常乐观")
  /\ (sentiment_label r = "negative" ->
      description = "偏悲观" \/ description = "非常悲观")
  /\ (description = "中性" -> sentiment_label r = "neutral").
Proof.
  intros r description.
  destruct (sentiment_score_eq score_text strftime isspace l)
    as (_ & q & Hq & Hlab & _ & _).
  fold r in Hq, Hlab. subst description. rewrite Hlab, Hq.
  unfold sentiment_label_of, get_sentiment_description, Num.of_Z.
  case_gtb q (60 # 1)%Q; [|case_gtb q (20 # 1)%Q; [|case_gtb q (-20 # 1)%Q;
    [|case_gtb q (-60 # 1)%Q]]];
    (case_gtb q (25 # 1)%Q;
     [|destruct (Fin q <? Fin (-25 # 1))%num eqn:E';
       [apply NumFacts.ltb_Fin in E' | apply ltb_Fin_false in E']]);
    (split; [|split]); intros H; try discriminate H; auto; exfalso; lra.
Qed.
